(** * CodeMachine: engine providers (local, Claude), process output
      normalisation and template selection

    A shallow embedding of the TypeScript sources:
    - [execution/runner.ts] of the local provider ([normalize],
      [formatLocalStreamJsonLine], [runLocal]);
    - [auth.ts] of the local and Claude providers;
    - [cli/commands/templates.command.ts] ([packageRoot],
      [handleTemplateSelectionSuccess], [getAvailableTemplates],
      [selectTemplateByNumber]);
    - the [preAction] hook of [runtime/cli-setup.ts];
    - [local/config.ts] ([resolveModel]) and [local/metadata.ts].

    JavaScript strings are sequences of UTF-16 code units; they are
    modelled as [list N].  Regular expressions are modelled by a small
    backtracking matcher that covers the constructs the sources use. *)

From Stdlib Require Import NArith ZArith Ascii String List Lia Bool.
From Stdlib Require Import DecimalString Sorted.
From stdpp Require Import base list option gmap strings fin_maps.
Import ListNotations.

#[local] Open Scope N_scope.
#[local] Set Warnings "-register-all".

(** ** JavaScript strings *)

Module Js.

(** A JavaScript string: its UTF-16 code units. *)
Abbreviation str := (list N).

(** An ASCII literal of the source as a JavaScript string. *)
Definition lit (s : string) : str :=
  map N_of_ascii (list_ascii_of_string s).
#[global] Arguments lit : simpl never.

Definition LF : N := 10.
Definition CR : N := 13.
Definition ESC : N := 27.

(** ECMAScript LineTerminator: LF, CR, U+2028, U+2029. *)
Definition isLineTerminator (c : N) : bool :=
  (c =? 10) || (c =? 13) || (c =? 8232) || (c =? 8233).

(** ECMAScript WhiteSpace and LineTerminator, the code units that
    [String.prototype.trim] strips. *)
Definition isTrimmable (c : N) : bool :=
  (c =? 9) || (c =? 10) || (c =? 11) || (c =? 12) || (c =? 13) ||
  (c =? 32) || (c =? 160) || (c =? 5760) ||
  ((8192 <=? c) && (c <=? 8202)) ||
  (c =? 8232) || (c =? 8233) || (c =? 8239) || (c =? 8287) ||
  (c =? 12288) || (c =? 65279).

Fixpoint trimStart (s : str) : str :=
  match s with
  | c :: s' => if isTrimmable c then trimStart s' else s
  | [] => []
  end.

Definition trimEnd (s : str) : str := rev (trimStart (rev s)).

(** [s.trim()] *)
Definition trim (s : str) : str := trimEnd (trimStart s).

(** [s.startsWith(p)] *)
Fixpoint startsWith (p s : str) : bool :=
  match p, s with
  | [], _ => true
  | a :: p', b :: s' => (a =? b) && startsWith p' s'
  | _ :: _, [] => false
  end.

(** [s.substring(n)] for a natural [n]. *)
Definition substringFrom (n : nat) (s : str) : str := drop n s.

(** [s.substring(0, n)] for a natural [n]. *)
Definition substringTo (n : nat) (s : str) : str := take n s.

(** [s.split(sep)] for a one-code-unit separator: never empty, the
    empty string gives one empty piece. *)
Fixpoint split (sep : N) (s : str) : list str :=
  match s with
  | [] => [[]]
  | c :: s' =>
      if c =? sep then [] :: split sep s'
      else match split sep s' with
           | piece :: pieces => (c :: piece) :: pieces
           | [] => [[c]]
           end
  end.

(** [pieces.join(sep)] *)
Fixpoint join (sep : str) (pieces : list str) : str :=
  match pieces with
  | [] => []
  | [p] => p
  | p :: ps => p ++ sep ++ join sep ps
  end.

(** ASCII upper-casing of one code unit; a regular expression with the
    [i] flag (and no [u] flag) compares code units after
    [Canonicalize], which never maps a code unit above 127 to one
    below 128. *)
Definition upperAscii (c : N) : N :=
  if (97 <=? c) && (c <=? 122) then c - 32 else c.

Fixpoint startsWithI (p s : str) : bool :=
  match p, s with
  | [], _ => true
  | a :: p', b :: s' => (upperAscii a =? upperAscii b) && startsWithI p' s'
  | _ :: _, [] => false
  end.

(** [/p/i.test(s)] for a pattern [p] of literal ASCII characters. *)
Fixpoint testI (p s : str) : bool :=
  startsWithI p s ||
  match s with
  | [] => false
  | _ :: s' => testI p s'
  end.

(** Decimal rendering of an integer, as [String(n)] gives for an
    integer exit code. *)
Definition ofZ (z : Z) : str :=
  lit (NilZero.string_of_int (Z.to_int z)).

End Js.

(** ** Regular expressions

    The subset of ECMAScript patterns the sources use: a sequence of
    atoms, each a line-start assertion, one code unit of a class, a
    greedy repetition of a class, or a boundary of capture group 1.
    Matching follows the ECMAScript backtracking order: a greedy
    repetition first takes as many code units as it can and gives
    them back one at a time while the rest of the pattern fails. *)

Module Regex.

Inductive atom : Type :=
| Bol                        (* [^] under the [m] flag *)
| One (cls : N -> bool)      (* one code unit of a class *)
| Many (cls : N -> bool)     (* [cls*], greedy *)
| Open                       (* [(] of group 1 *)
| Close.                     (* [)] of group 1 *)

Definition regex := list atom.

(** Offsets, relative to the start of the match, of group 1. *)
Definition caps : Type := option nat * option nat.

(** [prev] is the code unit before the current position ([None] at
    the start of the input), [s] the input from the current position,
    [n] the number of code units consumed since the match started. *)
Fixpoint star {R : Type} (cls : N -> bool)
    (k : option N -> Js.str -> nat -> option R)
    (prev : option N) (s : Js.str) (n : nat) : option R :=
  match s with
  | c :: s' =>
      if cls c then
        match star cls k (Some c) s' (S n) with
        | Some r => Some r
        | None => k prev s n
        end
      else k prev s n
  | [] => k prev s n
  end.

Definition atBol (prev : option N) : bool :=
  match prev with
  | None => true
  | Some c => Js.isLineTerminator c
  end.

Fixpoint run (r : regex) (cp : caps) (prev : option N) (s : Js.str) (n : nat)
    : option (nat * caps) :=
  match r with
  | [] => Some (n, cp)
  | Bol :: r' => if atBol prev then run r' cp prev s n else None
  | One cls :: r' =>
      match s with
      | c :: s' => if cls c then run r' cp (Some c) s' (S n) else None
      | [] => None
      end
  | Many cls :: r' => star cls (run r' cp) prev s n
  | Open :: r' => run r' (Some n, snd cp) prev s n
  | Close :: r' => run r' (fst cp, Some n) prev s n
  end.

(** The text of group 1 ([$1]); the empty string when the group did
    not take part in the match. *)
Definition group1 (cp : caps) (s : Js.str) : Js.str :=
  match cp with
  | (Some a, Some b) => take (b - a)%nat (drop a s)
  | _ => []
  end.

(** One attempt at the current position: the length of the match and
    the text of group 1. *)
Definition exec (r : regex) (prev : option N) (s : Js.str)
    : option (nat * Js.str) :=
  match run r (None, None) prev s 0%nat with
  | Some (n, cp) => Some (n, group1 cp s)
  | None => None
  end.

(** [s.replace(/r/g, repl)]: the matches are found from left to right,
    each search starting where the previous match ended (one further
    after an empty match); the text between matches is kept.  [skip]
    counts the code units of the current match still to be passed. *)
Fixpoint replaceFrom (r : regex) (repl : Js.str -> Js.str)
    (prev : option N) (s : Js.str) (skip : nat) : Js.str :=
  match s with
  | [] =>
      match skip with
      | O => match exec r prev [] with
             | Some (_, g) => repl g
             | None => []
             end
      | S _ => []
      end
  | c :: s' =>
      match skip with
      | S k => replaceFrom r repl (Some c) s' k
      | O =>
          match exec r prev s with
          | Some (O, g) => repl g ++ c :: replaceFrom r repl (Some c) s' 0
          | Some (S k, g) => repl g ++ replaceFrom r repl (Some c) s' k
          | None => c :: replaceFrom r repl (Some c) s' 0
          end
      end
  end.

Definition replaceAll (r : regex) (repl : Js.str -> Js.str) (s : Js.str)
    : Js.str :=
  replaceFrom r repl None s 0.

(** Character classes of the sources. *)
Definition chr (c : N) : N -> bool := N.eqb c.
Definition dot (c : N) : bool := negb (Js.isLineTerminator c).
Definition notCRLF (c : N) : bool := negb ((c =? Js.CR) || (c =? Js.LF)).
Definition range (lo hi : N) (c : N) : bool := (lo <=? c) && (c <=? hi).

End Regex.

(** ** The host: paths, environment, engine metadata *)

(** Normal completion or a thrown exception. *)
Inductive completion (E A : Type) : Type :=
| Normal (a : A)
| Throw (e : E).
Arguments Normal {E A} a.
Arguments Throw {E A} e.

(** [err?.code], [err?.stderr] and [err?.message] of a thrown value. *)
Record jserror : Type := mkError {
  err_code : option Js.str;
  err_stderr : option Js.str;
  err_message : option Js.str;
}.

(** [new Error(message)] *)
Definition newError (message : Js.str) : jserror :=
  mkError None None (Some message).

(** A resolved absolute path: its components from the root.
    [path.join(p, a, b)] appends components, [path.dirname] drops the
    last one. *)
Abbreviation path := (list Js.str).

Definition path_join (p : path) (segments : list string) : path :=
  p ++ map Js.lit segments.

Definition path_dirname (p : path) : path := removelast p.

(** The state of the [process] global the sources read: [process.env],
    [os.homedir()] and [process.cwd()]. *)
Record Process : Type := mkProcess {
  process_env : gmap string Js.str;
  homedir : path;
  process_cwd : path;
}.

(** A truthy environment variable: set and not the empty string. *)
Definition envTruthy (proc : Process) (name : string) : option Js.str :=
  match process_env proc !! name with
  | Some v => if bool_decide (v = []) then None else Some v
  | None => None
  end.

(** The fields of [EngineMetadata] the sources read. *)
Record EngineMetadata : Type := mkMetadata {
  md_id : Js.str;
  md_name : Js.str;
  md_description : Js.str;
  md_cliCommand : Js.str;
  md_cliBinary : Js.str;
  md_installCommand : Js.str;
  md_defaultModel : Js.str;
  md_order : Z;
}.

(** [LocalEngineMetadata] *)
Record LocalEngineMetadata : Type := mkLocalMetadata {
  md_base :> EngineMetadata;
  md_localApiUri : Js.str;
  md_localApiPath : Js.str;
  md_localApiKey : option Js.str;
  md_stream : bool;
}.

(** [local/metadata.ts] *)
Definition metadata : LocalEngineMetadata :=
  {| md_base :=
       {| md_id := Js.lit "local";
          md_name := Js.lit "Local";
          md_description :=
            Js.lit "Local AI models via local server (OpenAI compatible)";
          md_cliCommand := Js.lit "curl";
          md_cliBinary := Js.lit "lms";
          md_installCommand :=
            Js.lit "Install LM Studio from https://lmstudio.ai/";
          md_defaultModel := Js.lit "qwen3-coder-30b-a3b-instruct";
          md_order := 100 |};
     md_localApiUri := Js.lit "http://localhost:1234";
     md_localApiPath := Js.lit "/v1/responses";
     md_localApiKey := Some (Js.lit "lm-studio");
     md_stream := false |}.

(** [local/config.ts] *)
Definition DEFAULT_TIMEOUT : Z := 1800000.

(** ** The local provider: [execution/runner.ts] *)

Module Runner.

Import Regex.

(** [/^.*\r(G)/gm] where the capture group [G] is [[^\r\n]*]. *)
Definition CR_OVERWRITE : regex :=
  [Bol; Many dot; One (chr Js.CR); Open; Many notCRLF; Close].

(** [ANSI_ESCAPE_SEQUENCE]: [\u001B\[[0-9;?]*[ -/]*[@-~]] with the
    [g] flag. *)
Definition ANSI_ESCAPE_SEQUENCE : regex :=
  [One (chr Js.ESC); One (chr 91);
   Many (fun c => range 48 57 c || (c =? 59) || (c =? 63));
   Many (range 32 47);
   One (range 64 126)].

(** [/\r\n/g], [/\r/g] and [/\n{3,}/g] *)
Definition CRLF : regex := [One (chr Js.CR); One (chr Js.LF)].
Definition LONE_CR : regex := [One (chr Js.CR)].
Definition LF3 : regex :=
  [One (chr Js.LF); One (chr Js.LF); One (chr Js.LF); Many (chr Js.LF)].

(** [normalize] of [runLocal]; [plainLogs] is
    [CODEMACHINE_PLAIN_LOGS === '1']. *)
Definition normalize (plainLogs : bool) (text : Js.str) : Js.str :=
  let result := replaceAll CR_OVERWRITE (fun g => g) text in
  let result :=
    if plainLogs then replaceAll ANSI_ESCAPE_SEQUENCE (fun _ => []) result
    else result in
  replaceAll LF3 (fun _ => [Js.LF; Js.LF])
    (replaceAll LONE_CR (fun _ => [Js.LF])
       (replaceAll CRLF (fun _ => [Js.LF]) result)).

(** *** JSON values and the JavaScript operations on them *)

Section Local.

(** JavaScript numbers are IEEE doubles; the embedding keeps the type
    abstract, with the test [x === 0] and the literal [0]. *)
Variable number : Type.
Variable numIsZero : number -> bool.
Variable numZero : number.

(** A value [JSON.parse] can return.  [JObj] lists the own properties
    of the object, each key once. *)
Inductive json : Type :=
| JNull
| JBool (b : bool)
| JNum (x : number)
| JStr (s : Js.str)
| JArr (items : list json)
| JObj (fields : list (Js.str * json)).

(** A JavaScript value of the function: [None] is [undefined]. *)
Definition value : Type := option json.

(** [JSON.parse]: [None] when it throws a SyntaxError. *)
Variable JSON_parse : Js.str -> option json.
(** String conversion inside a template literal: [None] when it
    throws (an object whose own [toString] is not callable). *)
Variable toStr : value -> option Js.str.
(** The [+] operator: [None] when the conversion to a primitive
    throws. *)
Variable jsAdd : value -> value -> option value.

Fixpoint lookupField (k : Js.str) (fields : list (Js.str * json)) : value :=
  match fields with
  | [] => None
  | (k', v) :: rest => if bool_decide (k = k') then Some v else lookupField k rest
  end.

(** [v.k] for the property names the function reads ([status], [type],
    [output], [usage], [error], [code], [name], [content], [text],
    [input_tokens], [cached_input_tokens], [output_tokens]); none of
    them is defined on a prototype, so anything but an object gives
    [undefined].  [None] is the TypeError of reading a property of
    [undefined] or [null]. *)
Definition get (k : string) (v : value) : option value :=
  match v with
  | None | Some JNull => None
  | Some (JObj fields) => Some (lookupField (Js.lit k) fields)
  | Some _ => Some None
  end.

(** [v[0]] *)
Definition index0 (v : value) : option value :=
  match v with
  | None | Some JNull => None
  | Some (JArr items) => Some (head items)
  | Some (JStr s) => Some ((fun c => JStr [c]) <$> head s)
  | Some (JObj fields) => Some (lookupField (Js.lit "0") fields)
  | Some _ => Some None
  end.

Definition isNullish (v : value) : bool :=
  match v with
  | None | Some JNull => true
  | _ => false
  end.

(** [v?.k] *)
Definition optGet (k : string) (v : value) : option value :=
  if isNullish v then Some None else get k v.

(** [v === 'text'] *)
Definition isStr (text : string) (v : value) : bool :=
  match v with
  | Some (JStr s) => bool_decide (s = Js.lit text)
  | _ => false
  end.

(** ToBoolean *)
Definition truthy (v : value) : bool :=
  match v with
  | None | Some JNull => false
  | Some (JBool b) => b
  | Some (JNum x) => negb (numIsZero x)
  | Some (JStr s) => negb (bool_decide (s = []))
  | Some (JArr _) | Some (JObj _) => true
  end.

(** [json.output[0]] *)
Definition output0 (j : value) : option value :=
  o ← get "output" j; index0 o.

(** [json.output[0]?.type] *)
Definition output0Type (j : value) : option value :=
  o0 ← output0 j; optGet "type" o0.

(** [json.output[0]?.name] *)
Definition output0Name (j : value) : option value :=
  o0 ← output0 j; optGet "name" o0.

(** [json.output[0]?.content[0]?.text] *)
Definition output0Text (j : value) : option value :=
  o0 ← output0 j;
  if isNullish o0 then Some None
  else c ← get "content" o0; c0 ← index0 c; optGet "text" c0.

(** [t === 'mcp_call' || t === 'mcp_approval_request' ||
     t === 'custom_tool_call'] *)
Definition isToolType (t : value) : bool :=
  isStr "mcp_call" t || isStr "mcp_approval_request" t ||
  isStr "custom_tool_call" t.

(** The prefixes of the five kinds of progress line, in UTF-16. *)
Definition THINKING : Js.str := [55358; 56800] ++ Js.lit " THINKING: ".
Definition COMMAND : Js.str := [55357; 56615] ++ Js.lit " COMMAND: ".
Definition COMMAND_RESULT : Js.str := [9989] ++ Js.lit " COMMAND RESULT: ".
Definition COMMAND_FAILED : Js.str :=
  [10060] ++ Js.lit " COMMAND FAILED: Exit code ".
Definition MESSAGE : Js.str := [55357; 56492] ++ Js.lit " MESSAGE: ".
Definition TOKENS : Js.str := [9201; 65039] ++ Js.lit "  Tokens: ".

Definition progressPrefixes : list Js.str :=
  [THINKING; COMMAND; COMMAND_RESULT; COMMAND_FAILED; MESSAGE; TOKENS].

(** [name.substring(0, 100)]: only a string has the method. *)
Definition substring100 (v : value) : option Js.str :=
  match v with
  | Some (JStr s) => Some (Js.substringTo 100 s)
  | _ => None
  end.

(** The body of the [try] block of [formatLocalStreamJsonLine]: the
    outer [None] is a thrown exception, the inner one is [null]. *)
Definition formatLocalStreamJsonLine_try (line : Js.str)
    : option (option Js.str) :=
  parsed ← JSON_parse line;
  let json : value := Some parsed in
  status ← get "status" json;
  let completed := isStr "completed" status in
  (* reasoning items *)
  reasoning ← (if completed then t ← output0Type json; Some (isStr "reasoning" t)
               else Some false);
  if reasoning : bool then
    text ← output0Text json; s ← toStr text; Some (Some (THINKING ++ s))
  else
  (* command execution *)
  type ← get "type" json;
  calling ← (if isStr "in_progress" type || isStr "incomplete" type ||
                isStr "calling" type
             then t ← output0Type json; Some (isToolType t)
             else Some false);
  if calling : bool then
    name ← output0Name json; s ← toStr name; Some (Some (COMMAND ++ s))
  else
  called ← (if completed then t ← output0Type json; Some (isToolType t)
            else Some false);
  if called : bool then
    error ← get "error" json;
    code ← get "code" error;
    (* [json.error.code ?? 0], then [exitCode === 0] *)
    let exitCode : value := if isNullish code then Some (JNum numZero) else code in
    let isZero := isNullish code ||
                  match code with
                  | Some (JNum x) => numIsZero x
                  | _ => false
                  end in
    if isZero then
      name ← output0Name json;
      preview ← (if truthy name then s ← substring100 name; Some (s ++ Js.lit "...")
                 else Some []);
      Some (Some (COMMAND_RESULT ++ preview))
    else
      s ← toStr exitCode; Some (Some (COMMAND_FAILED ++ s))
  else
  (* agent messages *)
  message ← (if completed then t ← output0Type json; Some (isStr "message" t)
             else Some false);
  if message : bool then
    text ← output0Text json; s ← toStr text; Some (Some (MESSAGE ++ s))
  else
  (* turn and thread lifecycle events *)
  if isStr "started" status || completed then
    usage ← (if completed then get "usage" json else Some None);
    if completed && truthy usage then
      input_tokens ← get "input_tokens" usage;
      cached_input_tokens ← get "cached_input_tokens" usage;
      output_tokens ← get "output_tokens" usage;
      totalIn ← jsAdd input_tokens
                 (if truthy cached_input_tokens then cached_input_tokens
                  else Some (JNum numZero));
      sIn ← toStr totalIn;
      sOut ← toStr output_tokens;
      cached ← (if truthy cached_input_tokens
                then c ← toStr cached_input_tokens;
                     Some (Js.lit " (" ++ c ++ Js.lit " cached)")
                else Some []);
      Some (Some (TOKENS ++ sIn ++ Js.lit "in/" ++ sOut ++ Js.lit "out" ++ cached))
    else Some None
  else Some None.

(** [formatLocalStreamJsonLine]: the [catch] turns every exception
    into [null]. *)
Definition formatLocalStreamJsonLine (line : Js.str) : option Js.str :=
  match formatLocalStreamJsonLine_try line with
  | Some r => r
  | None => None
  end.

(** *** [buildLocalExecCommand] of [execution/commands.ts] *)

Record LocalCommand : Type := mkCommand {
  command : Js.str;
  args : list Js.str;
}.

(** A template literal renders an absent [localApiKey] as
    [undefined]. *)
Definition buildLocalExecCommand (localApiUri localApiPath : Js.str)
    (localApiKey : option Js.str) : LocalCommand :=
  {| command := md_cliCommand metadata;
     args :=
       [Js.lit "-ss";
        Js.lit "-X"; Js.lit "POST";
        Js.lit "-L"; localApiUri ++ localApiPath;
        Js.lit "-H"; Js.lit "Content-Type: application/json";
        Js.lit "-H";
        Js.lit "Authorization: Bearer " ++
          default (Js.lit "undefined") localApiKey;
        Js.lit "--data-binary"; Js.lit "@-"] |}.

(** *** [runLocal] *)

Inductive effort : Type := low | medium | high.

Record RunLocalOptions : Type := mkOptions {
  prompt : Js.str;
  workingDir : Js.str;
  model : option Js.str;
  modelReasoningEffort : option effort;
  env : option (gmap string Js.str);
  onData : bool;                (* whether the callback is given *)
  onErrorData : bool;
  abortSignal : option nat;
  timeout : option Z;
}.

Record RunLocalResult : Type := mkResult {
  stdout : Js.str;
  stderr : Js.str;
}.

(** [mergedEnv]: the variables of [process.env] overridden by those
    of [options.env], and [LOCAL_HOME]. *)
Record MergedEnv : Type := mkEnv {
  env_vars : gmap string Js.str;
  env_LOCAL_HOME : path;
}.

(** The options [runLocal] hands to [spawnProcess]; the two stream
    callbacks are [onStdout] and [onStderr] below. *)
Record SpawnOptions : Type := mkSpawn {
  spawn_command : Js.str;
  spawn_args : list Js.str;
  spawn_cwd : Js.str;
  spawn_env : MergedEnv;
  spawn_stdinInput : Js.str;
  spawn_signal : option nat;
  spawn_stdioMode : Js.str;
  spawn_timeout : Z;
}.

Record SpawnResult : Type := mkSpawnResult {
  exitCode : Z;
  spawn_stdout : Js.str;
  spawn_stderr : Js.str;
}.

(** A chunk the child writes while it runs. *)
Inductive chunk : Type :=
| Stdout (text : Js.str)
| Stderr (text : Js.str).

(** What [logger.error] records when the child fails. *)
Record FailureLog : Type := mkFailureLog {
  log_exitCode : Z;
  log_error : Js.str;
  log_command : Js.str;
}.

(** The observable effects of a call, in order.  The telemetry
    capture and the logger are only recorded: they are taken not to
    throw. *)
Inductive event : Type :=
| Spawned (o : SpawnOptions)
| Telemetry (data : Js.str)          (* captureFromStreamJson *)
| OnData (line : Js.str)
| OnErrorData (text : Js.str)
| LogError (message : Js.str) (details : option FailureLog)
| TelemetryLogged (code : Z).        (* logCapturedTelemetry *)

(** [expandHomeDir] of the shared utilities, composed with the
    resolution of the string to a path. *)
Variable expandHomeDir : Js.str -> path.
(** [JSON.stringify(body)] for the request body built from the model,
    the prompt, the stream flag and the reasoning effort. *)
Variable JSON_stringify :
  option Js.str -> Js.str -> bool -> option effort -> Js.str.
(** [spawnProcess] of the process layer: the chunks the child writes,
    then either the rejection of the promise or the result. *)
Variable spawnProcess :
  SpawnOptions -> list chunk * completion jserror SpawnResult.

(** The text [onStdout] decodes: the normalised chunk, without its
    [data: ] prefix when the engine streams. *)
Definition streamData (plainLogs : bool) (text : Js.str) : Js.str :=
  let out := normalize plainLogs text in
  if md_stream metadata && Js.startsWith (Js.lit "data: ") (Js.trim out)
  then Js.substringFrom 6 (Js.trim out)   (* remove the 'data: ' prefix *)
  else out.

(** The [onStdout] callback [runLocal] gives to [spawnProcess]. *)
Definition onStdout (plainLogs : bool) (options : RunLocalOptions)
    (text : Js.str) : completion jserror (list event) :=
  let data := streamData plainLogs text in
  let formatted := formatLocalStreamJsonLine data in
  match formatted with
  | Some line =>
      if negb (bool_decide (line = [])) && onData options
      then Normal [Telemetry data; OnData (line ++ [Js.LF])]
      else Normal [Telemetry data]
  | None => Normal [Telemetry data]
  end.

(** The [onStderr] callback. *)
Definition onStderr (plainLogs : bool) (options : RunLocalOptions)
    (text : Js.str) : completion jserror (list event) :=
  let out := normalize plainLogs text in
  if onErrorData options then Normal [OnErrorData out] else Normal [].

Definition onChunk (plainLogs : bool) (options : RunLocalOptions)
    (c : chunk) : completion jserror (list event) :=
  match c with
  | Stdout text => onStdout plainLogs options text
  | Stderr text => onStderr plainLogs options text
  end.

(** The chunks are handled in order; an exception of a callback would
    end the run. *)
Fixpoint onChunks (plainLogs : bool) (options : RunLocalOptions)
    (cs : list chunk) : completion jserror (list event) :=
  match cs with
  | [] => Normal []
  | c :: cs' =>
      match onChunk plainLogs options c with
      | Throw e => Throw e
      | Normal evs =>
          match onChunks plainLogs options cs' with
          | Throw e => Throw e
          | Normal evs' => Normal (evs ++ evs')
          end
      end
  end.

(** [err?.code === 'ENOENT' || /not recognized .../i.test(message) ||
     /command not found/i.test(message)] *)
Definition notFound (error : jserror) : bool :=
  let message := default [] (err_message error) in
  bool_decide (err_code error = Some (Js.lit "ENOENT")) ||
  Js.testI (Js.lit "not recognized as an internal or external command") message ||
  Js.testI (Js.lit "command not found") message.

(** [`${command} ${args.join(' ')}`] *)
Definition commandLine (c : LocalCommand) : Js.str :=
  command c ++ Js.lit " " ++ Js.join (Js.lit " ") (args c).

(** [result.stderr.trim() || result.stdout.trim() || 'no error output'] *)
Definition errorOutput (result : SpawnResult) : Js.str :=
  if negb (bool_decide (Js.trim (spawn_stderr result) = []))
  then Js.trim (spawn_stderr result)
  else if negb (bool_decide (Js.trim (spawn_stdout result) = []))
  then Js.trim (spawn_stdout result)
  else Js.lit "no error output".

(** [errorOutput.split('\n').slice(0, 10)] *)
Definition errorLines (result : SpawnResult) : list Js.str :=
  take 10 (Js.split Js.LF (errorOutput result)).

(** The options of the spawn: [timeout] defaults to 1800000 when the
    option is [undefined]. *)
Definition spawnOptions (proc : Process) (options : RunLocalOptions)
    : SpawnOptions :=
  let timeout := default 1800000%Z (timeout options) in
  let localHome :=
    match envTruthy proc "LOCAL_HOME" with
    | Some v => expandHomeDir v
    | None => path_join (homedir proc) [".codemachine"; "local"]%string
    end in
  let mergedEnv :=
    {| env_vars := default ∅ (env options) ∪ process_env proc;
       env_LOCAL_HOME := localHome |} in
  let c := buildLocalExecCommand (md_localApiUri metadata)
             (md_localApiPath metadata) (md_localApiKey metadata) in
  let jsonBody :=
    JSON_stringify (model options) (prompt options) (md_stream metadata)
      (modelReasoningEffort options) in
  {| spawn_command := command c;
     spawn_args := args c;
     spawn_cwd := workingDir options;
     spawn_env := mergedEnv;
     spawn_stdinInput := jsonBody;
     spawn_signal := abortSignal options;
     spawn_stdioMode := Js.lit "pipe";
     spawn_timeout := timeout |}.

(** [runLocal]: the effects, and the settlement of the promise.  The
    debug logging is left out. *)
Definition runLocal (proc : Process) (options : RunLocalOptions)
    : list event * completion jserror RunLocalResult :=
  if bool_decide (prompt options = []) then
    ([], Throw (newError (Js.lit "runLocal requires a prompt.")))
  else if bool_decide (workingDir options = []) then
    ([], Throw (newError (Js.lit "runLocal requires a working directory.")))
  else
    let plainLogs :=
      bool_decide (default [] (process_env proc !! "CODEMACHINE_PLAIN_LOGS"%string)
                   = Js.lit "1") in
    let c := buildLocalExecCommand (md_localApiUri metadata)
               (md_localApiPath metadata) (md_localApiKey metadata) in
    let o := spawnOptions proc options in
    let '(chunks, outcome) := spawnProcess o in
    match onChunks plainLogs options chunks with
    | Throw e => ([Spawned o], Throw e)
    | Normal streamed =>
        match outcome with
        | Throw error =>
            if notFound error then
              let full := Js.trim (commandLine c) in
              let install := md_installCommand metadata in
              let name := md_name metadata in
              (Spawned o :: streamed ++
                 [LogError (name ++ Js.lit " CLI not found when executing: " ++ full)
                    None],
               Throw (newError
                 (Js.lit "'" ++ command c ++
                  Js.lit "' is not available on this system. Please install " ++
                  name ++ Js.lit " first:" ++ [Js.LF] ++ Js.lit "  " ++ install)))
            else (Spawned o :: streamed, Throw error)
        | Normal result =>
            if negb (exitCode result =? 0)%Z then
              (Spawned o :: streamed ++
                 [LogError (Js.lit "Local CLI execution failed")
                    (Some {| log_exitCode := exitCode result;
                             log_error := Js.join [Js.LF] (errorLines result);
                             log_command := commandLine c |})],
               Throw (newError
                 (Js.lit "Local CLI exited with code " ++ Js.ofZ (exitCode result))))
            else
              (Spawned o :: streamed ++ [TelemetryLogged (exitCode result)],
               Normal {| stdout := spawn_stdout result;
                         stderr := spawn_stderr result |})
        end
    end.

End Local.

End Runner.

(** ** The file system and the effects of the [auth] modules *)

Module Fs.

Inductive node : Type :=
| File (content : Js.str)
| Dir.

(** The entries below the root, which is a directory. *)
Abbreviation t := (gmap path node).

#[global] Instance node_eq_dec : EqDecision node.
Proof. solve_decision. Defined.

Definition code (c : string) : jserror :=
  mkError (Some (Js.lit c)) None (Some (Js.lit c)).

(** [stat(p)] succeeds when the entry exists. *)
Definition exists_ (fs : t) (p : path) : bool :=
  bool_decide (p = []) || bool_decide (is_Some (fs !! p)).

Definition isDir (fs : t) (p : path) : bool :=
  bool_decide (p = []) || bool_decide (fs !! p = Some Dir).

(** [mkdir(p, { recursive: true })]: the missing directories along [p]
    are created from the root down; a regular file on the way is an
    error ([ENOTDIR], or [EEXIST] for [p] itself). *)
Fixpoint mkdirFrom (base : path) (rest : list Js.str) (fs : t)
    : completion jserror t :=
  match rest with
  | [] => Normal fs
  | c :: rest' =>
      let d := base ++ [c] in
      match fs !! d with
      | Some (File _) =>
          Throw (code (match rest' with [] => "EEXIST" | _ => "ENOTDIR" end))
      | Some Dir => mkdirFrom d rest' fs
      | None => mkdirFrom d rest' (<[d := Dir]> fs)
      end
  end.

Definition mkdir (p : path) (fs : t) : completion jserror t :=
  mkdirFrom [] p fs.

(** [writeFile(p, data)]: creates or replaces the file; the parent
    must be a directory and [p] must not be one. *)
Definition writeFile (p : path) (data : Js.str) (fs : t)
    : completion jserror t :=
  if isDir fs p then Throw (code "EISDIR")
  else if isDir fs (path_dirname p) then Normal (<[p := File data]> fs)
  else Throw (code "ENOENT").

(** [rm(p, { force: true })]: a missing entry is not an error, a
    directory is. *)
Definition rm (p : path) (fs : t) : completion jserror t :=
  if bool_decide (p = []) then Throw (code "ERR_FS_EISDIR")
  else match fs !! p with
       | None => Normal fs
       | Some (File _) => Normal (delete p fs)
       | Some Dir => Throw (code "ERR_FS_EISDIR")
       end.

(** [rm(p, { recursive: true, force: true })]: the entry and all that
    is below it go. *)
Definition rmRecursive (p : path) (fs : t) : t :=
  filter (fun kv => ¬ p `prefix_of` kv.1) fs.

End Fs.

(** The calls a function makes to the outside, in order. *)
Record ExecaCall : Type := mkExeca {
  exe_file : Js.str;
  exe_args : list Js.str;
  exe_home : option (string * path);   (* the variable added to the environment *)
  exe_reject : bool;
}.

Record ExecaResult : Type := mkExecaResult {
  exe_exitCode : option Z;
  exe_stdout : option Js.str;
  exe_stderr : option Js.str;
}.

Inductive op : Type :=
| OpStat (p : path)
| OpMkdir (p : path)
| OpWriteFile (p : path) (data : Js.str)
| OpRm (p : path)
| OpRmRecursive (p : path)
| OpExistsSync (p : path)
| OpExeca (c : ExecaCall)
| OpHasTemplateChanged (cmRoot : path) (templateFileName : Js.str)
| OpSetActiveTemplate (cmRoot : path) (templateFileName : Js.str)
| OpBootstrapWorkspace (cwd templatePath : path)
| ConsoleError (line : Js.str)
| ConsoleLog (line : Js.str).

Record World : Type := mkWorld {
  w_fs : Fs.t;
  w_trace : list op;
}.

(** An asynchronous function: from a world to a settlement and a
    world. *)
Definition M (A : Type) : Type := World -> completion jserror A * World.

Definition ret {A} (a : A) : M A := fun w => (Normal a, w).
Definition throw {A} (e : jserror) : M A := fun w => (Throw e, w).
Definition bind {A B} (m : M A) (k : A -> M B) : M B :=
  fun w =>
    match m w with
    | (Normal a, w') => k a w'
    | (Throw e, w') => (Throw e, w')
    end.
(** [try { m } catch (e) { h e }] *)
Definition tryCatch {A} (m : M A) (h : jserror -> M A) : M A :=
  fun w =>
    match m w with
    | (Normal a, w') => (Normal a, w')
    | (Throw e, w') => h e w'
    end.

Declare Scope M_scope.
Delimit Scope M_scope with M.
Notation "x <- m ;; k" := (bind m (fun x => k))
  (at level 100, m at next level, right associativity) : M_scope.
Notation "m ;; k" := (bind m (fun _ => k))
  (at level 100, right associativity) : M_scope.

Definition log (o : op) : M unit :=
  fun w => (Normal tt, {| w_fs := w_fs w; w_trace := w_trace w ++ [o] |}).

Definition liftFs (o : op) (f : Fs.t -> completion jserror Fs.t) : M unit :=
  fun w =>
    let tr := w_trace w ++ [o] in
    match f (w_fs w) with
    | Normal fs' => (Normal tt, {| w_fs := fs'; w_trace := tr |})
    | Throw e => (Throw e, {| w_fs := w_fs w; w_trace := tr |})
    end.

Definition stat (p : path) : M unit :=
  liftFs (OpStat p)
    (fun fs => if Fs.exists_ fs p then Normal fs else Throw (Fs.code "ENOENT")).
Definition mkdir (p : path) : M unit := liftFs (OpMkdir p) (Fs.mkdir p).
Definition writeFile (p : path) (data : Js.str) : M unit :=
  liftFs (OpWriteFile p data) (Fs.writeFile p data).
Definition rm (p : path) : M unit := liftFs (OpRm p) (Fs.rm p).
Definition rmRecursive (p : path) : M unit :=
  liftFs (OpRmRecursive p) (fun fs => Normal (Fs.rmRecursive p fs)).
Definition existsSync (p : path) : M bool :=
  fun w => (Normal (Fs.exists_ (w_fs w) p),
            {| w_fs := w_fs w; w_trace := w_trace w ++ [OpExistsSync p] |}).
Definition console_error (line : Js.str) : M unit := log (ConsoleError line).
Definition console_log (line : Js.str) : M unit := log (ConsoleLog line).

(** The rule of sixty box-drawing characters of the notices. *)
Definition RULE : Js.str := repeat 9472 60.

Definition WARNING_SIGN : Js.str := [9888; 65039].
Definition INFORMATION : Js.str := [8505; 65039].

(** [code === 'ENOENT'] or one of the three messages in
    [stderr || message]. *)
Definition notFoundAuth (error : jserror) : bool :=
  let stderr := default [] (err_stderr error) in
  let message := default [] (err_message error) in
  let text := if bool_decide (stderr = []) then message else stderr in
  bool_decide (err_code error = Some (Js.lit "ENOENT")) ||
  Js.testI (Js.lit "not recognized as an internal or external command") text ||
  Js.testI (Js.lit "command not found") text ||
  Js.testI (Js.lit "No such file or directory") text.

#[local] Open Scope M_scope.

Definition PLACEHOLDER : Js.str := Js.lit "{}".

(** [process.env.CODEMACHINE_SKIP_AUTH === '1'] *)
Definition skipAuth (proc : Process) : bool :=
  bool_decide (process_env proc !! "CODEMACHINE_SKIP_AUTH"%string
               = Some (Js.lit "1")).

(** ** The local provider: [auth.ts] *)

Module LocalAuth.

Section Auth.

(** [expandHomeDir] of the shared utilities, composed with the
    resolution of the string to a path; the default home, a path
    already, is taken as it is. *)
Variable expandHomeDir : Js.str -> path.
(** The external command run by [execa]: its settlement and what it
    does to the file system. *)
Variable execa :
  ExecaCall -> Fs.t -> completion jserror ExecaResult * Fs.t.

Definition runExeca (c : ExecaCall) : M ExecaResult :=
  fun w =>
    let '(r, fs') := execa c (w_fs w) in
    (r, {| w_fs := fs'; w_trace := w_trace w ++ [OpExeca c] |}).

(** [expandHomeDir(localHome ?? process.env.LOCAL_HOME ??
    path.join(homedir(), '.codemachine', 'local'))] *)
Definition targetHome (proc : Process) (localHome : option Js.str) : path :=
  match localHome with
  | Some raw => expandHomeDir raw
  | None =>
      match process_env proc !! "LOCAL_HOME"%string with
      | Some raw => expandHomeDir raw
      | None => path_join (homedir proc) [".codemachine"; "local"]%string
      end
  end.

(** The home is created on every resolution. *)
Definition resolveLocalHome (proc : Process) (localHome : option Js.str)
    : M path :=
  mkdir (targetHome proc localHome) ;;
  ret (targetHome proc localHome).

(** With [reject: false] every settlement but exit code 0 gives
    [false]. *)
Definition isCliInstalled (command : Js.str) : M bool :=
  tryCatch
    (result <- runExeca (mkExeca command [Js.lit "version"] None false) ;;
     ret (bool_decide (exe_exitCode result = Some 0%Z)))
    (fun _ => ret false).

Definition getAuthFilePath (localHome : path) : path :=
  path_join localHome ["auth.json"%string].

Definition isAuthenticated (proc : Process) : M bool :=
  localHome <- resolveLocalHome proc None ;;
  let authPath := getAuthFilePath localHome in
  tryCatch (stat authPath ;; ret true) (fun _ => ret false).

Definition notInstalledNotice : M unit :=
  console_error ([Js.LF] ++ RULE) ;;
  console_error (Js.lit "  " ++ WARNING_SIGN ++ Js.lit "  " ++
                 md_name metadata ++ Js.lit " CLI Not Installed") ;;
  console_error RULE ;;
  console_error ([Js.LF] ++ Js.lit "The '" ++ md_cliBinary metadata ++
                 Js.lit "' command is not available.") ;;
  console_error (Js.lit "Please install " ++ md_name metadata ++
                 Js.lit " CLI first:" ++ [Js.LF]) ;;
  console_error (Js.lit "  " ++ md_installCommand metadata ++ [Js.LF]) ;;
  console_error (RULE ++ [Js.LF]).

Definition notFoundNotice : M unit :=
  console_error ([Js.LF] ++ RULE) ;;
  console_error (Js.lit "  " ++ WARNING_SIGN ++ Js.lit "  " ++
                 md_name metadata ++ Js.lit " CLI Not Found") ;;
  console_error RULE ;;
  console_error ([Js.LF] ++ Js.lit "'" ++ md_cliBinary metadata ++
                 Js.lit " login' failed because the CLI is missing.") ;;
  console_error (Js.lit "Please install " ++ md_name metadata ++
                 Js.lit " CLI before trying again:" ++ [Js.LF]) ;;
  console_error (Js.lit "  " ++ md_installCommand metadata ++ [Js.LF]) ;;
  console_error (RULE ++ [Js.LF]).

Definition notInstalledError : jserror :=
  newError (md_name metadata ++ Js.lit " CLI is not installed.").

Definition ensureAuth (proc : Process) : M bool :=
  localHome <- resolveLocalHome proc None ;;
  let authPath := getAuthFilePath localHome in
  (* If already authenticated, nothing to do. *)
  authenticated <- tryCatch (stat authPath ;; ret true) (fun _ => ret false) ;;
  if authenticated : bool then ret true
  else if skipAuth proc then
    writeFile authPath PLACEHOLDER ;;
    ret true
  else
    (* Check if the CLI is installed *)
    cliInstalled <- isCliInstalled (md_cliBinary metadata) ;;
    if negb cliInstalled then
      notInstalledNotice ;;
      throw notInstalledError
    else
      (* Run the interactive login with the proper environment. *)
      tryCatch
        (_ <- runExeca (mkExeca (md_cliBinary metadata) [Js.lit "status"]
                          (Some ("LOCAL_HOME"%string, localHome)) true) ;;
         ret tt)
        (fun error =>
           if notFoundAuth error then
             notFoundNotice ;;
             throw notInstalledError
           else throw error) ;;
      (* Create a placeholder if the credential path is still absent. *)
      tryCatch (stat authPath) (fun _ => writeFile authPath PLACEHOLDER) ;;
      ret true.

Definition clearAuth (proc : Process) : M unit :=
  localHome <- resolveLocalHome proc None ;;
  let authPath := getAuthFilePath localHome in
  tryCatch (rm authPath) (fun _ => ret tt).

Inductive menuAction : Type := login | logout.

Definition nextAuthMenuAction (proc : Process) : M menuAction :=
  authenticated <- isAuthenticated proc ;;
  ret (if authenticated : bool then logout else login).

End Auth.

End LocalAuth.

(** ** The Claude provider: [auth.ts] *)

Module ClaudeAuth.

Record ClaudeAuthOptions : Type := mkAuthOptions {
  profile : option Js.str;
  claudeConfigDir : option Js.str;
}.

Section Auth.

Variable expandHomeDir : Js.str -> path.
Variable execa :
  ExecaCall -> Fs.t -> completion jserror ExecaResult * Fs.t.
(** The metadata of the Claude engine ([claude/metadata.ts]). *)
Variable metadata : EngineMetadata.
(** The rendering of a path in a message. *)
Variable pathToString : path -> Js.str.

Definition runExeca (c : ExecaCall) : M ExecaResult :=
  fun w =>
    let '(r, fs') := execa c (w_fs w) in
    (r, {| w_fs := fs'; w_trace := w_trace w ++ [OpExeca c] |}).

(** The promise of [execa] settles normally with [reject: false]
    unless the call itself throws. *)
Definition isCliInstalled (command : Js.str) : M bool :=
  tryCatch
    (_ <- runExeca (mkExeca command [Js.lit "--version"] None false) ;;
     ret true)
    (fun _ => ret false).

(** A truthy optional string: given and not empty. *)
Definition truthyStr (s : option Js.str) : option Js.str :=
  match s with
  | Some v => if bool_decide (v = []) then None else Some v
  | None => None
  end.

Definition resolveClaudeConfigDir (proc : Process)
    (options : option ClaudeAuthOptions) : path :=
  match truthyStr (options ≫= claudeConfigDir) with
  | Some dir => expandHomeDir dir
  | None =>
      match envTruthy proc "CLAUDE_CONFIG_DIR" with
      | Some dir => expandHomeDir dir
      | None => path_join (homedir proc) [".codemachine"; "claude"]%string
      end
  end.

Definition getCredentialsPath (configDir : path) : path :=
  path_join configDir [".credentials.json"%string].

Definition getClaudeAuthPaths (configDir : path) : list path :=
  [getCredentialsPath configDir;
   path_join configDir [".claude.json"%string];
   path_join configDir [".claude.json.backup"%string]].

(** [process.env.CLAUDE_CODE_OAUTH_TOKEN] is truthy. *)
Definition hasToken (proc : Process) : bool :=
  bool_decide (is_Some (envTruthy proc "CLAUDE_CODE_OAUTH_TOKEN")).

Definition isAuthenticated (proc : Process)
    (options : option ClaudeAuthOptions) : M bool :=
  if hasToken proc then ret true
  else
    let configDir := resolveClaudeConfigDir proc options in
    let credPath := getCredentialsPath configDir in
    tryCatch (stat credPath ;; ret true) (fun _ => ret false).

Definition notInstalledNotice : M unit :=
  console_error ([Js.LF] ++ RULE) ;;
  console_error (Js.lit "  " ++ WARNING_SIGN ++ Js.lit "  " ++
                 md_name metadata ++ Js.lit " CLI Not Installed") ;;
  console_error RULE ;;
  console_error ([Js.LF] ++ Js.lit "The '" ++ md_cliBinary metadata ++
                 Js.lit "' command is not available.") ;;
  console_error (Js.lit "Please install " ++ md_name metadata ++
                 Js.lit " CLI first:" ++ [Js.LF]) ;;
  console_error (Js.lit "  " ++ md_installCommand metadata ++ [Js.LF]) ;;
  console_error (RULE ++ [Js.LF]).

Definition notFoundNotice : M unit :=
  console_error ([Js.LF] ++ RULE) ;;
  console_error (Js.lit "  " ++ WARNING_SIGN ++ Js.lit "  " ++
                 md_name metadata ++ Js.lit " CLI Not Found") ;;
  console_error RULE ;;
  console_error ([Js.LF] ++ Js.lit "'" ++ md_cliBinary metadata ++
                 Js.lit " setup-token' failed because the CLI is missing.") ;;
  console_error (Js.lit "Please install " ++ md_name metadata ++
                 Js.lit " CLI before trying again:" ++ [Js.LF]) ;;
  console_error (Js.lit "  " ++ md_installCommand metadata ++ [Js.LF]) ;;
  console_error (RULE ++ [Js.LF]).

Definition tokenNotice : M unit :=
  console_error ([Js.LF] ++ RULE) ;;
  console_error (Js.lit "  " ++ INFORMATION ++
                 Js.lit "  Claude CLI Authentication Notice") ;;
  console_error RULE ;;
  console_error ([Js.LF] ++
    Js.lit "Your Claude CLI installation uses token-based authentication.") ;;
  console_error
    (Js.lit "Please set the token you received as an environment variable:" ++
     [Js.LF]) ;;
  console_error (Js.lit "  export CLAUDE_CODE_OAUTH_TOKEN=<your-token>" ++
                 [Js.LF]) ;;
  console_error
    (Js.lit "For persistence, add this line to your shell configuration:") ;;
  console_error (Js.lit "  ~/.bashrc (Bash) or ~/.zshrc (Zsh)" ++ [Js.LF]) ;;
  console_error (RULE ++ [Js.LF]).

Definition notInstalledError : jserror :=
  newError (md_name metadata ++ Js.lit " CLI is not installed.").

Definition incompleteError : jserror :=
  newError (Js.lit
    "Authentication incomplete. Please set CLAUDE_CODE_OAUTH_TOKEN environment variable.").

Definition ensureAuth (proc : Process) (options : option ClaudeAuthOptions)
    : M bool :=
  (* the token is already set in the environment *)
  if hasToken proc then ret true
  else
    let configDir := resolveClaudeConfigDir proc options in
    let credPath := getCredentialsPath configDir in
    (* If already authenticated, nothing to do *)
    authenticated <- tryCatch (stat credPath ;; ret true) (fun _ => ret false) ;;
    if authenticated : bool then ret true
    else if skipAuth proc then
      (* a placeholder for testing and dry runs *)
      let claudeDir := path_dirname credPath in
      mkdir claudeDir ;;
      writeFile credPath PLACEHOLDER ;;
      ret true
    else
      cliInstalled <- isCliInstalled (md_cliBinary metadata) ;;
      if negb cliInstalled then
        notInstalledNotice ;;
        throw notInstalledError
      else
        console_log ([Js.LF] ++ Js.lit "Running Claude authentication..." ++
                     [Js.LF]) ;;
        console_log (Js.lit "Config directory: " ++ pathToString configDir ++
                     [Js.LF]) ;;
        tryCatch
          (_ <- runExeca (mkExeca (Js.lit "claude") [Js.lit "setup-token"]
                            (Some ("CLAUDE_CONFIG_DIR"%string, configDir)) true) ;;
           ret tt)
          (fun error =>
             if notFoundAuth error then
               notFoundNotice ;;
               throw notInstalledError
             else throw error) ;;
        (* Verify the credentials were created *)
        tryCatch (stat credPath ;; ret true)
          (fun _ => tokenNotice ;; throw incompleteError).

(** The removals are started in the order of [getClaudeAuthPaths];
    each swallows its own error. *)
Fixpoint removeAll (authPaths : list path) : M unit :=
  match authPaths with
  | [] => ret tt
  | authPath :: rest =>
      tryCatch (rm authPath) (fun _ => ret tt) ;;
      removeAll rest
  end.

Definition clearAuth (proc : Process) (options : option ClaudeAuthOptions)
    : M unit :=
  let configDir := resolveClaudeConfigDir proc options in
  let authPaths := getClaudeAuthPaths configDir in
  removeAll authPaths.

Inductive menuAction : Type := login | logout.

Definition nextAuthMenuAction (proc : Process)
    (options : option ClaudeAuthOptions) : M menuAction :=
  authenticated <- isAuthenticated proc options ;;
  ret (if authenticated : bool then logout else login).

End Auth.

End ClaudeAuth.

(** ** Template selection: [cli/commands/templates.command.ts] *)

Module Templates.

(** [WorkflowStep] of [workflows/utils/types.ts], without the module
    metadata. *)
Record WorkflowStep : Type := mkStep {
  step_type : Js.str;
  agentId : Js.str;
  agentName : Js.str;
  promptPath : Js.str;
  step_model : option Js.str;
  step_modelReasoningEffort : option Js.str;
  engine : option Js.str;
  executeOnce : option bool;
  notCompletedFallback : option Js.str;
}.

Record WorkflowTemplate : Type := mkTemplate {
  template_name : Js.str;
  steps : list WorkflowStep;
}.

Section Selection.

(** The resolution of [CODEMACHINE_CWD] to a path, and the rendering
    of [path.relative(from, to)]. *)
Variable toPath : Js.str -> path.
Variable relative : path -> path -> Js.str.
(** [hasTemplateChanged] and [setActiveTemplate] of
    [shared/agents/template-tracking.ts] and [bootstrapWorkspace] of
    the bootstrap service, as functions of the file system. *)
Variable hasTemplateChanged :
  path -> Js.str -> Fs.t -> completion jserror bool.
Variable setActiveTemplate :
  path -> Js.str -> Fs.t -> completion jserror Fs.t.
Variable bootstrapWorkspace :
  path -> path -> Fs.t -> completion jserror Fs.t.

Definition callHasTemplateChanged (cmRoot : path) (name : Js.str) : M bool :=
  fun w =>
    (hasTemplateChanged cmRoot name (w_fs w),
     {| w_fs := w_fs w;
        w_trace := w_trace w ++ [OpHasTemplateChanged cmRoot name] |}).

Definition callSetActiveTemplate (cmRoot : path) (name : Js.str) : M unit :=
  liftFs (OpSetActiveTemplate cmRoot name) (setActiveTemplate cmRoot name).

Definition callBootstrapWorkspace (cwd templatePath : path) : M unit :=
  liftFs (OpBootstrapWorkspace cwd templatePath)
    (bootstrapWorkspace cwd templatePath).

(** [path.basename] *)
Definition basename (p : path) : Js.str := default [] (last p).

(** [process.env.CODEMACHINE_CWD || process.cwd()] *)
Definition workspaceDir (proc : Process) : path :=
  match envTruthy proc "CODEMACHINE_CWD" with
  | Some dir => toPath dir
  | None => process_cwd proc
  end.

Definition agentsDirOf (proc : Process) : path :=
  path_join (path_join (workspaceDir proc) [".codemachine"%string])
    ["agents"%string].

(** [template.steps.forEach((step, index) => console.log(...))] *)
Fixpoint logSteps (index : Z) (l : list WorkflowStep) : M unit :=
  match l with
  | [] => ret tt
  | step :: rest =>
      console_log (Js.lit "  " ++ Js.ofZ (index + 1) ++ Js.lit ". " ++
                   agentName step ++ Js.lit " [" ++ agentId step ++
                   Js.lit "]") ;;
      logSteps (index + 1) rest
  end.

Definition handleTemplateSelectionSuccess (proc : Process)
    (template : WorkflowTemplate) (templateFilePath : path) : M unit :=
  let templateFileName := basename templateFilePath in
  let cwd := workspaceDir proc in
  let cmRoot := path_join cwd [".codemachine"%string] in
  let agentsDir := path_join cmRoot ["agents"%string] in
  console_log ([Js.LF] ++ Js.lit "Selected: " ++ template_name template) ;;
  console_log (Js.lit "Template path: " ++
               relative (process_cwd proc) templateFilePath) ;;
  console_log ([Js.LF] ++ Js.lit "Steps:") ;;
  logSteps 0 (steps template) ;;
  (* Check if the template changed and regenerate the agents folder *)
  changed <- callHasTemplateChanged cmRoot templateFileName ;;
  (if changed : bool then
     console_log ([Js.LF; 55357; 56580] ++
                  Js.lit " Template changed, regenerating agents...") ;;
     (* Delete the existing agents folder if it exists *)
     present <- existsSync agentsDir ;;
     (if present : bool then rmRecursive agentsDir else ret tt) ;;
     (* Update the active template tracking *)
     callSetActiveTemplate cmRoot templateFileName ;;
     (* Regenerate the agents folder with the new template *)
     callBootstrapWorkspace cwd templateFilePath ;;
     console_log ([9989] ++ Js.lit " Agents regenerated successfully")
   else
     console_log ([Js.LF; 10003] ++
                  Js.lit " Template unchanged, agents folder up to date") ;;
     (* Still update the tracking, in case this is the first time *)
     callSetActiveTemplate cmRoot templateFileName) ;;
  console_log ([Js.LF; 9989] ++
               Js.lit " Template saved to .codemachine/template.json").

End Selection.

End Templates.

(** ** Predicates of the statements *)

(** A line handed to [onData] is a formatted line and a line feed. *)
Definition decoded (line : Js.str) : Prop :=
  exists p body, p ∈ Runner.progressPrefixes /\ line = p ++ body ++ [Js.LF].

(** The number of line feeds a text starts with. *)
Fixpoint lead (s : Js.str) : nat :=
  match s with
  | c :: s' => if c =? Js.LF then S (lead s') else O
  | [] => O
  end.

(** No three line feeds in a row, that is, no two blank lines in a
    row. *)
Definition noBlankRun (s : Js.str) : Prop :=
  forall i, ¬ (s !! i = Some Js.LF /\ s !! S i = Some Js.LF /\
               s !! S (S i) = Some Js.LF).

(** The directories [mkdirFrom base rest] may create. *)
Definition onPath (base : path) (rest : list Js.str) (p : path) : Prop :=
  exists k, (0 < k <= length rest)%nat /\ p = base ++ take k rest.

(** No regular file stands where [dir] or one of its ancestors
    should be. *)
Definition creatable (fs : Fs.t) (dir : path) : Prop :=
  forall p content, p <> [] -> p `prefix_of` dir ->
    fs !! p <> Some (Fs.File content).

(** The error of spawning a binary that is not there: the code
    [ENOENT], or a shell saying [command not found]. *)
Definition missingBinary (error : jserror) : Prop :=
  err_code error = Some (Js.lit "ENOENT") \/
  Js.testI (Js.lit "command not found")
    (let stderr := default [] (err_stderr error) in
     if bool_decide (stderr = []) then default [] (err_message error)
     else stderr) = true.

(** The error of a spawn that did not find the command, as
    [runLocal] tests it: the code [ENOENT], or [command not found] in
    the message. *)
Definition spawnNotFound (error : jserror) : Prop :=
  err_code error = Some (Js.lit "ENOENT") \/
  Js.testI (Js.lit "command not found") (default [] (err_message error)) = true.

(** What [try { rm(p) } catch { }] does to the file system. *)
Definition removed (p : path) (fs : Fs.t) : Fs.t :=
  match fs !! p with
  | Some (Fs.File _) => if bool_decide (p = []) then fs else delete p fs
  | _ => fs
  end.

(** The file system once [dir] was deleted if it was there. *)
Definition cleared (dir : path) (fs : Fs.t) : Fs.t :=
  if Fs.exists_ fs dir then Fs.rmRecursive dir fs else fs.

(** ** Sample inputs *)

Module Samples.

(** A host with the home directory [/home/dev]. *)
Definition home : path := [Js.lit "home"; Js.lit "dev"].

Definition proc (vars : list (string * Js.str)) : Process :=
  {| process_env := list_to_map vars;
     homedir := home;
     process_cwd := home ++ [Js.lit "project"] |}.

Definition world (fs : Fs.t) : World := {| w_fs := fs; w_trace := [] |}.

(** Only the home directory exists. *)
Definition bare : Fs.t :=
  <[home := Fs.Dir]> (<[[Js.lit "home"] := Fs.Dir]> ∅).

(** [~/.codemachine] is a regular file. *)
Definition blocked : Fs.t :=
  <[home ++ [Js.lit ".codemachine"] := Fs.File (Js.lit "x")]> bare.

(** An environment string names one directory below the root. *)
Definition expandHomeDir (s : Js.str) : path := [s].

(** No command can be spawned. *)
Definition ENOENT : jserror :=
  mkError (Some (Js.lit "ENOENT")) None (Some (Js.lit "spawn lms ENOENT")).
Definition execa (c : ExecaCall) (fs : Fs.t)
    : completion jserror ExecaResult * Fs.t :=
  (Throw ENOENT, fs).

(** The JavaScript side of the samples: integers for numbers, a
    parser that knows one protocol line. *)
Definition numIsZero (x : Z) : bool := (x =? 0)%Z.

Definition messageLine : Js.str := Js.lit "{message}".

Definition messageEvent : Runner.json Z :=
  Runner.JObj Z
    [(Js.lit "status", Runner.JStr Z (Js.lit "completed"));
     (Js.lit "output",
      Runner.JArr Z
        [Runner.JObj Z
           [(Js.lit "type", Runner.JStr Z (Js.lit "message"));
            (Js.lit "content",
             Runner.JArr Z
               [Runner.JObj Z [(Js.lit "text", Runner.JStr Z (Js.lit "done"))]])]])].

Definition JSON_parse (s : Js.str) : option (Runner.json Z) :=
  if bool_decide (s = messageLine) then Some messageEvent else None.

Definition toStr (v : Runner.value Z) : option Js.str :=
  match v with
  | Some (Runner.JStr _ s) => Some s
  | Some (Runner.JNum _ x) => Some (Js.ofZ x)
  | _ => Some (Js.lit "undefined")
  end.

Definition jsAdd (a b : Runner.value Z) : option (Runner.value Z) :=
  match a, b with
  | Some (Runner.JNum _ x), Some (Runner.JNum _ y) =>
      Some (Some (Runner.JNum Z (x + y)%Z))
  | _, _ => None
  end.

Definition JSON_stringify (model : option Js.str) (prompt : Js.str)
    (stream : bool) (effort : option Runner.effort) : Js.str := prompt.

Definition options : Runner.RunLocalOptions :=
  {| Runner.prompt := Js.lit "write the tests";
     Runner.workingDir := Js.lit "/home/dev/project";
     Runner.model := None;
     Runner.modelReasoningEffort := None;
     Runner.env := None;
     Runner.onData := true;
     Runner.onErrorData := true;
     Runner.abortSignal := None;
     Runner.timeout := None |}.

(** A child that writes one protocol line and one line of noise, and
    exits with code 2 after twelve lines of standard error. *)
Definition twelveLines : Js.str :=
  Js.join [Js.LF] (map (fun n => Js.lit "line " ++ Js.ofZ (Z.of_nat n)) (seq 1 12)).

Definition failingChild (o : Runner.SpawnOptions)
    : list Runner.chunk * completion jserror Runner.SpawnResult :=
  ([Runner.Stdout messageLine; Runner.Stdout (Js.lit "noise");
    Runner.Stderr twelveLines],
   Normal {| Runner.exitCode := 2;
             Runner.spawn_stdout := Js.lit "{message}noise";
             Runner.spawn_stderr := twelveLines |}).

(** The command is not there. *)
Definition noChild (o : Runner.SpawnOptions)
    : list Runner.chunk * completion jserror Runner.SpawnResult :=
  ([], Throw ENOENT).

(** A change-tracking marker kept in [template.json], and a bootstrap
    that writes one agent prompt. *)
Definition hasTemplateChanged (cmRoot : path) (name : Js.str) (fs : Fs.t)
    : completion jserror bool :=
  Normal (negb (bool_decide
    (fs !! (cmRoot ++ [Js.lit "template.json"]) = Some (Fs.File name)))).

Definition setActiveTemplate (cmRoot : path) (name : Js.str) (fs : Fs.t)
    : completion jserror Fs.t :=
  Normal (<[cmRoot ++ [Js.lit "template.json"] := Fs.File name]> fs).

Definition bootstrapWorkspace (cwd templatePath : path) (fs : Fs.t)
    : completion jserror Fs.t :=
  Normal (<[cwd ++ [Js.lit ".codemachine"; Js.lit "agents"; Js.lit "planner.md"]
            := Fs.File (Js.lit "plan")]>
          (<[cwd ++ [Js.lit ".codemachine"; Js.lit "agents"] := Fs.Dir]> fs)).

Definition templatePath : path :=
  [Js.lit "opt"; Js.lit "templates"; Js.lit "default.workflow.js"].

Definition template : Templates.WorkflowTemplate :=
  {| Templates.template_name := Js.lit "Default";
     Templates.steps :=
       [{| Templates.step_type := Js.lit "module";
           Templates.agentId := Js.lit "planner";
           Templates.agentName := Js.lit "Planner";
           Templates.promptPath := Js.lit "prompts/planner.md";
           Templates.step_model := None;
           Templates.step_modelReasoningEffort := None;
           Templates.engine := None;
           Templates.executeOnce := None;
           Templates.notCompletedFallback := None |}] |}.

(** A workspace generated from another template, and one generated
    from [default.workflow.js]. *)
Definition workspace (active : string) : Fs.t :=
  let cm := home ++ [Js.lit "project"; Js.lit ".codemachine"] in
  <[cm ++ [Js.lit "agents"; Js.lit "old.md"] := Fs.File (Js.lit "old")]>
  (<[cm ++ [Js.lit "agents"] := Fs.Dir]>
  (<[cm ++ [Js.lit "template.json"] := Fs.File (Js.lit active)]>
  (<[cm := Fs.Dir]>
  (<[home ++ [Js.lit "project"] := Fs.Dir]> bare)))).

End Samples.


(** ** The local provider: [config.ts] *)

Module Config.

(** [LOCAL_MODELS] *)
Definition AUTO : Js.str := Js.lit "auto".
Definition QWEN_3_CODER : Js.str := Js.lit "qwen3-coder-30b-a3b-instruct".
Definition GLM_4_5_AIR : Js.str := Js.lit "unsloth/glm-4.5-air".
Definition OPENAI_GPT_OSS_120B : Js.str := Js.lit "openai/gpt-oss-120b".

(** [Object.values(LOCAL_MODELS)] *)
Definition localModelValues : list Js.str :=
  [AUTO; QWEN_3_CODER; GLM_4_5_AIR; OPENAI_GPT_OSS_120B].

(** [MODEL_MAPPING]: its own properties. *)
Definition MODEL_MAPPING : list (Js.str * Js.str) :=
  [(Js.lit "gpt-5-codex", QWEN_3_CODER);
   (Js.lit "gpt-4", QWEN_3_CODER);
   (Js.lit "gpt-4-turbo", QWEN_3_CODER);
   (Js.lit "gpt-3.5-turbo", QWEN_3_CODER);
   (Js.lit "o1-preview", QWEN_3_CODER);
   (Js.lit "o1-mini", QWEN_3_CODER);
   (Js.lit "sonnet", QWEN_3_CODER);
   (Js.lit "claude-sonnet-4.5", QWEN_3_CODER);
   (Js.lit "opus", QWEN_3_CODER)].

(** The properties every object literal inherits from
    [Object.prototype]; the [in] operator finds them too. *)
Definition objectPrototype : list Js.str :=
  map Js.lit
    ["constructor"; "__defineGetter__"; "__defineSetter__"; "hasOwnProperty";
     "__lookupGetter__"; "__lookupSetter__"; "isPrototypeOf";
     "propertyIsEnumerable"; "toString"; "valueOf"; "__proto__";
     "toLocaleString"]%string.

(** What [resolveModel] returns: a string, [undefined], or the value
    of an inherited property (a function or an object, not a
    string). *)
Inductive resolved : Type :=
| Model (name : Js.str)
| Undefined
| Inherited (key : Js.str).

Fixpoint ownProperty (k : Js.str) (o : list (Js.str * Js.str)) : option Js.str :=
  match o with
  | [] => None
  | (k', v) :: rest => if bool_decide (k = k') then Some v else ownProperty k rest
  end.

Definition resolveModel (model : option Js.str) : resolved :=
  match model with
  | None => Undefined
  | Some m =>
      if bool_decide (m = []) then Undefined
      else
        (* [model in MODEL_MAPPING], then [MODEL_MAPPING[model]] *)
        match ownProperty m MODEL_MAPPING with
        | Some v => Model v
        | None =>
            if bool_decide (m ∈ objectPrototype) then Inherited m
            else if bool_decide (m ∈ localModelValues) then Model m
            else Undefined
        end
  end.

End Config.

(** ** Template listing and selection: [templates.command.ts] *)

(** [readdirSync(dir)]: the names of the entries of a directory, in
    the order of the host; [ENOTDIR] for a regular file. *)
Definition readdirSync (dir : path) : M (list Js.str) :=
  fun w =>
    match w_fs w !! dir with
    | Some (Fs.File _) => (Throw (Fs.code "ENOTDIR"), w)
    | _ =>
        (Normal
           (omap (fun kv : path * Fs.node =>
                    if bool_decide (removelast kv.1 = dir)
                    then last kv.1 else None)
                 (map_to_list (w_fs w))),
         w)
    end.

(** [s.endsWith(p)] *)
Definition endsWith (p s : Js.str) : bool :=
  Js.startsWith (rev p) (rev s).

Module TemplatesCommand.

(** The module directory is searched upwards for [package.json]:
    [while (true) { if (existsSync(join(current, 'package.json')))
    return current; parent = dirname(current); if (parent === current)
    return moduleDir; current = parent }].  The loop runs at most once
    per component of [current] and once for the root. *)
Fixpoint climb (fuel : nat) (fs : Fs.t) (moduleDir current : path) : path :=
  match fuel with
  | O => moduleDir
  | S fuel' =>
      if Fs.exists_ fs (path_join current ["package.json"%string]) then current
      else
        let parent := path_dirname current in
        if bool_decide (parent = current) then moduleDir
        else climb fuel' fs moduleDir parent
  end.

Definition packageRoot (fs : Fs.t) (moduleDir : path) : path :=
  climb (S (length moduleDir)) fs moduleDir moduleDir.

(** [path.resolve(packageRoot, 'templates', 'workflows')] *)
Definition templatesDirOf (fs : Fs.t) (moduleDir : path) : path :=
  path_join (packageRoot fs moduleDir) ["templates"; "workflows"]%string.

Record TemplateChoice : Type := mkChoice {
  title : Js.str;
  value : path;
  description : Js.str;
}.

(** The argument of [selectTemplateByNumber]: a JavaScript number is
    an integer, lies strictly between two integers, or is [NaN] or
    infinite. *)
Inductive number : Type :=
| Integer (z : Z)
| Fraction (floor : Z)
| NaN
| PosInfinity
| NegInfinity.

(** [n < 1] and [n > length] *)
Definition belowOne (n : number) : bool :=
  match n with
  | Integer z => (z <? 1)%Z
  | Fraction f => (f <? 1)%Z
  | NegInfinity => true
  | NaN | PosInfinity => false
  end.

Definition above (n : number) (len : nat) : bool :=
  match n with
  | Integer z => (Z.of_nat len <? z)%Z
  | Fraction f => (Z.of_nat len <=? f)%Z
  | PosInfinity => true
  | NaN | NegInfinity => false
  end.

Section Command.

(** What a dynamic import gives, [loadWorkflowModule] and the type
    guard [isWorkflowTemplate] of the template loader; the loader
    reads the file system. *)
Variable unknown : Type.
Variable loadWorkflowModule : path -> Fs.t -> completion jserror unknown.
Variable isWorkflowTemplate : unknown -> option Templates.WorkflowTemplate.
(** [a.localeCompare(b) <= 0] *)
Variable localeLe : Js.str -> Js.str -> bool.
(** The rendering of a caught value by the console, and
    [error instanceof Error ? error.message : String(error)]. *)
Variable inspect : jserror -> Js.str.
Variable errorText : jserror -> Js.str.
Variable toPath : Js.str -> path.
Variable relative : path -> path -> Js.str.
Variable hasTemplateChanged : path -> Js.str -> Fs.t -> completion jserror bool.
Variable setActiveTemplate : path -> Js.str -> Fs.t -> completion jserror Fs.t.
Variable bootstrapWorkspace : path -> path -> Fs.t -> completion jserror Fs.t.

Definition load (filePath : path) : M unknown :=
  fun w => (loadWorkflowModule filePath (w_fs w), w).

(** [printAvailableWorkflowTemplatesHeading] *)
Definition printAvailableWorkflowTemplatesHeading : M unit :=
  console_log ([Js.LF] ++ Js.lit "Available workflow templates:" ++ [Js.LF]).

(** The choice built from a loaded template. *)
Definition choiceOf (templatesDir : path) (file : Js.str)
    (template : Templates.WorkflowTemplate) : TemplateChoice :=
  {| title := Templates.template_name template;
     value := templatesDir ++ [file];
     description :=
       Js.ofZ (Z.of_nat (length (Templates.steps template))) ++
       Js.lit " step(s) - " ++ file |}.

(** The body of the [for] loop: a file that does not load is skipped
    with a warning ([console.warn] writes like [console.error]). *)
Fixpoint collect (templatesDir : path) (files : list Js.str)
    (templates : list TemplateChoice) : M (list TemplateChoice) :=
  match files with
  | [] => ret templates
  | file :: rest =>
      templates' <-
        tryCatch
          (template <- load (templatesDir ++ [file]) ;;
           ret (match isWorkflowTemplate template with
                | Some t => templates ++ [choiceOf templatesDir file t]
                | None => templates
                end))
          (fun error =>
             console_error (Js.lit "Warning: Could not load template " ++ file ++
                            Js.lit ": " ++ inspect error) ;;
             ret templates) ;;
      collect templatesDir rest templates'
  end.

(** [templates.sort((a, b) => a.title.localeCompare(b.title))]: the
    sort is stable. *)
Fixpoint insertByTitle (c : TemplateChoice) (l : list TemplateChoice)
    : list TemplateChoice :=
  match l with
  | [] => [c]
  | d :: l' =>
      if localeLe (title c) (title d) then c :: l
      else d :: insertByTitle c l'
  end.

Definition sortByTitle (l : list TemplateChoice) : list TemplateChoice :=
  foldr insertByTitle [] l.

Definition getAvailableTemplates (templatesDir : path)
    : M (list TemplateChoice) :=
  present <- existsSync templatesDir ;;
  if negb present then ret []
  else
    names <- readdirSync templatesDir ;;
    let files := filter (fun file => endsWith (Js.lit ".workflow.js") file = true)
                   names in
    templates <- collect templatesDir files [] ;;
    ret (sortByTitle templates).

(** [templates[templateNumber - 1]] *)
Definition pick (templates : list TemplateChoice) (n : number)
    : option TemplateChoice :=
  match n with
  | Integer z => if (1 <=? z)%Z then templates !! Z.to_nat (z - 1) else None
  | _ => None
  end.

Definition typeError : jserror :=
  mkError None None
    (Some (Js.lit "Cannot read properties of undefined (reading 'value')")).

Definition selectTemplateByNumber (proc : Process) (templatesDir : path)
    (templateNumber : number) : M unit :=
  tryCatch
    (templates <- getAvailableTemplates templatesDir ;;
     if bool_decide (length templates = 0%nat) then
       console_log (Js.lit "No workflow templates found in templates/workflows/")
     else if belowOne templateNumber || above templateNumber (length templates) then
       console_log (Js.lit "Invalid selection. Please choose a number between 1 and " ++
                    Js.ofZ (Z.of_nat (length templates)) ++ Js.lit ".")
     else
       match pick templates templateNumber with
       | None => throw typeError
       | Some selectedTemplate =>
           template <- load (value selectedTemplate) ;;
           match isWorkflowTemplate template with
           | Some t =>
               Templates.handleTemplateSelectionSuccess toPath relative
                 hasTemplateChanged setActiveTemplate bootstrapWorkspace
                 proc t (value selectedTemplate)
           | None => ret tt
           end
       end)
    (fun error =>
       console_error (Js.lit "Error selecting template: " ++ errorText error)).

End Command.

End TemplatesCommand.

(** ** Start-up: the [preAction] hook of [runtime/cli-setup.ts] *)

Module CliSetup.

Section Hook.

Variable toPath : Js.str -> path.
Variable pathToString : path -> Js.str.
Variable bootstrapWorkspace : path -> path -> Fs.t -> completion jserror Fs.t.

(** [engine.syncConfig], when the engine has one. *)
Definition Engine : Type := option (Fs.t -> completion jserror Fs.t).

Definition syncConfig (f : Fs.t -> completion jserror Fs.t) : M unit :=
  fun w =>
    match f (w_fs w) with
    | Normal fs' => (Normal tt, {| w_fs := fs'; w_trace := w_trace w |})
    | Throw e => (Throw e, w)
    end.

Fixpoint syncAll (engines : list Engine) : M unit :=
  match engines with
  | [] => ret tt
  | Some f :: rest => syncConfig f ;; syncAll rest
  | None :: rest => syncAll rest
  end.

(** [dir || process.cwd()] *)
Definition targetDir (proc : Process) (dir : option Js.str) : Js.str :=
  match dir with
  | Some d => if bool_decide (d = []) then pathToString (process_cwd proc) else d
  | None => pathToString (process_cwd proc)
  end.

(** [process.env.CODEMACHINE_CWD = cwd] *)
Definition setCwd (proc : Process) (cwd : Js.str) : Process :=
  {| process_env := <["CODEMACHINE_CWD"%string := cwd]> (process_env proc);
     homedir := homedir proc;
     process_cwd := process_cwd proc |}.

(** The hook assigns the variable first, so the process has it
    whether or not the rest of the hook throws. *)
Definition processAfter (proc : Process) (dir : option Js.str) : Process :=
  setCwd proc (targetDir proc dir).

(** The effects of the hook after the assignment. *)
Definition preAction (templatesDir : path) (engines : list Engine)
    (proc : Process) (dir : option Js.str) : M unit :=
  let cwd := targetDir proc dir in
  (* Sync configurations for all engines that need it *)
  syncAll engines ;;
  (* Only bootstrap if the .codemachine folder doesn't exist *)
  let cmRoot := path_join (toPath cwd) [".codemachine"%string] in
  present <- existsSync cmRoot ;;
  if negb present then
    let defaultTemplate := path_join templatesDir ["codemachine.workflow.js"%string] in
    liftFs (OpBootstrapWorkspace (toPath cwd) defaultTemplate)
      (bootstrapWorkspace (toPath cwd) defaultTemplate)
  else ret tt.

End Hook.

End CliSetup.

(** ** Further sample hosts *)

Module Scenarios.

(** A child that writes the protocol line and exits with code 0, and
    a spawn refused by the host. *)
Definition okChild (o : Runner.SpawnOptions)
    : list Runner.chunk * completion jserror Runner.SpawnResult :=
  ([Runner.Stdout Samples.messageLine],
   Normal {| Runner.exitCode := 0;
             Runner.spawn_stdout := Samples.messageLine;
             Runner.spawn_stderr := [] |}).

Definition EACCES : jserror :=
  mkError (Some (Js.lit "EACCES")) None (Some (Js.lit "spawn curl EACCES")).

Definition deniedChild (o : Runner.SpawnOptions)
    : list Runner.chunk * completion jserror Runner.SpawnResult :=
  ([], Throw EACCES).

(** A parser that knows [null] and a completed event with the token
    usage and no output. *)
Definition usageLine : Js.str := Js.lit "{usage}".

Definition usageEvent : Runner.json Z :=
  Runner.JObj Z
    [(Js.lit "status", Runner.JStr Z (Js.lit "completed"));
     (Js.lit "usage",
      Runner.JObj Z
        [(Js.lit "input_tokens", Runner.JNum Z 12%Z);
         (Js.lit "output_tokens", Runner.JNum Z 7%Z)])].

Definition JSON_parse (s : Js.str) : option (Runner.json Z) :=
  if bool_decide (s = Js.lit "null") then Some (Runner.JNull Z)
  else if bool_decide (s = usageLine) then Some usageEvent
  else None.

(** Every command succeeds with exit code 0 and writes nothing. *)
Definition execaOk (c : ExecaCall) (fs : Fs.t)
    : completion jserror ExecaResult * Fs.t :=
  (Normal {| exe_exitCode := Some 0%Z; exe_stdout := Some []; exe_stderr := Some [] |},
   fs).

(** The templates directory of an installed package: two workflow
    files, one that does not load and a file of another kind. *)
Definition templatesDir : path :=
  [Js.lit "opt"; Js.lit "templates"; Js.lit "workflows"].

Definition templatesFs : Fs.t :=
  <[templatesDir ++ [Js.lit "review.workflow.js"] := Fs.File (Js.lit "Review")]>
  (<[templatesDir ++ [Js.lit "build.workflow.js"] := Fs.File (Js.lit "Build")]>
  (<[templatesDir ++ [Js.lit "broken.workflow.js"] := Fs.File []]>
  (<[templatesDir ++ [Js.lit "README.md"] := Fs.File (Js.lit "notes")]>
  (<[templatesDir := Fs.Dir]> ∅)))).

(** A module exports the content of its file as the name of a
    template without steps; an empty file does not load. *)
Definition loadWorkflowModule (p : path) (fs : Fs.t)
    : completion jserror Js.str :=
  match fs !! p with
  | Some (Fs.File content) =>
      if bool_decide (content = [])
      then Throw (newError (Js.lit "Unexpected end of input"))
      else Normal content
  | _ => Throw (Fs.code "ERR_MODULE_NOT_FOUND")
  end.

Definition isWorkflowTemplate (u : Js.str) : option Templates.WorkflowTemplate :=
  Some {| Templates.template_name := u; Templates.steps := [] |}.

(** The order of the code units. *)
Fixpoint codeUnitLe (a b : Js.str) : bool :=
  match a, b with
  | [], _ => true
  | _ :: _, [] => false
  | x :: a', y :: b' => (x <? y) || ((x =? y) && codeUnitLe a' b')
  end.

Definition choice (file title : string) : TemplatesCommand.TemplateChoice :=
  {| TemplatesCommand.title := Js.lit title;
     TemplatesCommand.value := templatesDir ++ [Js.lit file];
     TemplatesCommand.description := Js.lit "0 step(s) - " ++ Js.lit file |}.



End Scenarios.

(** ** Checks for concrete texts *)

(** The check of [noBlankRun]. *)
Fixpoint noBlankRunb (s : Js.str) : bool :=
  match s with
  | [] => true
  | _ :: s' => negb (3 <=? lead s)%nat && noBlankRunb s'
  end.

(** ** Projections of the effects *)

(** The calls of a run, by callback. *)
Definition onDataCalls (evs : list Runner.event) : list Js.str :=
  omap (fun e => match e with Runner.OnData line => Some line | _ => None end) evs.
Definition onErrorDataCalls (evs : list Runner.event) : list Js.str :=
  omap (fun e => match e with Runner.OnErrorData text => Some text | _ => None end) evs.
Definition telemetryCalls (evs : list Runner.event) : list Js.str :=
  omap (fun e => match e with Runner.Telemetry data => Some data | _ => None end) evs.
Definition spawns (evs : list Runner.event) : list Runner.SpawnOptions :=
  omap (fun e => match e with Runner.Spawned o => Some o | _ => None end) evs.

(** The chunks of a child, by stream. *)
Definition stdoutChunks (cs : list Runner.chunk) : list Js.str :=
  omap (fun c => match c with Runner.Stdout text => Some text | _ => None end) cs.
Definition stderrChunks (cs : list Runner.chunk) : list Js.str :=
  omap (fun c => match c with Runner.Stderr text => Some text | _ => None end) cs.

(** The commands run and the files written, in a trace. *)
Definition commandsRun (tr : list op) : list ExecaCall :=
  omap (fun o => match o with OpExeca c => Some c | _ => None end) tr.
Definition filesWritten (tr : list op) : list path :=
  omap (fun o => match o with OpWriteFile p _ => Some p | _ => None end) tr.

(** ** Effects a computation keeps *)

(** What holds of the settlement of [m] and of the world it leaves. *)
Definition post {A} (m : M A) (w : World)
    (Q : completion jserror A -> World -> Prop) : Prop :=
  Q (m w).1 (m w).2.

(** [m] relates every world to the one it leaves, whatever its
    settlement. *)
Definition keeps {A} (R : World -> World -> Prop) (m : M A) : Prop :=
  forall w, R w (m w).2.

(** No command was run, no file was written, between two worlds. *)
Definition sameCommands (w w' : World) : Prop :=
  commandsRun (w_trace w') = commandsRun (w_trace w).
Definition sameWrites (w w' : World) : Prop :=
  filesWritten (w_trace w') = filesWritten (w_trace w).

(** A file of the templates directory gives the choice [c]: it loads
    and what it exports is a workflow template. *)
Definition offers {unknown : Type}
    (loadWorkflowModule : path -> Fs.t -> completion jserror unknown)
    (isWorkflowTemplate : unknown -> option Templates.WorkflowTemplate)
    (dir : path) (fs : Fs.t) (file : Js.str)
    (c : TemplatesCommand.TemplateChoice) : Prop :=
  exists u t,
    loadWorkflowModule (dir ++ [file]) fs = Normal u /\
    isWorkflowTemplate u = Some t /\
    c = TemplatesCommand.choiceOf dir file t.

(** The titles of two choices are in order. *)
Definition titleLe (localeLe : Js.str -> Js.str -> bool)
    (c d : TemplatesCommand.TemplateChoice) : Prop :=
  localeLe (TemplatesCommand.title c) (TemplatesCommand.title d) = true.




(** A line of a chunk: text written once, or text overwritten once,
    after a carriage return, by a second text. *)
Inductive chunkLine : Type :=
| Written (v : Js.str)
| Overwritten (t v : Js.str).

(** The code units of the line in the chunk, and what a terminal
    shows of it. *)
Definition raw (l : chunkLine) : Js.str :=
  match l with
  | Written v => v
  | Overwritten t v => t ++ [Js.CR] ++ v
  end.

Definition shown (l : chunkLine) : Js.str :=
  match l with
  | Written v => v
  | Overwritten _ v => v
  end.

(** The texts of a line hold no carriage return and no line feed,
    the overwritten text no line terminator at all. *)
Definition oneLine (l : chunkLine) : Prop :=
  match l with
  | Written v => Forall (fun c => c <> Js.CR /\ c <> Js.LF) v
  | Overwritten t v =>
      Forall (fun c => Js.isLineTerminator c = false) t /\
      Forall (fun c => c <> Js.CR /\ c <> Js.LF) v
  end.

(** * Properties *)

(** An operation is the last of a trace, or in what precedes. *)
Ltac in_trace :=
  repeat (apply elem_of_app;
          first [ right; apply list_elem_of_singleton; reflexivity | left ]).

(** The same for operations appended from the left. *)
Ltac in_ops :=
  repeat first
    [ apply list_elem_of_singleton; reflexivity
    | apply elem_of_app;
      first [ left; apply list_elem_of_singleton; reflexivity | right ] ].

(** An operation of another kind is not in a trace. *)
Ltac not_in_ops Hin :=
  repeat first
    [ apply elem_of_app in Hin as [Hin|Hin]
    | apply elem_of_cons in Hin as [Hin|Hin]; [discriminate|]
    | apply list_elem_of_fmap in Hin as (? & ? & _); discriminate
    | apply elem_of_nil in Hin; contradiction ].


(** ** Output normalisation *)

Section NormalizeFacts.

Import Regex Runner.

(** The result of a replacement is made of code units of the input
    and of the replacements. *)
Lemma replaceFrom_Forall (P : N -> Prop) r repl :
  (forall g, Forall P (repl g)) ->
  forall s prev skip, Forall P s -> Forall P (replaceFrom r repl prev s skip).
Proof.
  intros Hrepl. induction s as [|c s IH]; intros prev skip Hs; simpl.
  - destruct skip; [|constructor].
    destruct (exec r prev []) as [[n g]|]; [apply Hrepl|constructor].
  - apply Forall_cons in Hs as [Hc Hs]. destruct skip as [|k]; [|now apply IH].
    destruct (exec r prev (c :: s)) as [[[|k] g]|].
    + apply Forall_app. split; [apply Hrepl|]. constructor; [assumption|now apply IH].
    + apply Forall_app. split; [apply Hrepl|now apply IH].
    + constructor; [assumption|now apply IH].
Qed.

(** After [/\r/g] no carriage return is left. *)
Lemma lone_cr_replaced s : forall prev skip,
  Forall (fun c => c <> Js.CR) (replaceFrom LONE_CR (fun _ => [Js.LF]) prev s skip).
Proof.
  induction s as [|c s IH]; intros prev skip; simpl.
  - destruct skip; constructor.
  - destruct skip as [|k]; [|apply IH].
    unfold exec, LONE_CR, run, chr.
    destruct (N.eqb_spec Js.CR c) as [<-|Hne]; simpl.
    + constructor; [discriminate|apply IH].
    + constructor; [congruence|apply IH].
Qed.

(** A greedy repetition before the end of the pattern takes the
    whole run. *)
Lemma star_whole_run (cp : caps) (k : option N -> Js.str -> nat -> option (nat * caps)) s :
  (forall prev s n, k prev s n = Some (n, cp)) ->
  forall prev n,
    star (chr Js.LF) k prev s n = Some ((n + lead s)%nat, cp).
Proof.
  intros Hk. induction s as [|c s IH]; intros prev n; cbn [star lead].
  - rewrite Hk. f_equal. f_equal. lia.
  - change (chr Js.LF c) with (Js.LF =? c). rewrite (N.eqb_sym Js.LF c).
    destruct (c =? Js.LF).
    + rewrite IH. f_equal. f_equal. lia.
    + rewrite Hk. f_equal. f_equal. lia.
Qed.

(** [/\n{3,}/] matches a run of at least three line feeds, all of
    it. *)
Lemma exec_LF3 prev s :
  exec LF3 prev s = if decide (3 <= lead s)%nat then Some (lead s, []) else None.
Proof.
  unfold exec, LF3. cbn [run].
  destruct s as [|c1 s]; [reflexivity|].
  change (chr Js.LF c1) with (Js.LF =? c1). rewrite (N.eqb_sym Js.LF c1).
  cbn [lead]. destruct (c1 =? Js.LF); [|reflexivity].
  destruct s as [|c2 s]; [reflexivity|].
  change (chr Js.LF c2) with (Js.LF =? c2). rewrite (N.eqb_sym Js.LF c2).
  cbn [lead]. destruct (c2 =? Js.LF); [|reflexivity].
  destruct s as [|c3 s]; [reflexivity|].
  change (chr Js.LF c3) with (Js.LF =? c3). rewrite (N.eqb_sym Js.LF c3).
  cbn [lead]. destruct (c3 =? Js.LF); [|reflexivity].
  rewrite (star_whole_run (None, None)) by reflexivity.
  rewrite decide_True by lia. reflexivity.
Qed.

Lemma lead_drop s : lead (drop (lead s) s) = 0%nat.
Proof.
  induction s as [|c s IH]; [reflexivity|]. simpl.
  destruct (c =? Js.LF) eqn:E; simpl; [assumption|now rewrite E].
Qed.

Lemma noBlankRun_nil : noBlankRun [].
Proof. intros i (H & _). discriminate. Qed.

Lemma noBlankRun_cons c s :
  noBlankRun s -> (c = Js.LF -> lead s < 2)%nat -> noBlankRun (c :: s).
Proof.
  intros Hs Hc [|i] (H1 & H2 & H3).
  - simpl in *. injection H1 as ->.
    destruct s as [|a [|b s]]; try discriminate. simpl in *.
    injection H2 as ->. injection H3 as ->. specialize (Hc eq_refl).
    simpl in Hc. lia.
  - apply (Hs i). auto.
Qed.

(** What [/\n{3,}/g] leaves: no run of three line feeds, and at the
    start no more line feeds than the rest of the input had, two at
    most. *)
Lemma lf3_collapsed s : forall prev skip,
  let out := replaceFrom LF3 (fun _ => [Js.LF; Js.LF]) prev s skip in
  noBlankRun out /\ (lead out <= 2)%nat /\ (lead out <= lead (drop skip s))%nat.
Proof.
  induction s as [|c s IH]; intros prev skip; cbn zeta.
  - simpl. destruct skip; simpl; repeat split; try apply noBlankRun_nil; lia.
  - destruct skip as [|k]; [|exact (IH (Some c) k)].
    cbn [replaceFrom]. rewrite exec_LF3.
    destruct (decide (3 <= lead (c :: s))%nat) as [Hrun|Hrun].
    + cbn [lead] in Hrun |- *. destruct (c =? Js.LF) eqn:Ec; [|lia].
      cbn [Nat.pred]. destruct (IH (Some c) (lead s)) as (Hok & _ & Hlead).
      rewrite lead_drop in Hlead. cbn [skipn] in *.
      set (out := replaceFrom _ _ _ s (lead s)) in *.
      assert (Hout : lead out = 0%nat) by lia.
      repeat split.
      * simpl. apply noBlankRun_cons.
        -- apply noBlankRun_cons; [assumption|]. intros _. lia.
        -- intros _. simpl. rewrite Hout. lia.
      * simpl. rewrite Hout. lia.
      * simpl. rewrite Hout. rewrite Ec. lia.
    + destruct (IH (Some c) 0%nat) as (Hok & H2 & Hlead).
      rewrite drop_0 in Hlead. cbn [skipn] in *.
      set (out := replaceFrom _ _ _ s 0) in *.
      cbn [lead] in Hrun |- *. destruct (c =? Js.LF) eqn:Ec.
      * assert (lead s < 2)%nat by lia. repeat split; try lia.
        apply noBlankRun_cons; [assumption|]. intros _. lia.
      * repeat split; try lia.
        apply noBlankRun_cons; [assumption|]. intros ->. discriminate.
Qed.

(** Whatever the input, the normalised text has no carriage return
    and no run of three line feeds. *)
Lemma normalize_line_endings plainLogs text :
  (Js.CR ∉ normalize plainLogs text) /\ noBlankRun (normalize plainLogs text).
Proof.
  unfold normalize. split.
  - intros Hin.
    assert (H : Forall (fun c => c <> Js.CR)
                  (replaceAll LF3 (fun _ => [Js.LF; Js.LF])
                     (replaceAll LONE_CR (fun _ => [Js.LF])
                        (replaceAll CRLF (fun _ => [Js.LF])
                           (if plainLogs
                            then replaceAll ANSI_ESCAPE_SEQUENCE (fun _ => [])
                                   (replaceAll CR_OVERWRITE (fun g => g) text)
                            else replaceAll CR_OVERWRITE (fun g => g) text))))).
    { apply replaceFrom_Forall.
      - intros _. repeat constructor; discriminate.
      - apply lone_cr_replaced. }
    rewrite Forall_forall in H. now apply (H _ Hin).
  - apply (lf3_collapsed _ None 0%nat).
Qed.

End NormalizeFacts.

(** ** Trimming and splitting *)

Section StringFacts.









End StringFacts.


(** ** The runner *)

Section RunnerFacts.

Import Regex Runner.

Variable number : Type.
Variable numIsZero : number -> bool.
Variable numZero : number.
Variable JSON_parse : Js.str -> option (json number).
Variable toStr : value number -> option Js.str.
Variable jsAdd : value number -> value number -> option (value number).

(** A formatted line starts with one of the six prefixes. *)
Lemma format_prefix (line s : Js.str) :
  formatLocalStreamJsonLine number numIsZero numZero JSON_parse toStr jsAdd line
    = Some s ->
  exists p body, p ∈ progressPrefixes /\ s = p ++ body.
Proof.
  intros H.
  assert (H1 : THINKING ∈ progressPrefixes) by (unfold progressPrefixes; repeat constructor).
  assert (H2 : COMMAND ∈ progressPrefixes) by (unfold progressPrefixes; repeat constructor).
  assert (H3 : COMMAND_RESULT ∈ progressPrefixes) by (unfold progressPrefixes; repeat constructor).
  assert (H4 : COMMAND_FAILED ∈ progressPrefixes) by (unfold progressPrefixes; repeat constructor).
  assert (H5 : MESSAGE ∈ progressPrefixes) by (unfold progressPrefixes; repeat constructor).
  assert (H6 : TOKENS ∈ progressPrefixes) by (unfold progressPrefixes; repeat constructor).
  revert H H1 H2 H3 H4 H5 H6.
  unfold formatLocalStreamJsonLine, formatLocalStreamJsonLine_try.
  generalize THINKING COMMAND COMMAND_RESULT COMMAND_FAILED MESSAGE TOKENS.
  generalize progressPrefixes.
  intros.
  repeat (simplify_option_eq || case_match);
    do 2 eexists; (split; [ | reflexivity ]); assumption.
Qed.

Variable expandHomeDir : Js.str -> path.
Variable JSON_stringify :
  option Js.str -> Js.str -> bool -> option effort -> Js.str.
Variable spawnProcess :
  SpawnOptions -> list chunk * completion jserror SpawnResult.

#[local] Abbreviation format :=
  (formatLocalStreamJsonLine number numIsZero numZero JSON_parse toStr jsAdd).
#[local] Abbreviation onStdout' :=
  (onStdout number numIsZero numZero JSON_parse toStr jsAdd).
#[local] Abbreviation onChunks' :=
  (onChunks number numIsZero numZero JSON_parse toStr jsAdd).
#[local] Abbreviation runLocal' :=
  (runLocal number numIsZero numZero JSON_parse toStr jsAdd expandHomeDir
     JSON_stringify spawnProcess).

Lemma unparsable_not_formatted (line : Js.str) :
  JSON_parse line = None -> format line = None.
Proof.
  intros H. unfold formatLocalStreamJsonLine, formatLocalStreamJsonLine_try.
  now rewrite H.
Qed.

Lemma onStdout_events plainLogs options text :
  exists evs,
    onStdout' plainLogs options text = Normal evs /\
    (forall line, OnData line ∈ evs -> decoded line) /\
    (format (streamData plainLogs text) = None ->
     evs = [Telemetry (streamData plainLogs text)]).
Proof.
  unfold onStdout.
  destruct (format (streamData plainLogs text)) as [s|] eqn:E.
  - destruct (format_prefix _ _ E) as (p & body & Hp & ->).
    destruct (negb _ && _); eexists; (split; [reflexivity|]); split;
      try discriminate; intros line Hin;
      repeat (apply elem_of_cons in Hin as [Hin|Hin]; try discriminate);
      try (apply elem_of_nil in Hin; contradiction).
    injection Hin as ->. exists p, body. split; [assumption|].
    now rewrite <- app_assoc.
  - eexists; split; [reflexivity|]. split; [|reflexivity].
    intros line Hin.
    repeat (apply elem_of_cons in Hin as [Hin|Hin]; try discriminate).
    apply elem_of_nil in Hin; contradiction.
Qed.

Lemma onChunks_events plainLogs options cs :
  exists evs,
    onChunks' plainLogs options cs = Normal evs /\
    forall line, OnData line ∈ evs -> decoded line.
Proof.
  induction cs as [|c cs (evs' & E' & H')]; simpl.
  - eexists; split; [reflexivity|]. intros line Hin.
    apply elem_of_nil in Hin; contradiction.
  - destruct c as [text|text]; simpl.
    + destruct (onStdout_events plainLogs options text) as (evs & E & H & _).
      rewrite E, E'. eexists; split; [reflexivity|].
      intros line Hin. apply elem_of_app in Hin as [Hin|Hin]; auto.
    + unfold onStderr. rewrite E'.
      destruct (onErrorData options); eexists; (split; [reflexivity|]);
        intros line Hin; simpl in Hin; auto.
      apply elem_of_cons in Hin as [Hin|Hin]; [discriminate|auto].
Qed.

Lemma onData_in_run o evs tail line :
  (forall l, OnData l ∈ evs -> decoded l) ->
  (forall l, OnData l ∉ tail) ->
  OnData line ∈ Spawned o :: evs ++ tail -> decoded line.
Proof.
  intros Hev Htail Hin.
  apply elem_of_cons in Hin as [Hin|Hin]; [discriminate|].
  apply elem_of_app in Hin as [Hin|Hin]; [auto|].
  now apply Htail in Hin.
Qed.

(** C2: a chunk of standard output that does not decode gives no
    call of [onData] and no exception; [onData] only receives decoded
    progress lines, in the handler and in the whole run. *)
Theorem onData_receives_only_decoded_lines plainLogs proc options text :
  (exists evs,
     onStdout' plainLogs options text = Normal evs /\
     (forall line, OnData line ∈ evs -> decoded line) /\
     (JSON_parse (streamData plainLogs text) = None ->
      forall line, OnData line ∉ evs) /\
     (format (streamData plainLogs text) = None ->
      forall line, OnData line ∉ evs)) /\
  (forall cs, exists evs, onChunks' plainLogs options cs = Normal evs) /\
  (forall line, OnData line ∈ (runLocal' proc options).1 -> decoded line).
Proof.
  split; [|split].
  - destruct (onStdout_events plainLogs options text) as (evs & E & H & Hnone).
    exists evs. split; [assumption|]. split; [assumption|].
    assert (Hdrop : format (streamData plainLogs text) = None ->
                    forall line, OnData line ∉ evs).
    { intros Hf line Hin. rewrite (Hnone Hf) in Hin.
      apply elem_of_cons in Hin as [Hin|Hin]; [discriminate|].
      apply elem_of_nil in Hin; contradiction. }
    split; [|assumption].
    intros Hp. apply Hdrop. now apply unparsable_not_formatted.
  - intros cs. destruct (onChunks_events plainLogs options cs) as (evs & E & _).
    eauto.
  - intros line. unfold runLocal.
    destruct (bool_decide (prompt options = []));
      [intros Hin; apply elem_of_nil in Hin; contradiction|].
    destruct (bool_decide (workingDir options = []));
      [intros Hin; apply elem_of_nil in Hin; contradiction|].
    set (pl := bool_decide _). set (o := spawnOptions _ _ _ _).
    destruct (spawnProcess o) as [chunks outcome].
    destruct (onChunks_events pl options chunks) as (evs & E & Hev).
    rewrite E.
    destruct outcome as [result|error];
      [destruct (negb _)|destruct (notFound error)]; cbn [fst];
      try (apply (onData_in_run _ evs [_]); [assumption|];
           intros l Hl; apply elem_of_cons in Hl as [Hl|Hl]; [discriminate|];
           apply elem_of_nil in Hl; contradiction).
    intros Hin. apply (onData_in_run o evs []); [assumption| |].
    + intros l Hl. apply elem_of_nil in Hl; contradiction.
    + now rewrite app_nil_r.
Qed.

(** All branches of a run that reaches the spawn start with it. *)
Lemma runLocal_spawns proc options :
  prompt options <> [] -> workingDir options <> [] ->
  exists evs r,
    runLocal' proc options = (Spawned (spawnOptions expandHomeDir JSON_stringify proc options) :: evs, r).
Proof.
  intros Hp Hw. unfold runLocal.
  rewrite !bool_decide_eq_false_2 by assumption.
  set (pl := bool_decide _). set (o := spawnOptions _ _ _ _).
  destruct (spawnProcess o) as [chunks outcome].
  destruct (onChunks_events pl options chunks) as (evs & E & H).
  rewrite E.
  destruct outcome as [result|error];
    [destruct (negb _)|destruct (notFound error)]; eauto.
Qed.

(** C9: without a [timeout] option the spawn gets 1800000 ms, the
    exported [DEFAULT_TIMEOUT]. *)
Theorem runLocal_default_timeout proc options :
  timeout options = None ->
  prompt options <> [] -> workingDir options <> [] ->
  exists o evs r,
    runLocal' proc options = (Spawned o :: evs, r) /\
    spawn_timeout o = 1800000%Z /\
    spawn_timeout o = DEFAULT_TIMEOUT.
Proof.
  intros Ht Hp Hw.
  destruct (runLocal_spawns proc options Hp Hw) as (evs & r & E).
  eexists _, evs, r. split; [exact E|].
  unfold spawnOptions; simpl. rewrite Ht. split; reflexivity.
Qed.



(** A spawn error of a missing binary makes [runLocal] fail with a
    message that ends with the install command of the metadata. *)
Lemma runLocal_cli_missing proc options chunks error :
  prompt options <> [] -> workingDir options <> [] ->
  spawnProcess (spawnOptions expandHomeDir JSON_stringify proc options)
    = (chunks, Throw error) ->
  spawnNotFound error ->
  exists evs pre,
    runLocal' proc options =
      (evs, Throw (newError (pre ++ md_installCommand metadata))).
Proof.
  intros Hp Hw Hs Hm. unfold runLocal.
  rewrite !bool_decide_eq_false_2 by assumption.
  set (pl := bool_decide _). rewrite Hs.
  destruct (onChunks_events pl options chunks) as (evs & E & _).
  rewrite E.
  assert (Hnf : notFound error = true).
  { unfold notFound. destruct Hm as [Hm|Hm].
    - now rewrite bool_decide_eq_true_2.
    - rewrite Hm. now rewrite orb_true_r. }
  rewrite Hnf. eexists _, _. f_equal. f_equal. f_equal.
  rewrite !app_assoc. reflexivity.
Qed.

End RunnerFacts.

(** ** The file system *)

Section FsFacts.

Implicit Types (fs : Fs.t) (p base : path) (rest : list Js.str).

Lemma onPath_cons base c rest p :
  onPath base (c :: rest) p <-> p = base ++ [c] \/ onPath (base ++ [c]) rest p.
Proof.
  split.
  - intros (k & Hk & ->). destruct k as [|k]; [lia|]. simpl in *.
    destruct k as [|k].
    + left. now rewrite take_0.
    + right. exists (S k). split; [lia|]. now rewrite <- app_assoc.
  - intros [->|(k & Hk & ->)].
    + exists 1%nat. simpl. split; [lia|]. now rewrite take_0.
    + exists (S k). simpl. split; [lia|]. now rewrite <- app_assoc.
Qed.

Lemma onPath_longer base rest p :
  onPath base rest p -> (length base < length p)%nat.
Proof.
  intros (k & Hk & ->). rewrite length_app, length_take. lia.
Qed.

Lemma onPath_root rest p :
  onPath [] rest p <-> p <> [] /\ p `prefix_of` rest.
Proof.
  split.
  - intros (k & Hk & ->). simpl. split.
    + destruct rest; simpl in *; [lia|]. destruct k; [lia|]. discriminate.
    + apply prefix_take.
  - intros (Hne & q & ->). exists (length p). split.
    + rewrite length_app. destruct p; [congruence|]. simpl. lia.
    + simpl. now rewrite take_app_length.
Qed.

(** What a successful [mkdir -p] changes. *)
Lemma mkdirFrom_spec rest : forall base fs fs',
  Fs.mkdirFrom base rest fs = Normal fs' ->
  forall p,
    fs' !! p = fs !! p \/
    (fs !! p = None /\ fs' !! p = Some Fs.Dir /\ onPath base rest p).
Proof.
  induction rest as [|c rest IH]; intros base fs fs' H p; simpl in H.
  - injection H as <-. now left.
  - destruct (fs !! (base ++ [c])) as [[content|]|] eqn:E; [discriminate| |].
    + destruct (IH _ _ _ H p) as [Hs|(Hn & Hd & Hp)]; [now left|].
      right. repeat split; try assumption. apply onPath_cons. now right.
    + destruct (IH _ _ _ H p) as [Hs|(Hn & Hd & Hp)].
      * destruct (decide (p = base ++ [c])) as [->|Hne].
        -- right. rewrite Hs, lookup_insert_eq. repeat split; try assumption.
           apply onPath_cons. now left.
        -- left. now rewrite Hs, lookup_insert_ne.
      * right. destruct (decide (p = base ++ [c])) as [->|Hne].
        -- now rewrite lookup_insert_eq in Hn.
        -- rewrite lookup_insert_ne in Hn by congruence.
           repeat split; try assumption. apply onPath_cons. now right.
Qed.

(** After it, the whole path is made of directories. *)
Lemma mkdirFrom_path rest : forall base fs fs',
  Fs.mkdirFrom base rest fs = Normal fs' ->
  forall p, onPath base rest p -> fs' !! p = Some Fs.Dir.
Proof.
  induction rest as [|c rest IH]; intros base fs fs' H p Hp; simpl in H.
  - destruct Hp as (k & Hk & _). simpl in Hk. lia.
  - apply onPath_cons in Hp.
    destruct (fs !! (base ++ [c])) as [[content|]|] eqn:E; [discriminate| |].
    + destruct Hp as [->|Hp]; [|eauto].
      destruct (mkdirFrom_spec _ _ _ _ H (base ++ [c])) as [Hs|(Hn & _)].
      * now rewrite Hs.
      * congruence.
    + destruct Hp as [->|Hp]; [|eauto].
      destruct (mkdirFrom_spec _ _ _ _ H (base ++ [c])) as [Hs|(Hn & _)].
      * now rewrite Hs, lookup_insert_eq.
      * now rewrite lookup_insert_eq in Hn.
Qed.

(** It succeeds when no regular file is in the way. *)
Lemma mkdirFrom_succeeds rest : forall base fs,
  (forall p content, onPath base rest p -> fs !! p <> Some (Fs.File content)) ->
  exists fs', Fs.mkdirFrom base rest fs = Normal fs'.
Proof.
  induction rest as [|c rest IH]; intros base fs H; simpl.
  - eauto.
  - destruct (fs !! (base ++ [c])) as [[content|]|] eqn:E.
    + exfalso. apply (H (base ++ [c]) content); [|assumption].
      apply onPath_cons. now left.
    + apply IH. intros p content Hp. apply H. apply onPath_cons. now right.
    + apply IH. intros p content Hp.
      rewrite lookup_insert_ne.
      * apply H. apply onPath_cons. now right.
      * intros <-. apply onPath_longer in Hp. rewrite length_app in Hp.
        simpl in Hp. lia.
Qed.

(** It changes nothing when the directories are there. *)
Lemma mkdirFrom_present rest base fs fs' :
  Fs.mkdirFrom base rest fs = Normal fs' ->
  (forall p, onPath base rest p -> fs !! p = Some Fs.Dir) ->
  fs' = fs.
Proof.
  intros H Hdir. apply map_eq. intros p.
  destruct (mkdirFrom_spec _ _ _ _ H p) as [Hs|(Hn & _ & Hp)]; [assumption|].
  rewrite (Hdir p Hp) in Hn. discriminate.
Qed.

Lemma mkdirFrom_again rest base fs fs' :
  Fs.mkdirFrom base rest fs = Normal fs' ->
  Fs.mkdirFrom base rest fs' = Normal fs'.
Proof.
  intros H.
  destruct (mkdirFrom_succeeds rest base fs') as [fs'' H''].
  - intros p content Hp. rewrite (mkdirFrom_path _ _ _ _ H p Hp). discriminate.
  - rewrite H''. f_equal. eapply mkdirFrom_present; [eassumption|].
    intros p Hp. eapply mkdirFrom_path; eassumption.
Qed.



End FsFacts.

(** ** The [auth] modules *)

Section AuthFacts.

Variable expandHomeDir : Js.str -> path.
Variable execa : ExecaCall -> Fs.t -> completion jserror ExecaResult * Fs.t.
Variable claude : EngineMetadata.
Variable pathToString : path -> Js.str.

#[local] Abbreviation localHome proc := (LocalAuth.targetHome expandHomeDir proc None).
#[local] Abbreviation authPath proc := (LocalAuth.getAuthFilePath (localHome proc)).
#[local] Abbreviation configDir proc options :=
  (ClaudeAuth.resolveClaudeConfigDir expandHomeDir proc options).
#[local] Abbreviation credPath proc options :=
  (ClaudeAuth.getCredentialsPath (configDir proc options)).

Lemma creatable_mkdir fs dir :
  creatable fs dir -> exists fs', Fs.mkdir dir fs = Normal fs'.
Proof.
  intros H. apply mkdirFrom_succeeds. intros p content Hp.
  apply onPath_root in Hp as [Hne Hpre]. now apply H.
Qed.

(** A child of [dir] is not touched by the creation of [dir]. *)
Lemma mkdir_child dir name fs fs' :
  Fs.mkdir dir fs = Normal fs' ->
  fs' !! (dir ++ [name]) = fs !! (dir ++ [name]).
Proof.
  intros H.
  destruct (mkdirFrom_spec _ _ _ _ H (dir ++ [name])) as [Hs|(_ & _ & Hp)];
    [assumption|].
  apply onPath_root in Hp as [_ Hpre]. apply prefix_length in Hpre.
  rewrite length_app in Hpre. simpl in Hpre. lia.
Qed.

Lemma mkdir_isDir dir fs fs' :
  Fs.mkdir dir fs = Normal fs' -> Fs.isDir fs' dir = true.
Proof.
  intros H. unfold Fs.isDir. destruct dir as [|c dir]; [reflexivity|].
  rewrite (mkdirFrom_path _ _ _ _ H (c :: dir)).
  - rewrite (bool_decide_eq_true_2 (Some Fs.Dir = Some Fs.Dir)) by reflexivity.
    apply orb_true_r.
  - apply onPath_root. split; [discriminate|reflexivity].
Qed.

Lemma exists_child dir name fs :
  Fs.exists_ fs (dir ++ [name]) = bool_decide (is_Some (fs !! (dir ++ [name]))).
Proof.
  unfold Fs.exists_. rewrite bool_decide_eq_false_2; [reflexivity|].
  now destruct dir.
Qed.

Lemma local_isAuthenticated_ok proc w fs1 :
  Fs.mkdir (localHome proc) (w_fs w) = Normal fs1 ->
  LocalAuth.isAuthenticated expandHomeDir proc w =
    (Normal (Fs.exists_ (w_fs w) (authPath proc)),
     {| w_fs := fs1;
        w_trace := (w_trace w ++ [OpMkdir (localHome proc)]) ++
                   [OpStat (authPath proc)] |}).
Proof.
  intros H.
  unfold LocalAuth.isAuthenticated, LocalAuth.resolveLocalHome, bind, tryCatch,
    mkdir, stat, liftFs, ret. rewrite H. cbn [w_fs w_trace].
  unfold LocalAuth.getAuthFilePath, path_join. cbn [map].
  rewrite !exists_child, (mkdir_child _ _ _ _ H).
  now destruct (bool_decide _).
Qed.

Lemma claude_isAuthenticated_ok proc options w :
  exists w',
    ClaudeAuth.isAuthenticated expandHomeDir proc options w =
      (Normal (ClaudeAuth.hasToken proc ||
               Fs.exists_ (w_fs w) (credPath proc options)), w') /\
    w_fs w' = w_fs w.
Proof.
  unfold ClaudeAuth.isAuthenticated.
  destruct (ClaudeAuth.hasToken proc); [eexists; split; reflexivity|].
  unfold bind, tryCatch, stat, liftFs, ret. cbn [orb].
  destruct (Fs.exists_ _ _); eexists; split; reflexivity.
Qed.





(** *** The token override of the Claude provider *)

Lemma hasToken_set proc v :
  process_env proc !! "CLAUDE_CODE_OAUTH_TOKEN"%string = Some v -> v <> [] ->
  ClaudeAuth.hasToken proc = true.
Proof.
  intros H Hv. unfold ClaudeAuth.hasToken, envTruthy. rewrite H.
  rewrite (bool_decide_eq_false_2 (v = [])) by assumption.
  apply bool_decide_eq_true_2. eauto.
Qed.

Lemma hasToken_unset proc :
  ClaudeAuth.hasToken proc = false ->
  process_env proc !! "CLAUDE_CODE_OAUTH_TOKEN"%string = None \/
  process_env proc !! "CLAUDE_CODE_OAUTH_TOKEN"%string = Some [].
Proof.
  unfold ClaudeAuth.hasToken, envTruthy.
  destruct (process_env proc !! _) as [v|]; [|now left].
  destruct (bool_decide_reflect (v = [])) as [->|Hv]; [now right|].
  intros H. apply bool_decide_eq_false_1 in H. destruct H. eauto.
Qed.

(** C10, amended: with [CLAUDE_CODE_OAUTH_TOKEN] set to a non-empty
    value, [isAuthenticated] and [ensureAuth] return [true] and touch
    nothing, also after [clearAuth]; [isAuthenticated] after
    [clearAuth] gives [false] only when the variable is unset or
    empty. *)
Theorem token_override proc options w :
  (forall v,
     process_env proc !! "CLAUDE_CODE_OAUTH_TOKEN"%string = Some v -> v <> [] ->
     ClaudeAuth.isAuthenticated expandHomeDir proc options w = (Normal true, w) /\
     ClaudeAuth.ensureAuth expandHomeDir execa claude pathToString proc options w
       = (Normal true, w) /\
     let w1 := (ClaudeAuth.clearAuth expandHomeDir proc options w).2 in
     ClaudeAuth.isAuthenticated expandHomeDir proc options w1 = (Normal true, w1)) /\
  (let w1 := (ClaudeAuth.clearAuth expandHomeDir proc options w).2 in
   (ClaudeAuth.isAuthenticated expandHomeDir proc options w1).1 = Normal false ->
   process_env proc !! "CLAUDE_CODE_OAUTH_TOKEN"%string = None \/
   process_env proc !! "CLAUDE_CODE_OAUTH_TOKEN"%string = Some []).
Proof.
  split.
  - intros v Hv Hne. pose proof (hasToken_set _ _ Hv Hne) as Ht.
    unfold ClaudeAuth.isAuthenticated, ClaudeAuth.ensureAuth.
    rewrite Ht. repeat split; reflexivity.
  - cbv zeta. intros H. apply hasToken_unset.
    unfold ClaudeAuth.isAuthenticated in H.
    destruct (ClaudeAuth.hasToken proc); [discriminate|reflexivity].
Qed.

(** C10, as stated, fails: the variable set to the empty string does
    not count. *)
Lemma empty_token_is_no_override :
  let proc := Samples.proc [("CLAUDE_CODE_OAUTH_TOKEN"%string, [])] in
  process_env proc !! "CLAUDE_CODE_OAUTH_TOKEN"%string = Some [] /\
  (ClaudeAuth.isAuthenticated Samples.expandHomeDir proc None
     (Samples.world Samples.bare)).1 = Normal false.
Proof. split; vm_compute; reflexivity. Qed.

(** *** The skip flag *)

Lemma local_ensureAuth_skip proc w :
  skipAuth proc = true ->
  Fs.exists_ (w_fs w) (authPath proc) = false ->
  creatable (w_fs w) (localHome proc) ->
  exists fs',
    LocalAuth.ensureAuth expandHomeDir execa proc w =
      (Normal true,
       {| w_fs := fs';
          w_trace := w_trace w ++
            [OpMkdir (localHome proc); OpStat (authPath proc);
             OpWriteFile (authPath proc) PLACEHOLDER] |}) /\
    fs' !! authPath proc = Some (Fs.File PLACEHOLDER).
Proof.
  intros Hskip Hex Hc. destruct (creatable_mkdir _ _ Hc) as [fs1 H].
  unfold LocalAuth.ensureAuth, LocalAuth.resolveLocalHome, bind, tryCatch,
    mkdir, stat, writeFile, liftFs, ret. rewrite H. cbn [w_fs w_trace].
  unfold LocalAuth.getAuthFilePath, path_join in *. cbn [map] in *.
  rewrite exists_child in Hex. rewrite exists_child, (mkdir_child _ _ _ _ H), Hex.
  rewrite Hskip. cbn [w_fs w_trace].
  unfold Fs.writeFile, path_dirname. rewrite removelast_last.
  rewrite (mkdir_isDir _ _ _ H).
  assert (Hnd : Fs.isDir fs1 (localHome proc ++ [Js.lit "auth.json"]) = false).
  { unfold Fs.isDir. rewrite (mkdir_child _ _ _ _ H).
    apply bool_decide_eq_false_1 in Hex.
    destruct (w_fs w !! _) eqn:E; [destruct Hex; eauto|].
    rewrite !bool_decide_eq_false_2; [reflexivity|discriminate|].
    now destruct (localHome proc). }
  rewrite Hnd. eexists. split.
  - rewrite <- !app_assoc. reflexivity.
  - apply lookup_insert_eq.
Qed.

Lemma claude_ensureAuth_skip proc options w :
  skipAuth proc = true ->
  ClaudeAuth.hasToken proc = false ->
  Fs.exists_ (w_fs w) (credPath proc options) = false ->
  creatable (w_fs w) (configDir proc options) ->
  exists fs',
    ClaudeAuth.ensureAuth expandHomeDir execa claude pathToString proc options w =
      (Normal true,
       {| w_fs := fs';
          w_trace := w_trace w ++
            [OpStat (credPath proc options); OpMkdir (configDir proc options);
             OpWriteFile (credPath proc options) PLACEHOLDER] |}) /\
    fs' !! credPath proc options = Some (Fs.File PLACEHOLDER).
Proof.
  intros Hskip Htok Hex Hc. destruct (creatable_mkdir _ _ Hc) as [fs1 H].
  unfold ClaudeAuth.ensureAuth. rewrite Htok.
  unfold bind, tryCatch, mkdir, stat, writeFile, liftFs, ret.
  cbn [w_fs w_trace]. rewrite Hex, Hskip.
  unfold ClaudeAuth.getCredentialsPath, path_join, path_dirname in *.
  cbn [map w_fs w_trace] in *. rewrite removelast_last, H. cbn [w_fs w_trace].
  unfold Fs.writeFile, path_dirname. rewrite removelast_last.
  rewrite (mkdir_isDir _ _ _ H).
  assert (Hnd : Fs.isDir fs1 (configDir proc options ++ [Js.lit ".credentials.json"])
                = false).
  { unfold Fs.isDir. rewrite (mkdir_child _ _ _ _ H).
    rewrite exists_child in Hex. apply bool_decide_eq_false_1 in Hex.
    destruct (w_fs w !! _) eqn:E; [destruct Hex; eauto|].
    rewrite !bool_decide_eq_false_2; [reflexivity|discriminate|].
    now destruct (configDir proc options). }
  rewrite Hnd. eexists. split.
  - rewrite <- !app_assoc. reflexivity.
  - apply lookup_insert_eq.
Qed.

(** C7, amended: with [CODEMACHINE_SKIP_AUTH] equal to [1], no
    credential file, a provider directory that can be created and,
    for Claude, no token override, [ensureAuth] writes the placeholder
    to the credential path and returns [true]; its only calls are a
    [stat], a [mkdir] and a [writeFile], no command is run. *)
Theorem ensureAuth_skip_writes_placeholder proc options w :
  skipAuth proc = true ->
  (Fs.exists_ (w_fs w) (authPath proc) = false ->
   creatable (w_fs w) (localHome proc) ->
   exists fs',
     LocalAuth.ensureAuth expandHomeDir execa proc w =
       (Normal true,
        {| w_fs := fs';
           w_trace := w_trace w ++
             [OpMkdir (localHome proc); OpStat (authPath proc);
              OpWriteFile (authPath proc) PLACEHOLDER] |}) /\
     fs' !! authPath proc = Some (Fs.File (Js.lit "{}"))) /\
  (ClaudeAuth.hasToken proc = false ->
   Fs.exists_ (w_fs w) (credPath proc options) = false ->
   creatable (w_fs w) (configDir proc options) ->
   exists fs',
     ClaudeAuth.ensureAuth expandHomeDir execa claude pathToString proc options w =
       (Normal true,
        {| w_fs := fs';
           w_trace := w_trace w ++
             [OpStat (credPath proc options); OpMkdir (configDir proc options);
              OpWriteFile (credPath proc options) PLACEHOLDER] |}) /\
     fs' !! credPath proc options = Some (Fs.File (Js.lit "{}"))).
Proof.
  intros Hskip. split.
  - now apply local_ensureAuth_skip.
  - now apply claude_ensureAuth_skip.
Qed.

(** C7, as stated, fails: with the token override set the Claude
    provider returns [true] and writes nothing; and where the
    provider directory cannot be created the call fails. *)
Lemma ensureAuth_skip_without_placeholder :
  (let proc := Samples.proc [("CODEMACHINE_SKIP_AUTH"%string, Js.lit "1");
                             ("CLAUDE_CODE_OAUTH_TOKEN"%string, Js.lit "t")] in
   let w := Samples.world Samples.bare in
   let cred := ClaudeAuth.getCredentialsPath
                 (ClaudeAuth.resolveClaudeConfigDir Samples.expandHomeDir proc None) in
   skipAuth proc = true /\
   Fs.exists_ (w_fs w) cred = false /\
   ClaudeAuth.ensureAuth Samples.expandHomeDir Samples.execa (md_base metadata)
     (fun _ => []) proc None w = (Normal true, w) /\
   w_fs w !! cred = None) /\
  (let proc := Samples.proc [("CODEMACHINE_SKIP_AUTH"%string, Js.lit "1")] in
   let w := Samples.world Samples.blocked in
   skipAuth proc = true /\
   Fs.exists_ (w_fs w)
     (LocalAuth.getAuthFilePath (LocalAuth.targetHome Samples.expandHomeDir proc None))
     = false /\
   (LocalAuth.ensureAuth Samples.expandHomeDir Samples.execa proc w).1
     = Throw (Fs.code "ENOTDIR")).
Proof. repeat split; vm_compute; reflexivity. Qed.

(** *** [clearAuth] *)

(** C6: where [~/.codemachine] is a regular file, [clearAuth] of the
    local provider throws the error of [mkdir], which
    [resolveLocalHome] raises outside the [try] block. *)
Theorem clearAuth_local_throws :
  let proc := Samples.proc [] in
  let w := Samples.world Samples.blocked in
  (LocalAuth.clearAuth expandHomeDir proc w).1 = Throw (Fs.code "ENOTDIR").
Proof. vm_compute. reflexivity. Qed.

Lemma rm_swallowed p w :
  tryCatch (rm p) (fun _ => ret tt) w =
    (Normal tt, {| w_fs := removed p (w_fs w); w_trace := w_trace w ++ [OpRm p] |}).
Proof.
  unfold tryCatch, rm, liftFs, ret, Fs.rm, removed.
  destruct (bool_decide (p = [])); [now destruct (w_fs w !! p) as [[]|]|].
  now destruct (w_fs w !! p) as [[]|].
Qed.

Lemma removed_lookup p q fs :
  removed p fs !! q = fs !! q \/ removed p fs !! q = None.
Proof.
  unfold removed. destruct (fs !! p) as [[content|]|]; try now left.
  destruct (bool_decide (p = [])); [now left|].
  destruct (decide (p = q)) as [->|Hne].
  - right. apply lookup_delete_eq.
  - left. now apply lookup_delete_ne.
Qed.

Lemma removed_settled p fs :
  (forall content, fs !! p <> Some (Fs.File content)) -> removed p fs = fs.
Proof.
  intros H. unfold removed. destruct (fs !! p) as [[content|]|] eqn:E; try reflexivity.
  now destruct (H content).
Qed.

Lemma removed_no_file p fs content :
  p <> [] -> removed p fs !! p <> Some (Fs.File content).
Proof.
  intros Hne. unfold removed. destruct (fs !! p) as [[c|]|] eqn:E.
  - rewrite bool_decide_eq_false_2 by assumption. now rewrite lookup_delete_eq.
  - now rewrite E.
  - now rewrite E.
Qed.

Lemma removeAll_spec paths : forall w,
  exists w',
    ClaudeAuth.removeAll paths w = (Normal tt, w') /\
    w_fs w' = foldl (fun fs p => removed p fs) (w_fs w) paths.
Proof.
  induction paths as [|p paths IH]; intros w; simpl.
  - eexists; split; reflexivity.
  - unfold bind. rewrite rm_swallowed.
    destruct (IH {| w_fs := removed p (w_fs w); w_trace := w_trace w ++ [OpRm p] |})
      as (w' & E & Hfs).
    rewrite E. eexists; split; [reflexivity|]. exact Hfs.
Qed.

Lemma foldl_removed_no_file paths : forall fs p content,
  p <> [] -> fs !! p <> Some (Fs.File content) ->
  foldl (fun fs p => removed p fs) fs paths !! p <> Some (Fs.File content).
Proof.
  induction paths as [|q paths IH]; intros fs p content Hne H; simpl; [assumption|].
  apply IH; [assumption|].
  destruct (removed_lookup q p fs) as [E|E]; rewrite E; [assumption|discriminate].
Qed.

Lemma foldl_removed_settled paths : forall fs,
  (forall p content, p ∈ paths -> fs !! p <> Some (Fs.File content)) ->
  foldl (fun fs p => removed p fs) fs paths = fs.
Proof.
  induction paths as [|q paths IH]; intros fs H; simpl; [reflexivity|].
  rewrite removed_settled.
  - apply IH. intros p content Hin. apply H. now right.
  - intros content. apply H. now left.
Qed.

Lemma foldl_removed_all paths : forall fs p content,
  Forall (fun p => p <> []) paths -> p ∈ paths ->
  foldl (fun fs p => removed p fs) fs paths !! p <> Some (Fs.File content).
Proof.
  induction paths as [|q paths IH]; intros fs p content Hne Hin; simpl.
  - now apply elem_of_nil in Hin.
  - apply Forall_cons in Hne as [Hq Hne].
    apply elem_of_cons in Hin as [->|Hin].
    + apply foldl_removed_no_file; [assumption|]. now apply removed_no_file.
    + now apply IH.
Qed.

(** [clearAuth] of the Claude provider never throws, and a second
    call leaves the file system of the first as it is. *)
Lemma claude_clearAuth_idempotent proc options w :
  exists w1 w2,
    ClaudeAuth.clearAuth expandHomeDir proc options w = (Normal tt, w1) /\
    ClaudeAuth.clearAuth expandHomeDir proc options w1 = (Normal tt, w2) /\
    w_fs w2 = w_fs w1.
Proof.
  unfold ClaudeAuth.clearAuth.
  destruct (removeAll_spec (ClaudeAuth.getClaudeAuthPaths (configDir proc options)) w)
    as (w1 & E1 & H1).
  destruct (removeAll_spec (ClaudeAuth.getClaudeAuthPaths (configDir proc options)) w1)
    as (w2 & E2 & H2).
  exists w1, w2. split; [assumption|]. split; [assumption|].
  rewrite H2. apply foldl_removed_settled. intros p content Hin.
  rewrite H1. apply foldl_removed_all; [|assumption].
  unfold ClaudeAuth.getClaudeAuthPaths, ClaudeAuth.getCredentialsPath, path_join.
  repeat constructor; now destruct (configDir proc options).
Qed.

Lemma clear_twice (home : path) (name : Js.str) fs fs1 :
  Fs.mkdir home fs = Normal fs1 ->
  let fs2 := removed (home ++ [name]) fs1 in
  Fs.mkdir home fs2 = Normal fs2 /\ removed (home ++ [name]) fs2 = fs2.
Proof.
  intros H fs2. split.
  - destruct (mkdirFrom_succeeds home [] fs2) as [fs3 H3].
    + intros p content Hp. unfold fs2.
      destruct (removed_lookup (home ++ [name]) p fs1) as [E|E]; rewrite E;
        [|discriminate].
      rewrite (mkdirFrom_path _ _ _ _ H p Hp). discriminate.
    + unfold Fs.mkdir. rewrite H3. f_equal.
      apply (mkdirFrom_present _ _ _ _ H3). intros p Hp.
      pose proof (mkdirFrom_path _ _ _ _ H p Hp) as Hd.
      unfold fs2, removed.
      destruct (fs1 !! (home ++ [name])) as [[content|]|] eqn:E1; try assumption.
      destruct (bool_decide _); [assumption|].
      rewrite lookup_delete_ne; [assumption|].
      intros <-. rewrite Hd in E1. discriminate.
  - apply removed_settled. intros content. apply removed_no_file.
    now destruct home.
Qed.

(** When the first [clearAuth] of the local provider returns, so does
    the second, and it leaves the file system as it is. *)
Lemma local_clearAuth_idempotent proc w w1 :
  LocalAuth.clearAuth expandHomeDir proc w = (Normal tt, w1) ->
  exists w2,
    LocalAuth.clearAuth expandHomeDir proc w1 = (Normal tt, w2) /\
    w_fs w2 = w_fs w1.
Proof.
  unfold LocalAuth.clearAuth, LocalAuth.resolveLocalHome, bind, mkdir, liftFs, ret.
  unfold LocalAuth.getAuthFilePath, path_join. cbn [map].
  generalize (LocalAuth.targetHome expandHomeDir proc None). intros home.
  destruct (Fs.mkdir home (w_fs w)) as [fs1|e] eqn:H; [|discriminate].
  rewrite rm_swallowed. cbn [w_fs w_trace]. intros [= <-]. cbn [w_fs w_trace].
  destruct (clear_twice home (Js.lit "auth.json") _ _ H) as [H1 H2].
  rewrite H1, rm_swallowed. cbn [w_fs w_trace].
  eexists. split; [reflexivity|]. exact H2.
Qed.

(** *** A missing command-line binary *)

Lemma local_ensureAuth_cli_missing proc w fs1 r1 fs2 :
  skipAuth proc = false ->
  Fs.mkdir (localHome proc) (w_fs w) = Normal fs1 ->
  Fs.exists_ (w_fs w) (authPath proc) = false ->
  execa (mkExeca (md_cliBinary metadata) [Js.lit "version"] None false) fs1
    = (r1, fs2) ->
  (forall res, r1 = Normal res -> exe_exitCode res <> Some 0%Z) \/
  (exists e fs3,
     execa (mkExeca (md_cliBinary metadata) [Js.lit "status"]
              (Some ("LOCAL_HOME"%string, localHome proc)) true) fs2
       = (Throw e, fs3) /\
     missingBinary e) ->
  exists w',
    LocalAuth.ensureAuth expandHomeDir execa proc w
      = (Throw (newError (md_name metadata ++ Js.lit " CLI is not installed.")), w') /\
    ConsoleError (Js.lit "  " ++ md_installCommand metadata ++ [Js.LF]) ∈ w_trace w'.
Proof.
  intros Hskip H Hex Hprobe Hmissing.
  unfold LocalAuth.ensureAuth, LocalAuth.resolveLocalHome, LocalAuth.isCliInstalled,
    LocalAuth.runExeca, bind, tryCatch, mkdir, stat, liftFs, ret.
  rewrite H. cbn [w_fs w_trace].
  unfold LocalAuth.getAuthFilePath, path_join in *. cbn [map] in *.
  rewrite exists_child in Hex. rewrite exists_child, (mkdir_child _ _ _ _ H), Hex.
  rewrite Hskip. cbn [w_fs w_trace]. rewrite Hprobe.
  assert (Hnotice : forall w0, exists w',
            LocalAuth.notInstalledNotice w0 = (Normal tt, w') /\
            ConsoleError (Js.lit "  " ++ md_installCommand metadata ++ [Js.LF])
              ∈ w_trace w').
  { intros w0. eexists. split; [reflexivity|]. cbn [w_trace]. in_trace. }
  assert (Hfound : forall w0, exists w',
            LocalAuth.notFoundNotice w0 = (Normal tt, w') /\
            ConsoleError (Js.lit "  " ++ md_installCommand metadata ++ [Js.LF])
              ∈ w_trace w').
  { intros w0. eexists. split; [reflexivity|]. cbn [w_trace]. in_trace. }
  assert (Hno : forall w0, exists w',
            (let (c, w'0) := LocalAuth.notInstalledNotice w0 in
             match c with
             | Normal _ => throw LocalAuth.notInstalledError w'0
             | Throw e => (@Throw jserror bool e, w'0)
             end) = (Throw LocalAuth.notInstalledError, w') /\
            ConsoleError (Js.lit "  " ++ md_installCommand metadata ++ [Js.LF])
              ∈ w_trace w').
  { intros w0. destruct (Hnotice w0) as (w' & -> & Hin). eauto. }
  destruct r1 as [res|e1].
  - destruct (bool_decide_reflect (exe_exitCode res = Some 0%Z)) as [E0|E0].
    + destruct Hmissing as [Hm|(e & fs3 & Hlogin & Hm)]; [now destruct (Hm res eq_refl)|].
      cbn [negb w_fs w_trace]. rewrite Hlogin.
      assert (Hnf : notFoundAuth e = true).
      { unfold notFoundAuth. destruct Hm as [Hm|Hm].
        - now rewrite bool_decide_eq_true_2.
        - cbv zeta in Hm. rewrite Hm. now rewrite orb_true_r. }
      rewrite Hnf.
      destruct (Hfound {| w_fs := fs3;
                          w_trace := (((w_trace w ++ [OpMkdir (localHome proc)]) ++
                            [OpStat (localHome proc ++ [Js.lit "auth.json"])]) ++
                            [OpExeca (mkExeca (md_cliBinary metadata) [Js.lit "version"]
                                        None false)]) ++
                            [OpExeca (mkExeca (md_cliBinary metadata) [Js.lit "status"]
                                        (Some ("LOCAL_HOME"%string, localHome proc)) true)] |})
        as (w' & E & Hin).
      rewrite E. eauto.
    + cbn [negb]. apply Hno.
  - cbn [negb]. apply Hno.
Qed.

Lemma claude_ensureAuth_cli_missing proc options w r1 fs2 :
  skipAuth proc = false ->
  ClaudeAuth.hasToken proc = false ->
  Fs.exists_ (w_fs w) (credPath proc options) = false ->
  execa (mkExeca (md_cliBinary claude) [Js.lit "--version"] None false) (w_fs w)
    = (r1, fs2) ->
  (exists e1, r1 = Throw e1) \/
  (exists e fs3,
     execa (mkExeca (Js.lit "claude") [Js.lit "setup-token"]
              (Some ("CLAUDE_CONFIG_DIR"%string, configDir proc options)) true) fs2
       = (Throw e, fs3) /\
     missingBinary e) ->
  exists w',
    ClaudeAuth.ensureAuth expandHomeDir execa claude pathToString proc options w
      = (Throw (newError (md_name claude ++ Js.lit " CLI is not installed.")), w') /\
    ConsoleError (Js.lit "  " ++ md_installCommand claude ++ [Js.LF]) ∈ w_trace w'.
Proof.
  intros Hskip Htok Hex Hprobe Hmissing.
  unfold ClaudeAuth.ensureAuth. rewrite Htok.
  unfold ClaudeAuth.isCliInstalled, ClaudeAuth.runExeca, bind, tryCatch, stat,
    liftFs, ret, console_log, log.
  cbn [w_fs w_trace]. rewrite Hex, Hskip. cbn [w_fs w_trace]. rewrite Hprobe.
  destruct r1 as [res|e1].
  - destruct Hmissing as [[e1 He1]|(e & fs3 & Hlogin & Hm)]; [discriminate|].
    cbn [negb w_fs w_trace]. rewrite Hlogin.
    assert (Hnf : notFoundAuth e = true).
    { unfold notFoundAuth. destruct Hm as [Hm|Hm].
      - now rewrite bool_decide_eq_true_2.
      - cbv zeta in Hm. rewrite Hm. now rewrite orb_true_r. }
    rewrite Hnf. eexists. split; [reflexivity|]. cbn [w_trace]. in_trace.
  - cbn [negb]. eexists. split; [reflexivity|]. cbn [w_trace]. in_trace.
Qed.

End AuthFacts.

(** ** A missing command-line binary *)

Section MissingCli.

Variable number : Type.
Variable numIsZero : number -> bool.
Variable numZero : number.
Variable JSON_parse : Js.str -> option (Runner.json number).
Variable toStr : Runner.value number -> option Js.str.
Variable jsAdd :
  Runner.value number -> Runner.value number -> option (Runner.value number).
Variable expandHomeDir : Js.str -> path.
Variable JSON_stringify :
  option Js.str -> Js.str -> bool -> option Runner.effort -> Js.str.
Variable spawnProcess :
  Runner.SpawnOptions ->
  list Runner.chunk * completion jserror Runner.SpawnResult.
Variable execa : ExecaCall -> Fs.t -> completion jserror ExecaResult * Fs.t.
Variable claude : EngineMetadata.
Variable pathToString : path -> Js.str.

(** C5: when the command is not found, [runLocal] fails with a
    message that ends with the install command of the metadata, and
    [ensureAuth] (local, then Claude), once it has to run the
    command-line tool (no credential file, no skip flag, no token),
    prints the install command and fails: when the version probe
    fails, or when the login command cannot be spawned. *)
Theorem missing_cli_names_install_command :
  (forall proc options chunks error,
     Runner.prompt options <> [] -> Runner.workingDir options <> [] ->
     spawnProcess (Runner.spawnOptions expandHomeDir JSON_stringify proc options)
       = (chunks, Throw error) ->
     spawnNotFound error ->
     exists evs pre,
       Runner.runLocal number numIsZero numZero JSON_parse toStr jsAdd
         expandHomeDir JSON_stringify spawnProcess proc options
       = (evs, Throw (newError (pre ++ md_installCommand metadata)))) /\
  (forall proc w fs1 r1 fs2,
     let home := LocalAuth.targetHome expandHomeDir proc None in
     skipAuth proc = false ->
     Fs.mkdir home (w_fs w) = Normal fs1 ->
     Fs.exists_ (w_fs w) (LocalAuth.getAuthFilePath home) = false ->
     execa (mkExeca (md_cliBinary metadata) [Js.lit "version"] None false) fs1
       = (r1, fs2) ->
     (forall res, r1 = Normal res -> exe_exitCode res <> Some 0%Z) \/
     (exists e fs3,
        execa (mkExeca (md_cliBinary metadata) [Js.lit "status"]
                 (Some ("LOCAL_HOME"%string, home)) true) fs2
          = (Throw e, fs3) /\
        missingBinary e) ->
     exists w',
       LocalAuth.ensureAuth expandHomeDir execa proc w
         = (Throw (newError (md_name metadata ++ Js.lit " CLI is not installed.")),
            w') /\
       ConsoleError (Js.lit "  " ++ md_installCommand metadata ++ [Js.LF])
         ∈ w_trace w') /\
  (forall proc options w r1 fs2,
     let configDir := ClaudeAuth.resolveClaudeConfigDir expandHomeDir proc options in
     skipAuth proc = false ->
     ClaudeAuth.hasToken proc = false ->
     Fs.exists_ (w_fs w) (ClaudeAuth.getCredentialsPath configDir) = false ->
     execa (mkExeca (md_cliBinary claude) [Js.lit "--version"] None false) (w_fs w)
       = (r1, fs2) ->
     (exists e1, r1 = Throw e1) \/
     (exists e fs3,
        execa (mkExeca (Js.lit "claude") [Js.lit "setup-token"]
                 (Some ("CLAUDE_CONFIG_DIR"%string, configDir)) true) fs2
          = (Throw e, fs3) /\
        missingBinary e) ->
     exists w',
       ClaudeAuth.ensureAuth expandHomeDir execa claude pathToString proc options w
         = (Throw (newError (md_name claude ++ Js.lit " CLI is not installed.")), w') /\
       ConsoleError (Js.lit "  " ++ md_installCommand claude ++ [Js.LF])
         ∈ w_trace w').
Proof.
  split; [|split].
  - intros. eapply runLocal_cli_missing; eassumption.
  - intros. eapply local_ensureAuth_cli_missing; eassumption.
  - intros. eapply claude_ensureAuth_cli_missing; eassumption.
Qed.

End MissingCli.

(** ** Template selection *)

Section TemplateFacts.

Variable toPath : Js.str -> path.
Variable relative : path -> path -> Js.str.
Variable hasTemplateChanged : path -> Js.str -> Fs.t -> completion jserror bool.
Variable setActiveTemplate : path -> Js.str -> Fs.t -> completion jserror Fs.t.
Variable bootstrapWorkspace : path -> path -> Fs.t -> completion jserror Fs.t.

#[local] Abbreviation handle :=
  (Templates.handleTemplateSelectionSuccess toPath relative hasTemplateChanged
     setActiveTemplate bootstrapWorkspace).
#[local] Abbreviation cwdOf proc := (Templates.workspaceDir toPath proc).
#[local] Abbreviation cmRootOf proc := (path_join (cwdOf proc) [".codemachine"%string]).
#[local] Abbreviation agentsOf proc := (Templates.agentsDirOf toPath proc).

Lemma rmRecursive_below dir p fs :
  dir `prefix_of` p -> Fs.rmRecursive dir fs !! p = None.
Proof.
  intros H. unfold Fs.rmRecursive. apply map_lookup_filter_None_2.
  right. intros x _ Hn. now apply Hn.
Qed.

Lemma rmRecursive_beside dir p fs :
  ¬ dir `prefix_of` p -> Fs.rmRecursive dir fs !! p = fs !! p.
Proof.
  intros H. unfold Fs.rmRecursive.
  destruct (fs !! p) as [x|] eqn:E.
  - now apply map_lookup_filter_Some_2.
  - apply map_lookup_filter_None_2. now left.
Qed.

Lemma cleared_gone dir fs : dir <> [] -> Fs.exists_ (cleared dir fs) dir = false.
Proof.
  intros Hne. unfold cleared. destruct (Fs.exists_ fs dir) eqn:E; [|assumption].
  unfold Fs.exists_. rewrite rmRecursive_below by reflexivity.
  rewrite bool_decide_eq_false_2 by assumption.
  apply bool_decide_eq_false_2. now intros [x Hx].
Qed.

(** The steps are only logged. *)
Lemma logSteps_logs l : forall index w,
  exists lines,
    Templates.logSteps index l w =
      (Normal tt, {| w_fs := w_fs w; w_trace := w_trace w ++ map ConsoleLog lines |}).
Proof.
  induction l as [|step l IH]; intros index w; simpl.
  - exists []. simpl. rewrite app_nil_r. now destruct w.
  - unfold bind, console_log, log.
    match goal with |- context [Templates.logSteps ?i l ?w0] =>
      destruct (IH i w0) as (lines & E) end.
    rewrite E. cbn [w_fs w_trace]. eexists (_ :: lines). simpl.
    now rewrite <- app_assoc.
Qed.

(** C8: when the marker reports a change, the agents directory is
    deleted, the tracking is updated and the workspace bootstrap runs
    on the result; when it reports none, only the tracking is
    updated: nothing is removed, no bootstrap runs, and the agents
    directory is as the tracking update leaves it. *)
Theorem template_change_regenerates_agents proc template tpl w :
  let name := Templates.basename tpl in
  let agentsDir := agentsOf proc in
  (hasTemplateChanged (cmRootOf proc) name (w_fs w) = Normal true ->
   let fs0 := cleared agentsDir (w_fs w) in
   Fs.exists_ fs0 agentsDir = false /\
   (Fs.exists_ (w_fs w) agentsDir = true ->
    forall p, agentsDir `prefix_of` p -> fs0 !! p = None) /\
   (forall p, ¬ agentsDir `prefix_of` p -> fs0 !! p = w_fs w !! p) /\
   forall fs1 fs2,
     setActiveTemplate (cmRootOf proc) name fs0 = Normal fs1 ->
     bootstrapWorkspace (cwdOf proc) tpl fs1 = Normal fs2 ->
     exists w',
       handle proc template tpl w = (Normal tt, w') /\
       w_fs w' = fs2 /\
       OpBootstrapWorkspace (cwdOf proc) tpl ∈ w_trace w') /\
  (hasTemplateChanged (cmRootOf proc) name (w_fs w) = Normal false ->
   exists r ops w',
     handle proc template tpl w = (r, w') /\
     w_trace w' = w_trace w ++ ops /\
     (forall p, OpRmRecursive p ∉ ops) /\
     (forall a b, OpBootstrapWorkspace a b ∉ ops) /\
     OpSetActiveTemplate (cmRootOf proc) name ∈ ops /\
     w_fs w' = match setActiveTemplate (cmRootOf proc) name (w_fs w) with
               | Normal fs1 => fs1
               | Throw _ => w_fs w
               end /\
     (forall p,
        agentsDir `prefix_of` p ->
        (forall fs fs1,
           setActiveTemplate (cmRootOf proc) name fs = Normal fs1 ->
           fs1 !! p = fs !! p) ->
        w_fs w' !! p = w_fs w !! p)).
Proof.
  intros name agentsDir. subst agentsDir. unfold Templates.agentsDirOf.
  set (agentsDir := path_join _ ["agents"%string]).
  assert (Hne : agentsDir <> []).
  { unfold agentsDir, path_join. cbn [map].
    now destruct (_ ++ [Js.lit ".codemachine"]). }
  split.
  - intros Hchanged. set (fs0 := cleared agentsDir (w_fs w)).
    split; [now apply cleared_gone|].
    split; [|split].
    + intros Hex p Hp. unfold fs0, cleared. rewrite Hex.
      now apply rmRecursive_below.
    + intros p Hp. unfold fs0, cleared. destruct (Fs.exists_ _ _); [|reflexivity].
      now apply rmRecursive_beside.
    + intros fs1 fs2 Hset Hboot.
      unfold Templates.handleTemplateSelectionSuccess, bind, console_log, log.
      cbn [w_fs w_trace].
      match goal with |- context [Templates.logSteps ?i ?l ?w0] =>
        destruct (logSteps_logs l i w0) as (lines & E) end.
      rewrite E. cbn [w_fs w_trace].
      unfold Templates.callHasTemplateChanged. cbn [w_fs w_trace].
      fold name. rewrite Hchanged.
      unfold existsSync, rmRecursive, Templates.callSetActiveTemplate,
        Templates.callBootstrapWorkspace, liftFs, ret.
      cbn [w_fs w_trace]. fold agentsDir.
      unfold fs0, cleared in Hset.
      destruct (Fs.exists_ (w_fs w) agentsDir); cbn [w_fs w_trace];
        fold name; rewrite Hset; cbn [w_fs w_trace]; rewrite Hboot;
        cbn [w_fs w_trace]; eexists; (split; [reflexivity|]);
        (split; [reflexivity|]); cbn [w_trace]; in_trace.
  - intros Hsame.
    unfold Templates.handleTemplateSelectionSuccess, bind, console_log, log.
    cbn [w_fs w_trace].
    match goal with |- context [Templates.logSteps ?i ?l ?w0] =>
      destruct (logSteps_logs l i w0) as (lines & E) end.
    rewrite E. cbn [w_fs w_trace].
    unfold Templates.callHasTemplateChanged. cbn [w_fs w_trace].
    fold name. rewrite Hsame.
    unfold Templates.callSetActiveTemplate, liftFs. cbn [w_fs w_trace]. fold name.
    destruct (setActiveTemplate (cmRootOf proc) name (w_fs w)) as [fs1|e] eqn:Hset;
      cbn [w_fs w_trace]; eexists _, _, _; (split; [reflexivity|]);
      cbn [w_fs w_trace]; rewrite <- ?app_assoc;
      (split; [reflexivity|]);
      (split; [intros p Hin; not_in_ops Hin|]);
      (split; [intros a b Hin; not_in_ops Hin|]);
      (split; [in_ops|]); (split; [reflexivity|]).
    + intros p _ Hframe. now apply (Hframe _ _ Hset).
    + reflexivity.
Qed.

End TemplateFacts.

(** ** Concrete runs *)

(** The sample host has no regular file, so every directory can be
    created. *)
Lemma bare_no_file p content : Samples.bare !! p <> Some (Fs.File content).
Proof.
  unfold Samples.bare. rewrite !lookup_insert.
  repeat case_decide; try discriminate.
Qed.

Lemma bare_creatable dir : creatable Samples.bare dir.
Proof. intros p content _ _. apply bare_no_file. Qed.

Import Runner.

#[local] Abbreviation run spawn :=
  (runLocal Z Samples.numIsZero 0%Z Samples.JSON_parse Samples.toStr
     Samples.jsAdd Samples.expandHomeDir Samples.JSON_stringify spawn
     (Samples.proc []) Samples.options).

(** C1: two overwrites in one line.  A terminal shows [c]; [normalize]
    gives [b], a line feed and [c], because [.] does not match a
    carriage return and the first pass stops at the first one. *)
Theorem normalize_two_overwrites :
  let text := Js.lit "a" ++ [Js.CR] ++ Js.lit "b" ++ [Js.CR] ++ Js.lit "c" in
  normalize false text = Js.lit "b" ++ [Js.LF] ++ Js.lit "c" /\
  normalize true text = Js.lit "b" ++ [Js.LF] ++ Js.lit "c" /\
  normalize false text <> Js.lit "c".
Proof.
  cbv zeta. split; [vm_compute; reflexivity|].
  split; [vm_compute; reflexivity|]. vm_compute. discriminate.
Qed.

(** One overwrite is collapsed, long runs of blank lines are cut, and
    the plain mode drops the colours. *)
Example normalize_one_overwrite :
  normalize false (Js.lit "10%" ++ [Js.CR] ++ Js.lit "20%") = Js.lit "20%".
Proof. vm_compute. reflexivity. Qed.

Example normalize_blank_lines :
  normalize false (Js.lit "a" ++ [Js.LF; Js.LF; Js.LF; Js.LF] ++ Js.lit "b")
  = Js.lit "a" ++ [Js.LF; Js.LF] ++ Js.lit "b".
Proof. vm_compute. reflexivity. Qed.

Example normalize_plain_logs :
  normalize true ([Js.ESC] ++ Js.lit "[1;31mred" ++ [Js.ESC] ++ Js.lit "[0m" ++
                  [Js.CR; Js.LF] ++ Js.lit "next")
  = [Js.LF] ++ Js.lit "next" /\
  normalize true ([Js.ESC] ++ Js.lit "[1;31mred" ++ [Js.ESC] ++ Js.lit "[0m" ++
                  [Js.LF] ++ Js.lit "next")
  = Js.lit "red" ++ [Js.LF] ++ Js.lit "next".
Proof. split; vm_compute; reflexivity. Qed.

(** The protocol line of the sample is decoded, the noise is
    dropped. *)
Lemma onData_receives_only_decoded_lines_witness :
  decoded (MESSAGE ++ Js.lit "done" ++ [Js.LF]) /\
  (forall line,
     OnData line ∉
       [Telemetry (streamData false (Js.lit "noise"))])  /\
  (forall line, OnData line ∈ (run Samples.failingChild).1 -> decoded line).
Proof.
  destruct (onData_receives_only_decoded_lines Z Samples.numIsZero 0%Z
              Samples.JSON_parse Samples.toStr Samples.jsAdd
              Samples.expandHomeDir Samples.JSON_stringify Samples.failingChild
              false (Samples.proc []) Samples.options Samples.messageLine)
    as [(evs & E & Hdec & _) [_ Hrun]].
  destruct (onData_receives_only_decoded_lines Z Samples.numIsZero 0%Z
              Samples.JSON_parse Samples.toStr Samples.jsAdd
              Samples.expandHomeDir Samples.JSON_stringify Samples.failingChild
              false (Samples.proc []) Samples.options (Js.lit "noise"))
    as [(evs' & E' & _ & Hdrop & _) _].
  split; [|split].
  - apply Hdec.
    assert (Hev : evs = [Telemetry Samples.messageLine;
                         OnData (MESSAGE ++ Js.lit "done" ++ [Js.LF])]).
    { vm_compute in E. injection E as <-. vm_compute. reflexivity. }
    rewrite Hev. apply elem_of_cons. right. apply elem_of_cons. now left.
  - assert (Hev : evs' = [Telemetry (streamData false (Js.lit "noise"))]).
    { vm_compute in E'. injection E' as <-. vm_compute. reflexivity. }
    rewrite <- Hev. apply Hdrop. vm_compute. reflexivity.
  - exact Hrun.
Defined.

Lemma runLocal_default_timeout_witness :
  timeout Samples.options = None /\
  exists o evs r,
    run Samples.failingChild = (Spawned o :: evs, r) /\
    spawn_timeout o = 1800000%Z /\
    spawn_timeout o = DEFAULT_TIMEOUT.
Proof.
  split; [reflexivity|].
  apply (runLocal_default_timeout Z Samples.numIsZero 0%Z Samples.JSON_parse
           Samples.toStr Samples.jsAdd Samples.expandHomeDir
           Samples.JSON_stringify Samples.failingChild (Samples.proc [])
           Samples.options);
    [reflexivity | vm_compute; discriminate | vm_compute; discriminate].
Defined.



Lemma missing_cli_names_install_command_witness :
  (exists evs pre,
     run Samples.noChild =
       (evs, Throw (newError (pre ++ md_installCommand metadata)))) /\
  (exists w',
     LocalAuth.ensureAuth Samples.expandHomeDir Samples.execa (Samples.proc [])
       (Samples.world Samples.bare)
     = (Throw (newError (md_name metadata ++ Js.lit " CLI is not installed.")), w') /\
     ConsoleError (Js.lit "  " ++ md_installCommand metadata ++ [Js.LF])
       ∈ w_trace w') /\
  (exists w',
     ClaudeAuth.ensureAuth Samples.expandHomeDir Samples.execa (md_base metadata)
       (fun _ => []) (Samples.proc []) None (Samples.world Samples.bare)
     = (Throw (newError (md_name metadata ++ Js.lit " CLI is not installed.")), w') /\
     ConsoleError (Js.lit "  " ++ md_installCommand metadata ++ [Js.LF])
       ∈ w_trace w').
Proof.
  destruct (missing_cli_names_install_command Z Samples.numIsZero 0%Z
              Samples.JSON_parse Samples.toStr Samples.jsAdd Samples.expandHomeDir
              Samples.JSON_stringify Samples.noChild Samples.execa
              (md_base metadata) (fun _ => []))
    as (Hrun & Hlocal & Hclaude).
  split; [|split].
  - apply (Hrun (Samples.proc []) Samples.options [] Samples.ENOENT);
      [vm_compute; discriminate | vm_compute; discriminate | reflexivity|].
    left. reflexivity.
  - destruct (creatable_mkdir Samples.bare
                (LocalAuth.targetHome Samples.expandHomeDir (Samples.proc []) None)
                (bare_creatable _)) as [fs1 Hmk].
    apply (Hlocal (Samples.proc []) (Samples.world Samples.bare) fs1
             (Throw Samples.ENOENT) fs1);
      [vm_compute; reflexivity | exact Hmk | vm_compute; reflexivity
      | reflexivity |].
    left. intros res Hres. discriminate Hres.
  - apply (Hclaude (Samples.proc []) None (Samples.world Samples.bare)
             (Throw Samples.ENOENT) Samples.bare);
      [vm_compute; reflexivity | vm_compute; reflexivity
      | vm_compute; reflexivity | reflexivity |].
    left. exists Samples.ENOENT. reflexivity.
Defined.



Lemma token_override_witness :
  let proc := Samples.proc [("CLAUDE_CODE_OAUTH_TOKEN"%string, Js.lit "t")] in
  let w := Samples.world Samples.bare in
  ClaudeAuth.isAuthenticated Samples.expandHomeDir proc None w = (Normal true, w) /\
  ClaudeAuth.ensureAuth Samples.expandHomeDir Samples.execa (md_base metadata)
    (fun _ => []) proc None w = (Normal true, w) /\
  let w1 := (ClaudeAuth.clearAuth Samples.expandHomeDir proc None w).2 in
  ClaudeAuth.isAuthenticated Samples.expandHomeDir proc None w1 = (Normal true, w1).
Proof.
  intros proc w.
  destruct (token_override Samples.expandHomeDir Samples.execa (md_base metadata)
              (fun _ => []) proc None w) as [Hset _].
  apply (Hset (Js.lit "t")); [reflexivity | vm_compute; discriminate].
Defined.

Lemma ensureAuth_skip_writes_placeholder_witness :
  let proc := Samples.proc [("CODEMACHINE_SKIP_AUTH"%string, Js.lit "1")] in
  let w := Samples.world Samples.bare in
  (exists w',
     LocalAuth.ensureAuth Samples.expandHomeDir Samples.execa proc w
       = (Normal true, w') /\
     w_fs w' !! LocalAuth.getAuthFilePath
                  (LocalAuth.targetHome Samples.expandHomeDir proc None)
       = Some (Fs.File (Js.lit "{}"))) /\
  (exists w',
     ClaudeAuth.ensureAuth Samples.expandHomeDir Samples.execa (md_base metadata)
       (fun _ => []) proc None w = (Normal true, w') /\
     w_fs w' !! ClaudeAuth.getCredentialsPath
                  (ClaudeAuth.resolveClaudeConfigDir Samples.expandHomeDir proc None)
       = Some (Fs.File (Js.lit "{}"))).
Proof.
  intros proc w.
  destruct (ensureAuth_skip_writes_placeholder Samples.expandHomeDir Samples.execa
              (md_base metadata) (fun _ => []) proc None w) as [Hlocal Hclaude].
  { reflexivity. }
  split.
  - destruct Hlocal as (fs' & E & Hfile).
    + vm_compute. reflexivity.
    + apply bare_creatable.
    + eexists. split; [exact E | exact Hfile].
  - destruct Hclaude as (fs' & E & Hfile).
    + reflexivity.
    + vm_compute. reflexivity.
    + apply bare_creatable.
    + eexists. split; [exact E | exact Hfile].
Defined.

#[local] Abbreviation select :=
  (Templates.handleTemplateSelectionSuccess (fun s => [s]) (fun _ _ => [])
     Samples.hasTemplateChanged Samples.setActiveTemplate
     Samples.bootstrapWorkspace (Samples.proc []) Samples.template
     Samples.templatePath).

(** With another template active the old prompt goes and the
    bootstrap writes the new one; with the same template the old
    prompt stays. *)
Lemma template_change_regenerates_agents_witness :
  let agents := Samples.home ++ [Js.lit "project"; Js.lit ".codemachine"; Js.lit "agents"] in
  (exists w',
     select (Samples.world (Samples.workspace "other.workflow.js")) = (Normal tt, w') /\
     w_fs w' !! (agents ++ [Js.lit "old.md"]) = None /\
     w_fs w' !! (agents ++ [Js.lit "planner.md"]) = Some (Fs.File (Js.lit "plan"))) /\
  (exists r w',
     select (Samples.world (Samples.workspace "default.workflow.js")) = (r, w') /\
     w_fs w' !! (agents ++ [Js.lit "old.md"]) = Some (Fs.File (Js.lit "old"))).
Proof.
  intros agents. split.
  - destruct (template_change_regenerates_agents (fun s => [s]) (fun _ _ => [])
                Samples.hasTemplateChanged Samples.setActiveTemplate
                Samples.bootstrapWorkspace (Samples.proc []) Samples.template
                Samples.templatePath
                (Samples.world (Samples.workspace "other.workflow.js")))
      as [Hchanged _].
    destruct Hchanged as (_ & _ & _ & Hrun); [vm_compute; reflexivity|].
    destruct (Hrun _ _ eq_refl eq_refl) as (w' & E & Hfs & _).
    exists w'. split; [exact E|]. rewrite Hfs.
    split; vm_compute; reflexivity.
  - destruct (template_change_regenerates_agents (fun s => [s]) (fun _ _ => [])
                Samples.hasTemplateChanged Samples.setActiveTemplate
                Samples.bootstrapWorkspace (Samples.proc []) Samples.template
                Samples.templatePath
                (Samples.world (Samples.workspace "default.workflow.js")))
      as [_ Hsame].
    destruct Hsame as (r & ops & w' & E & _ & _ & _ & _ & _ & Hframe);
      [vm_compute; reflexivity|].
    exists r, w'. split; [exact E|].
    rewrite Hframe.
    + vm_compute. reflexivity.
    + exists [Js.lit "old.md"]. reflexivity.
    + intros fs fs1 [= <-]. apply lookup_insert_ne. vm_compute. discriminate.
Defined.


(** * Further properties *)

(** ** Normalisation of clean and of overwritten text *)

Section NormalizeMore.

Import Regex.

(** Where the pattern matches nowhere the text is kept. *)
Lemma replaceFrom_no_match (P : N -> Prop) r repl :
  (forall prev s, Forall P s -> exec r prev s = None) ->
  forall s prev, Forall P s -> replaceFrom r repl prev s 0 = s.
Proof.
  intros Hnone. induction s as [|c s IH]; intros prev Hs; simpl.
  - now rewrite (Hnone prev [] Hs).
  - rewrite (Hnone prev (c :: s) Hs). f_equal. apply IH.
    now apply Forall_cons in Hs as [_ Hs].
Qed.

(** A pattern that starts with a code unit the text does not have
    does not match. *)
Lemma exec_first_missing cls r (P : N -> Prop) :
  (forall c, P c -> cls c = false) ->
  forall prev s, Forall P s -> exec (One cls :: r) prev s = None.
Proof.
  intros Hcls prev s Hs. unfold exec. cbn [run].
  destruct s as [|c s]; [reflexivity|].
  apply Forall_cons in Hs as [Hc _]. now rewrite (Hcls c Hc).
Qed.

(** A repetition followed by a pattern that fails everywhere fails. *)
Lemma star_none {R} (P : N -> Prop) cls (k : option N -> Js.str -> nat -> option R) :
  (forall prev s n, Forall P s -> k prev s n = None) ->
  forall s prev n, Forall P s -> star cls k prev s n = None.
Proof.
  intros Hk. induction s as [|c s IH]; intros prev n Hs; cbn [star].
  - now apply Hk.
  - pose proof Hs as Hs'. apply Forall_cons in Hs' as [_ Hs'].
    rewrite (IH _ _ Hs'). rewrite (Hk _ _ _ Hs). now destruct (cls c).
Qed.

Lemma exec_overwrite_no_cr prev s :
  Forall (fun c => c <> Js.CR) s -> exec Runner.CR_OVERWRITE prev s = None.
Proof.
  intros Hs. unfold exec.
  change (run Runner.CR_OVERWRITE (None, None) prev s 0)
    with (if atBol prev
          then star dot
                 (run [One (chr Js.CR); Open; Many notCRLF; Close] (None, None))
                 prev s 0
          else None).
  assert (H : star dot
                (run [One (chr Js.CR); Open; Many notCRLF; Close] (None, None))
                prev s 0 = None).
  { apply (star_none (fun c => c <> Js.CR)); [|assumption].
    intros p s' n Hs'. cbn [run]. destruct s' as [|c s']; [reflexivity|].
    apply Forall_cons in Hs' as [Hc _]. unfold chr.
    destruct (N.eqb_spec Js.CR c) as [E|E]; [now destruct Hc|reflexivity]. }
  rewrite H. now destruct (atBol prev).
Qed.

Lemma lead_three s :
  (3 <= lead s)%nat ->
  s !! 0%nat = Some Js.LF /\ s !! 1%nat = Some Js.LF /\ s !! 2%nat = Some Js.LF.
Proof.
  destruct s as [|a [|b [|c s]]]; simpl;
    repeat (match goal with |- context [?x =? Js.LF] =>
              destruct (N.eqb_spec x Js.LF) as [->|?] end; simpl);
    try lia; auto.
Qed.

Lemma noBlankRun_tail c s : noBlankRun (c :: s) -> noBlankRun s.
Proof. intros H i Hi. apply (H (S i)). exact Hi. Qed.

Lemma lf3_no_match repl s : forall prev,
  noBlankRun s -> replaceFrom Runner.LF3 repl prev s 0 = s.
Proof.
  induction s as [|c s IH]; intros prev Hs; cbn [replaceFrom]; rewrite exec_LF3.
  - reflexivity.
  - destruct (decide (3 <= lead (c :: s))%nat) as [Hrun|Hrun].
    + destruct (Hs 0%nat). now apply lead_three.
    + f_equal. apply IH. now apply noBlankRun_tail in Hs.
Qed.

(** Text without carriage return, without two blank lines in a row
    and, in the plain mode, without escape character, is left as it
    is. *)
Lemma normalize_clean plainLogs text :
  Forall (fun c => c <> Js.CR) text ->
  noBlankRun text ->
  (plainLogs = true -> Forall (fun c => c <> Js.ESC) text) ->
  Runner.normalize plainLogs text = text.
Proof.
  intros Hcr Hrun Hesc. unfold Runner.normalize, replaceAll.
  rewrite (replaceFrom_no_match (fun c => c <> Js.CR) Runner.CR_OVERWRITE)
    by (try assumption; intros; now apply exec_overwrite_no_cr).
  assert (Hansi : (if plainLogs
                   then replaceFrom Runner.ANSI_ESCAPE_SEQUENCE (fun _ => []) None text 0
                   else text) = text).
  { destruct plainLogs; [|reflexivity].
    apply (replaceFrom_no_match (fun c => c <> Js.ESC)); [|now apply Hesc].
    intros prev s Hs. apply (exec_first_missing _ _ (fun c => c <> Js.ESC));
      [|assumption].
    intros c Hc. unfold chr. now destruct (N.eqb_spec Js.ESC c) as [E|E]; [destruct Hc|]. }
  rewrite Hansi.
  assert (Hfirst : forall r prev s,
            Forall (fun c => c <> Js.CR) s ->
            exec (One (chr Js.CR) :: r) prev s = None).
  { intros r prev s Hs. apply (exec_first_missing _ _ (fun c => c <> Js.CR));
      [|assumption].
    intros c Hc. unfold chr. now destruct (N.eqb_spec Js.CR c) as [E|E]; [destruct Hc|]. }
  rewrite (replaceFrom_no_match (fun c => c <> Js.CR) Runner.CRLF)
    by (try assumption; intros; now apply Hfirst).
  rewrite (replaceFrom_no_match (fun c => c <> Js.CR) Runner.LONE_CR)
    by (try assumption; intros; now apply Hfirst).
  now apply lf3_no_match.
Qed.

(** A greedy repetition that can take the whole of [t] and whose
    continuation succeeds there takes it. *)
Lemma star_max {R} cls (k : option N -> Js.str -> nat -> option R) rest r0 :
  match rest with [] => True | c :: _ => cls c = false end ->
  forall t prev n,
    Forall (fun c => cls c = true) t ->
    (forall p, k p rest (n + length t)%nat = Some r0) ->
    star cls k prev (t ++ rest) n = Some r0.
Proof.
  intros Hrest. induction t as [|c t IH]; intros prev n Ht Hk; simpl.
  - specialize (Hk prev). rewrite Nat.add_0_r in Hk.
    destruct rest as [|c rest]; cbn [star]; [assumption|]. now rewrite Hrest.
  - apply Forall_cons in Ht as [Hc Ht]. rewrite Hc.
    rewrite (IH (Some c) (S n) Ht); [reflexivity|].
    intros p. rewrite <- (Hk p). f_equal. simpl. lia.
Qed.

(** The match of the overwrite pattern at the start of a line: the
    text up to the carriage return and the run after it. *)
Lemma exec_overwrite prev t v w :
  atBol prev = true ->
  Forall (fun c => Js.isLineTerminator c = false) t ->
  Forall (fun c => c <> Js.CR /\ c <> Js.LF) v ->
  w = [] \/ (exists w', w = Js.LF :: w') ->
  exec Runner.CR_OVERWRITE prev (t ++ Js.CR :: v ++ w)
  = Some (S (length t + length v), v).
Proof.
  intros Hbol Ht Hv Hw. unfold exec.
  change (run Runner.CR_OVERWRITE (None, None) prev (t ++ Js.CR :: v ++ w) 0)
    with (if atBol prev
          then star dot
                 (run [One (chr Js.CR); Open; Many notCRLF; Close] (None, None))
                 prev (t ++ Js.CR :: v ++ w) 0
          else None).
  rewrite Hbol.
  rewrite (star_max dot _ (Js.CR :: v ++ w)
             (S (length t + length v),
              (Some (S (length t)), Some (S (length t + length v))))).
  - unfold group1.
    replace (S (length t + length v) - S (length t))%nat with (length v) by lia.
    replace (drop (S (length t)) (t ++ Js.CR :: v ++ w)) with (v ++ w).
    + now rewrite take_app_length.
    + change (t ++ Js.CR :: v ++ w) with (t ++ [Js.CR] ++ v ++ w).
      rewrite app_assoc.
      replace (S (length t)) with (length (t ++ [Js.CR]))
        by (rewrite length_app; simpl; lia).
      now rewrite drop_app_length.
  - reflexivity.
  - eapply Forall_impl; [exact Ht|]. intros c Hc. unfold dot. now rewrite Hc.
  - intros p.
    change (run [One (chr Js.CR); Open; Many notCRLF; Close] (None, None) p
              (Js.CR :: v ++ w) (0 + length t))
      with (star notCRLF (run [Close] (Some (S (0 + length t)), None))
              (Some Js.CR) (v ++ w) (S (0 + length t))).
    apply star_max.
    + destruct Hw as [->|[w' ->]]; [exact I|reflexivity].
    + eapply Forall_impl; [exact Hv|]. intros c [Hc1 Hc2]. unfold notCRLF.
      destruct (N.eqb_spec c Js.CR) as [E|E]; [contradiction|].
      destruct (N.eqb_spec c Js.LF) as [E'|E']; [contradiction|reflexivity].
    + intros q. cbn [run fst snd]. reflexivity.
Qed.

(** The rest of a match without carriage return is passed and then
    kept. *)
Lemma overwrite_skip repl a : forall prev b,
  Forall (fun c => c <> Js.CR) b ->
  replaceFrom Runner.CR_OVERWRITE repl prev (a ++ b) (length a) = b.
Proof.
  induction a as [|c a IH]; intros prev b Hb.
  - simpl. apply (replaceFrom_no_match (fun c => c <> Js.CR)); [|assumption].
    intros; now apply exec_overwrite_no_cr.
  - simpl. now apply IH.
Qed.

(** The first pass on a line with one carriage return. *)
Lemma overwrite_pass t v w :
  Forall (fun c => Js.isLineTerminator c = false) t ->
  Forall (fun c => c <> Js.CR /\ c <> Js.LF) v ->
  Forall (fun c => c <> Js.CR) w ->
  w = [] \/ (exists w', w = Js.LF :: w') ->
  replaceAll Runner.CR_OVERWRITE (fun g => g) (t ++ Js.CR :: v ++ w) = v ++ w.
Proof.
  intros Ht Hv Hw Hend. unfold replaceAll.
  pose proof (exec_overwrite None t v w eq_refl Ht Hv Hend) as E.
  assert (Hs : exists c0 a, t ++ Js.CR :: v ++ w = c0 :: a ++ w /\
                            length a = (length t + length v)%nat).
  { destruct t as [|c0 t]; simpl.
    - exists Js.CR, v. split; reflexivity.
    - exists c0, (t ++ Js.CR :: v). split.
      + now rewrite <- app_assoc.
      + rewrite length_app. simpl. lia. }
  destruct Hs as (c0 & a & Hs & Hlen). rewrite Hs in *.
  cbn [replaceFrom]. rewrite E. rewrite <- Hlen.
  now rewrite overwrite_skip.
Qed.

End NormalizeMore.

(** X1: whatever the chunk, the normalised text has no carriage
    return and no run of three line feeds. *)
Theorem normalize_output_shape plainLogs text :
  (Js.CR ∉ normalize plainLogs text) /\ noBlankRun (normalize plainLogs text).
Proof. apply normalize_line_endings. Qed.

(** X2: text that has no carriage return, no two blank lines in a
    row and, in the plain mode, no escape character, passes through
    [normalize] unchanged. *)
Theorem normalize_keeps_clean_text plainLogs text :
  Forall (fun c => c <> Js.CR) text ->
  noBlankRun text ->
  (plainLogs = true -> Forall (fun c => c <> Js.ESC) text) ->
  normalize plainLogs text = text.
Proof. apply normalize_clean. Qed.

(** X3: without the plain mode [normalize] is idempotent; with it, it
    is not: removing one escape sequence can put another together. *)
Theorem normalize_idempotent :
  (forall text, normalize false (normalize false text) = normalize false text) /\
  (exists text, normalize true (normalize true text) <> normalize true text).
Proof.
  split.
  - intros text. destruct (normalize_line_endings false text) as [Hcr Hrun].
    apply normalize_clean; [|assumption|discriminate].
    apply Forall_forall. intros c Hc ->. now apply Hcr.
  - exists ([Js.ESC; Js.ESC] ++ Js.lit "[m[m"). vm_compute. discriminate.
Qed.

Lemma noBlankRunb_sound s : noBlankRunb s = true -> noBlankRun s.
Proof.
  induction s as [|c s IH]; intros H.
  - apply noBlankRun_nil.
  - cbn [noBlankRunb] in H. apply andb_true_iff in H as [H1 H2].
    apply negb_true_iff, Nat.leb_gt in H1.
    apply noBlankRun_cons; [now apply IH|].
    intros ->. simpl in H1. lia.
Qed.

Lemma normalize_keeps_clean_text_witness :
  normalize true (Js.lit "built" ++ [Js.LF; Js.LF] ++ Js.lit "done")
  = Js.lit "built" ++ [Js.LF; Js.LF] ++ Js.lit "done".
Proof.
  apply normalize_keeps_clean_text.
  - apply Forall_forall. intros c Hc ->. vm_compute in Hc.
    repeat (apply elem_of_cons in Hc as [Hc|Hc]; [discriminate|]).
    now apply elem_of_nil in Hc.
  - apply noBlankRunb_sound. vm_compute. reflexivity.
  - intros _. apply Forall_forall. intros c Hc ->. vm_compute in Hc.
    repeat (apply elem_of_cons in Hc as [Hc|Hc]; [discriminate|]).
    now apply elem_of_nil in Hc.
Defined.

(** ** Chunks of several lines *)

Section NormalizeLines.

Import Regex Runner.

(** The overwrite pattern does not match where a line feed comes
    before the next carriage return. *)
Lemma exec_overwrite_line_feed prev v rest :
  Forall (fun c => c <> Js.CR) v ->
  exec CR_OVERWRITE prev (v ++ Js.LF :: rest) = None.
Proof.
  intros Hv. unfold exec.
  change (run CR_OVERWRITE (None, None) prev (v ++ Js.LF :: rest) 0)
    with (if atBol prev
          then star dot
                 (run [One (chr Js.CR); Open; Many notCRLF; Close] (None, None))
                 prev (v ++ Js.LF :: rest) 0
          else None).
  assert (H : forall p n,
            star dot
              (run [One (chr Js.CR); Open; Many notCRLF; Close] (None, None))
              p (v ++ Js.LF :: rest) n = None).
  { induction v as [|c v IH]; intros p n.
    - reflexivity.
    - apply Forall_cons in Hv as [Hc Hv]. cbn [app star].
      rewrite (IH Hv). cbn [run]. unfold chr.
      destruct (N.eqb_spec Js.CR c) as [E|E]; [now destruct Hc|].
      now destruct (dot c). }
  rewrite H. now destruct (atBol prev).
Qed.

(** A written line is kept, and the line feed after it. *)
Lemma overwrite_written repl rest : forall v prev,
  Forall (fun c => c <> Js.CR) v ->
  replaceFrom CR_OVERWRITE repl prev (v ++ Js.LF :: rest) 0 =
    v ++ Js.LF :: replaceFrom CR_OVERWRITE repl (Some Js.LF) rest 0.
Proof.
  induction v as [|c v IH]; intros prev Hv.
  - pose proof (exec_overwrite_line_feed prev [] rest Hv) as E.
    cbn [app] in *. cbn [replaceFrom]. now rewrite E.
  - pose proof (exec_overwrite_line_feed prev (c :: v) rest Hv) as E.
    cbn [app] in *. cbn [replaceFrom]. rewrite E. f_equal.
    apply IH. now apply Forall_cons in Hv as [_ Hv].
Qed.

(** The code units of a match are passed. *)
Lemma replaceFrom_skip r repl : forall a prev b,
  exists p, replaceFrom r repl prev (a ++ b) (length a) = replaceFrom r repl p b 0.
Proof.
  induction a as [|c a IH]; intros prev b.
  - now exists prev.
  - cbn [app length replaceFrom]. apply IH.
Qed.

Lemma match_split (t v w : Js.str) :
  exists c0 a, t ++ Js.CR :: v ++ w = c0 :: a ++ w /\
               length a = (length t + length v)%nat.
Proof.
  destruct t as [|c0 t]; simpl.
  - exists Js.CR, v. split; reflexivity.
  - exists c0, (t ++ Js.CR :: v). split.
    + now rewrite <- app_assoc.
    + rewrite length_app. simpl. lia.
Qed.

(** An overwritten line gives its second text, and the line feed
    after it is kept. *)
Lemma overwrite_overwritten prev t v rest :
  atBol prev = true ->
  Forall (fun c => Js.isLineTerminator c = false) t ->
  Forall (fun c => c <> Js.CR /\ c <> Js.LF) v ->
  replaceFrom CR_OVERWRITE (fun g => g) prev (t ++ Js.CR :: v ++ Js.LF :: rest) 0 =
    v ++ Js.LF :: replaceFrom CR_OVERWRITE (fun g => g) (Some Js.LF) rest 0.
Proof.
  intros Hbol Ht Hv.
  pose proof (exec_overwrite prev t v (Js.LF :: rest) Hbol Ht Hv
                (or_intror (ex_intro _ rest eq_refl))) as E.
  destruct (match_split t v (Js.LF :: rest)) as (c0 & a & Hs & Hlen).
  rewrite Hs in *. cbn [replaceFrom]. rewrite E, <- Hlen. f_equal.
  destruct (replaceFrom_skip CR_OVERWRITE (fun g => g) a (Some c0) (Js.LF :: rest))
    as [p ->].
  now apply (overwrite_written (fun g => g) rest []).
Qed.

Lemma overwrite_overwritten_last prev t v :
  atBol prev = true ->
  Forall (fun c => Js.isLineTerminator c = false) t ->
  Forall (fun c => c <> Js.CR /\ c <> Js.LF) v ->
  replaceFrom CR_OVERWRITE (fun g => g) prev (t ++ Js.CR :: v) 0 = v.
Proof.
  intros Hbol Ht Hv.
  pose proof (exec_overwrite prev t v [] Hbol Ht Hv (or_introl eq_refl)) as E.
  destruct (match_split t v []) as (c0 & a & Hs & Hlen).
  rewrite !app_nil_r in *. rewrite Hs in *. cbn [replaceFrom]. rewrite E, <- Hlen.
  destruct (replaceFrom_skip CR_OVERWRITE (fun g => g) a (Some c0) []) as [p Hp].
  rewrite app_nil_r in Hp. rewrite Hp. cbn [replaceFrom].
  rewrite exec_overwrite_no_cr by constructor. now rewrite app_nil_r.
Qed.

Lemma no_cr (v : Js.str) :
  Forall (fun c => c <> Js.CR /\ c <> Js.LF) v -> Forall (fun c => c <> Js.CR) v.
Proof. intros H. eapply Forall_impl; [exact H|]. now intros c [Hc _]. Qed.

(** The first pass, line by line. *)
Lemma overwrite_lines : forall lines prev,
  atBol prev = true ->
  Forall oneLine lines ->
  replaceFrom CR_OVERWRITE (fun g => g) prev (Js.join [Js.LF] (map raw lines)) 0 =
    Js.join [Js.LF] (map shown lines).
Proof.
  induction lines as [|l lines IH]; intros prev Hbol Hlines.
  { cbn. now rewrite exec_overwrite_no_cr by constructor. }
  apply Forall_cons in Hlines as [Hl Hlines].
  destruct lines as [|l' lines].
  - cbn [map Js.join]. destruct l as [v|t v]; cbn [raw shown oneLine] in *.
    + apply (replaceFrom_no_match (fun c => c <> Js.CR)); [|now apply no_cr].
      intros; now apply exec_overwrite_no_cr.
    + destruct Hl as [Ht Hv]. now apply overwrite_overwritten_last.
  - change (Js.join [Js.LF] (map raw (l :: l' :: lines)))
      with (raw l ++ [Js.LF] ++ Js.join [Js.LF] (map raw (l' :: lines))).
    change (Js.join [Js.LF] (map shown (l :: l' :: lines)))
      with (shown l ++ [Js.LF] ++ Js.join [Js.LF] (map shown (l' :: lines))).
    rewrite <- (IH (Some Js.LF) eq_refl Hlines).
    destruct l as [v|t v]; cbn [raw shown oneLine] in *.
    + apply overwrite_written. now apply no_cr.
    + destruct Hl as [Ht Hv]. rewrite <- !app_assoc.
      now apply overwrite_overwritten.
Qed.

End NormalizeLines.

Section NormalizeChunks.

Import Regex Runner.

(** After the first pass, on a text without carriage return and, in
    the plain mode, without escape character, only the last pass is
    left. *)
Lemma normalize_after_overwrite plainLogs text x :
  replaceAll CR_OVERWRITE (fun g => g) text = x ->
  Forall (fun c => c <> Js.CR) x ->
  (plainLogs = true -> Forall (fun c => c <> Js.ESC) x) ->
  normalize plainLogs text = replaceAll LF3 (fun _ => [Js.LF; Js.LF]) x.
Proof.
  intros Hx Hcr Hesc. unfold normalize. rewrite Hx. unfold replaceAll.
  assert (Hansi : (if plainLogs
                   then replaceFrom ANSI_ESCAPE_SEQUENCE (fun _ => []) None x 0
                   else x) = x).
  { destruct plainLogs; [|reflexivity].
    apply (replaceFrom_no_match (fun c => c <> Js.ESC)); [|now apply Hesc].
    intros prev s Hs. apply (exec_first_missing _ _ (fun c => c <> Js.ESC));
      [|assumption].
    intros c Hc. unfold chr. now destruct (N.eqb_spec Js.ESC c) as [E|E]; [destruct Hc|]. }
  rewrite Hansi.
  assert (Hfirst : forall r prev s,
            Forall (fun c => c <> Js.CR) s ->
            exec (One (chr Js.CR) :: r) prev s = None).
  { intros r prev s Hs. apply (exec_first_missing _ _ (fun c => c <> Js.CR));
      [|assumption].
    intros c Hc. unfold chr. now destruct (N.eqb_spec Js.CR c) as [E|E]; [destruct Hc|]. }
  rewrite (replaceFrom_no_match (fun c => c <> Js.CR) CRLF)
    by (try assumption; intros; now apply Hfirst).
  now rewrite (replaceFrom_no_match (fun c => c <> Js.CR) LONE_CR)
    by (try assumption; intros; now apply Hfirst).
Qed.

Lemma shown_no_cr lines :
  Forall oneLine lines ->
  Forall (fun c => c <> Js.CR) (Js.join [Js.LF] (map shown lines)).
Proof.
  induction lines as [|l lines IH]; intros Hl; [constructor|].
  apply Forall_cons in Hl as [Hl Hlines].
  assert (Hs : Forall (fun c => c <> Js.CR) (shown l)).
  { destruct l as [v|t v]; cbn [shown oneLine] in *; [|destruct Hl as [_ Hl]];
      now apply no_cr. }
  destruct lines as [|l' lines]; [exact Hs|].
  change (Js.join [Js.LF] (map shown (l :: l' :: lines)))
    with (shown l ++ [Js.LF] ++ Js.join [Js.LF] (map shown (l' :: lines))).
  apply Forall_app. split; [assumption|].
  apply Forall_app. split; [repeat constructor; discriminate|now apply IH].
Qed.

(** X4: in a chunk whose lines are each written once or overwritten
    once, every overwritten line is replaced by the text after its
    carriage return and every other line is kept, wherever the line
    stands in the chunk. *)
Theorem normalize_overwritten_lines plainLogs lines :
  Forall oneLine lines ->
  noBlankRun (Js.join [Js.LF] (map shown lines)) ->
  (plainLogs = true ->
   Forall (fun c => c <> Js.ESC) (Js.join [Js.LF] (map shown lines))) ->
  normalize plainLogs (Js.join [Js.LF] (map raw lines)) =
    Js.join [Js.LF] (map shown lines).
Proof.
  intros Hlines Hrun Hesc.
  rewrite (normalize_after_overwrite plainLogs _ (Js.join [Js.LF] (map shown lines))).
  - now apply lf3_no_match.
  - now apply overwrite_lines.
  - now apply shown_no_cr.
  - assumption.
Qed.

Lemma join_cons sep (p : Js.str) q ps :
  Js.join sep (p :: q :: ps) = p ++ sep ++ Js.join sep (q :: ps).
Proof. reflexivity. Qed.

(** Lines that end with a carriage return and a line feed, as
    overwritten lines with nothing after the carriage return. *)
Lemma crlf_lines ts rest :
  concat (map (fun t => t ++ [Js.CR; Js.LF]) ts) ++ rest =
    Js.join [Js.LF] (map raw (map (fun t => Overwritten t []) ts ++ [Written rest])) /\
  Js.join [Js.LF] (map shown (map (fun t => Overwritten t []) ts ++ [Written rest])) =
    repeat Js.LF (length ts) ++ rest.
Proof.
  induction ts as [|t ts [IH1 IH2]]; [split; reflexivity|].
  cbn [map concat length repeat app].
  destruct (map (fun t => Overwritten t []) ts ++ [Written rest]) as [|l ls] eqn:E.
  { now destruct (map _ ts). }
  cbn [map] in *. rewrite !join_cons. cbn [raw shown]. split.
  - rewrite <- IH1, <- !app_assoc. reflexivity.
  - now rewrite <- IH2.
Qed.

Lemma lead_repeat n rest :
  Forall (fun c => c <> Js.LF) rest -> lead (repeat Js.LF n ++ rest) = n.
Proof.
  intros Hr. induction n as [|n IH]; cbn [repeat app lead].
  - destruct rest as [|c rest]; [reflexivity|]. cbn [lead].
    apply Forall_cons in Hr as [Hc _].
    now destruct (N.eqb_spec c Js.LF).
  - now rewrite IH.
Qed.

Lemma noBlankRun_no_lf s : Forall (fun c => c <> Js.LF) s -> noBlankRun s.
Proof.
  intros Hs i (H & _). apply list_elem_of_lookup_2 in H.
  rewrite Forall_forall in Hs. now apply (Hs Js.LF).
Qed.

(** The last pass on a run of line feeds. *)
Lemma lf3_run n rest :
  Forall (fun c => c <> Js.LF) rest ->
  replaceAll LF3 (fun _ => [Js.LF; Js.LF]) (repeat Js.LF n ++ rest) =
    repeat Js.LF (n `min` 2) ++ rest.
Proof.
  intros Hr. pose proof (noBlankRun_no_lf rest Hr) as Hrest.
  unfold replaceAll.
  destruct (decide (3 <= n)%nat) as [Hn|Hn].
  - destruct n as [|k]; [lia|]. cbn [repeat app replaceFrom].
    rewrite exec_LF3.
    change (Js.LF :: repeat Js.LF k ++ rest) with (repeat Js.LF (S k) ++ rest).
    rewrite lead_repeat by assumption. rewrite decide_True by assumption.
    destruct (replaceFrom_skip LF3 (fun _ => [Js.LF; Js.LF]) (repeat Js.LF k)
                (Some Js.LF) rest) as [p Hp].
    rewrite repeat_length in Hp. rewrite Hp, lf3_no_match by assumption.
    replace (S k `min` 2)%nat with 2%nat by lia. reflexivity.
  - replace (n `min` 2)%nat with n by lia.
    apply lf3_no_match.
    assert (Hlead : lead rest = 0%nat) by apply (lead_repeat 0 rest Hr).
    destruct n as [|[|[|n]]]; [assumption| | |lia]; cbn [repeat app].
    + apply noBlankRun_cons; [assumption|]. intros _. lia.
    + apply noBlankRun_cons.
      * apply noBlankRun_cons; [assumption|]. intros _. lia.
      * intros _. cbn [lead]. rewrite N.eqb_refl. lia.
Qed.

(** X5: text with Windows line endings loses its lines: every line
    that ends with a carriage return and a line feed is emptied,
    wherever it stands, and the line feeds left are collapsed to two
    at most; only text after the last line ending is kept. *)
Theorem normalize_crlf_lines_lose_text plainLogs ts rest :
  Forall (Forall (fun c => Js.isLineTerminator c = false)) ts ->
  Forall (fun c => c <> Js.CR /\ c <> Js.LF) rest ->
  (plainLogs = true -> Forall (fun c => c <> Js.ESC) rest) ->
  normalize plainLogs (concat (map (fun t => t ++ [Js.CR; Js.LF]) ts) ++ rest) =
    repeat Js.LF (length ts `min` 2) ++ rest.
Proof.
  intros Hts Hrest Hesc.
  destruct (crlf_lines ts rest) as [Hraw Hshown].
  assert (Hlines : Forall oneLine
                     (map (fun t => Overwritten t []) ts ++ [Written rest])).
  { apply Forall_app. split; [|repeat constructor; assumption].
    apply Forall_fmap. eapply Forall_impl; [exact Hts|].
    intros t Ht. split; [exact Ht|constructor]. }
  rewrite (normalize_after_overwrite plainLogs _ (repeat Js.LF (length ts) ++ rest)).
  - apply lf3_run. eapply Forall_impl; [exact Hrest|]. now intros c [_ Hc].
  - rewrite Hraw, <- Hshown. now apply overwrite_lines.
  - rewrite <- Hshown. now apply shown_no_cr.
  - intros Hp. apply Forall_app. split; [|now apply Hesc].
    apply Forall_forall. intros c Hc. apply list_elem_of_In, repeat_spec in Hc.
    now subst c.
Qed.

End NormalizeChunks.

Lemma normalize_overwritten_lines_witness :
  Runner.normalize true
    (Js.lit "start" ++ [Js.LF] ++ Js.lit "10%" ++ [Js.CR] ++ Js.lit "100%" ++
     [Js.LF] ++ Js.lit "50%" ++ [Js.CR] ++ Js.lit "done") =
  Js.lit "start" ++ [Js.LF] ++ Js.lit "100%" ++ [Js.LF] ++ Js.lit "done".
Proof.
  apply (normalize_overwritten_lines true
           [Written (Js.lit "start");
            Overwritten (Js.lit "10%") (Js.lit "100%");
            Overwritten (Js.lit "50%") (Js.lit "done")]).
  - repeat constructor; vm_compute; congruence.
  - apply noBlankRunb_sound. vm_compute. reflexivity.
  - intros _. repeat constructor; vm_compute; congruence.
Defined.

Lemma normalize_crlf_lines_lose_text_witness :
  Runner.normalize false
    (Js.lit "compiling" ++ [Js.CR; Js.LF] ++ Js.lit "linking" ++ [Js.CR; Js.LF] ++
     Js.lit "error: missing symbol" ++ [Js.CR; Js.LF] ++ Js.lit "1 error") =
  [Js.LF; Js.LF] ++ Js.lit "1 error".
Proof.
  apply (normalize_crlf_lines_lose_text false
           [Js.lit "compiling"; Js.lit "linking"; Js.lit "error: missing symbol"]
           (Js.lit "1 error")).
  - repeat constructor.
  - repeat constructor; vm_compute; congruence.
  - discriminate.
Defined.

(** ** The runner: settlement, spawn and streams *)

Section RunnerMore.

Variable number : Type.
Variable numIsZero : number -> bool.
Variable numZero : number.
Variable JSON_parse : Js.str -> option (json number).
Variable toStr : value number -> option Js.str.
Variable jsAdd : value number -> value number -> option (value number).
Variable expandHomeDir : Js.str -> path.
Variable JSON_stringify :
  option Js.str -> Js.str -> bool -> option effort -> Js.str.
Variable spawnProcess :
  SpawnOptions -> list chunk * completion jserror SpawnResult.

#[local] Abbreviation format :=
  (formatLocalStreamJsonLine number numIsZero numZero JSON_parse toStr jsAdd).
#[local] Abbreviation onChunks' :=
  (onChunks number numIsZero numZero JSON_parse toStr jsAdd).
#[local] Abbreviation runLocal' :=
  (runLocal number numIsZero numZero JSON_parse toStr jsAdd expandHomeDir
     JSON_stringify spawnProcess).
#[local] Abbreviation spawnOptions' := (spawnOptions expandHomeDir JSON_stringify).

(** [CODEMACHINE_PLAIN_LOGS === '1'] *)
#[local] Abbreviation plain proc :=
  (bool_decide (default [] (process_env proc !! "CODEMACHINE_PLAIN_LOGS"%string)
                = Js.lit "1")).

(** What the handlers do with the chunks. *)
Lemma onChunks_projections plainLogs options cs :
  exists evs,
    onChunks' plainLogs options cs = Normal evs /\
    spawns evs = [] /\
    telemetryCalls evs = map (streamData plainLogs) (stdoutChunks cs) /\
    onErrorDataCalls evs =
      (if onErrorData options then map (normalize plainLogs) (stderrChunks cs)
       else []) /\
    onDataCalls evs =
      (if onData options
       then omap (fun text => (fun line => line ++ [Js.LF]) <$>
                                format (streamData plainLogs text))
                 (stdoutChunks cs)
       else []).
Proof.
  induction cs as [|c cs (evs' & E' & Hs & Ht & He & Hd)]; simpl.
  - eexists. split; [reflexivity|]. repeat split; now destruct (onErrorData options), (onData options).
  - destruct c as [text|text]; simpl.
    + unfold onStdout. rewrite E'.
      destruct (format (streamData plainLogs text)) as [line|] eqn:Ef.
      * destruct (format_prefix _ _ _ _ _ _ _ _ Ef) as (p & body & Hp & ->).
        assert (Hne : bool_decide (p ++ body = []) = false).
        { apply bool_decide_eq_false_2. intros Hnil.
          apply app_eq_nil in Hnil as [-> _].
          unfold progressPrefixes in Hp.
          repeat (apply elem_of_cons in Hp as [Hp|Hp]; [discriminate|]).
          now apply elem_of_nil in Hp. }
        rewrite Hne. cbn [negb andb].
        destruct (onData options) eqn:Eo; eexists; (split; [reflexivity|]);
          simpl; rewrite Hs, Ht, He, Hd; repeat split; reflexivity.
      * eexists. split; [reflexivity|]. simpl. rewrite Hs, Ht, He, Hd.
        repeat split; now destruct (onData options).
    + unfold onStderr. rewrite E'.
      destruct (onErrorData options) eqn:Eo; eexists; (split; [reflexivity|]);
        simpl; rewrite Hs, Ht, He, Hd; repeat split; reflexivity.
Qed.

Lemma projections_app (evs evs' : list event) :
  spawns (evs ++ evs') = spawns evs ++ spawns evs' /\
  telemetryCalls (evs ++ evs') = telemetryCalls evs ++ telemetryCalls evs' /\
  onErrorDataCalls (evs ++ evs') = onErrorDataCalls evs ++ onErrorDataCalls evs' /\
  onDataCalls (evs ++ evs') = onDataCalls evs ++ onDataCalls evs'.
Proof. repeat split; apply omap_app. Qed.

(** The effects of a run that reaches the spawn: the spawn, what the
    handlers did, and one closing record. *)
Lemma runLocal_shape proc options :
  prompt options <> [] -> workingDir options <> [] ->
  exists streamed tail r,
    runLocal' proc options = (Spawned (spawnOptions' proc options) :: streamed ++ tail, r) /\
    onChunks' (plain proc) options (spawnProcess (spawnOptions' proc options)).1
      = Normal streamed /\
    spawns tail = [] /\ telemetryCalls tail = [] /\
    onErrorDataCalls tail = [] /\ onDataCalls tail = [].
Proof.
  intros Hp Hw. unfold runLocal.
  rewrite !bool_decide_eq_false_2 by assumption.
  set (o := spawnOptions' proc options).
  destruct (spawnProcess o) as [chunks outcome]. cbn [fst].
  destruct (onChunks_projections (plain proc) options chunks) as (evs & E & _).
  rewrite E.
  destruct outcome as [result|error];
    [destruct (negb _)|destruct (notFound error)];
    first [ now eexists evs, [_], _ | now (eexists evs, [], _; rewrite app_nil_r) ].
Qed.

(** X6: [runLocal] resolves exactly when the prompt and the working
    directory are given and the child exits with code 0; the result
    is then the child's standard output and error as [spawnProcess]
    gave them, not the normalised or decoded text.  A spawn error
    that is not a missing command is thrown on as it is. *)
Theorem runLocal_settlement proc options :
  (forall r,
     (runLocal' proc options).2 = Normal r <->
     prompt options <> [] /\ workingDir options <> [] /\
     exists chunks result,
       spawnProcess (spawnOptions' proc options) = (chunks, Normal result) /\
       exitCode result = 0%Z /\
       r = {| stdout := spawn_stdout result; stderr := spawn_stderr result |}) /\
  (forall chunks error,
     prompt options <> [] -> workingDir options <> [] ->
     spawnProcess (spawnOptions' proc options) = (chunks, Throw error) ->
     notFound error = false ->
     (runLocal' proc options).2 = Throw error).
Proof.
  split.
  - intros r. unfold runLocal.
    destruct (bool_decide_reflect (prompt options = [])) as [Hp|Hp];
      [split; [discriminate|tauto]|].
    destruct (bool_decide_reflect (workingDir options = [])) as [Hw|Hw];
      [split; [discriminate|tauto]|].
    set (o := spawnOptions' proc options).
    destruct (spawnProcess o) as [chunks outcome].
    destruct (onChunks_projections (plain proc) options chunks) as (evs & E & _).
    rewrite E.
    destruct outcome as [result|error].
    + destruct (Z.eqb_spec (exitCode result) 0) as [Hz|Hz]; cbn [negb snd].
      * split.
        -- intros [= <-]. repeat split; try assumption. now exists chunks, result.
        -- intros (_ & _ & chunks' & result' & [= <- <-] & _ & ->). reflexivity.
      * split; [discriminate|].
        intros (_ & _ & chunks' & result' & [= <- <-] & Hz' & _). contradiction.
    + split.
      * destruct (notFound error); discriminate.
      * intros (_ & _ & chunks' & result' & [=] & _).
  - intros chunks error Hp Hw Hs Hnf. unfold runLocal.
    rewrite !bool_decide_eq_false_2 by assumption.
    rewrite Hs.
    destruct (onChunks_projections (plain proc) options chunks) as (evs & E & _).
    rewrite E, Hnf. reflexivity.
Qed.

(** The spawns of a call. *)
Lemma runLocal_spawns_list proc options :
  spawns (runLocal' proc options).1 =
    if bool_decide (prompt options = []) || bool_decide (workingDir options = [])
    then []
    else [spawnOptions' proc options].
Proof.
  destruct (bool_decide_reflect (prompt options = [])) as [Hp|Hp].
  { unfold runLocal. now rewrite bool_decide_eq_true_2. }
  destruct (bool_decide_reflect (workingDir options = [])) as [Hw|Hw].
  { unfold runLocal. rewrite bool_decide_eq_false_2 by assumption.
    now rewrite bool_decide_eq_true_2. }
  destruct (runLocal_shape proc options Hp Hw)
    as (streamed & tail & r & E & Hc & Hs & _).
  rewrite E. cbn [fst orb].
  destruct (onChunks_projections (plain proc) options
              (spawnProcess (spawnOptions' proc options)).1)
    as (evs & E' & Hs' & _).
  rewrite Hc in E'. injection E' as <-.
  change (spawns (Spawned (spawnOptions' proc options) :: streamed ++ tail))
    with (spawnOptions' proc options :: spawns (streamed ++ tail)).
  destruct (projections_app streamed tail) as (-> & _).
  now rewrite Hs, Hs'.
Qed.

(** X7: a call with a prompt and a working directory spawns one
    process: [curl], posting to the responses endpoint of the local
    server with the key of the metadata and reading the body from
    standard input, in the working directory, with the request as
    JSON on standard input, the variables of [options.env] over those
    of the process, [LOCAL_HOME] resolved, piped streams and the
    timeout of the call or 1800000.  A call without prompt or working
    directory spawns nothing. *)
Theorem runLocal_spawns_once proc options :
  (prompt options <> [] -> workingDir options <> [] ->
   exists o,
     spawns (runLocal' proc options).1 = [o] /\
     spawn_command o = Js.lit "curl" /\
     spawn_args o =
       map Js.lit
         ["-ss"; "-X"; "POST"; "-L"; "http://localhost:1234/v1/responses";
          "-H"; "Content-Type: application/json";
          "-H"; "Authorization: Bearer lm-studio";
          "--data-binary"; "@-"]%string /\
     spawn_cwd o = workingDir options /\
     spawn_stdinInput o =
       JSON_stringify (model options) (prompt options) false
         (modelReasoningEffort options) /\
     (forall name,
        env_vars (spawn_env o) !! name =
          match default ∅ (env options) !! name with
          | Some v => Some v
          | None => process_env proc !! name
          end) /\
     env_LOCAL_HOME (spawn_env o) =
       match process_env proc !! "LOCAL_HOME"%string with
       | Some v =>
           if bool_decide (v = [])
           then homedir proc ++ [Js.lit ".codemachine"; Js.lit "local"]
           else expandHomeDir v
       | None => homedir proc ++ [Js.lit ".codemachine"; Js.lit "local"]
       end /\
     spawn_signal o = abortSignal options /\
     spawn_stdioMode o = Js.lit "pipe" /\
     spawn_timeout o = default 1800000%Z (timeout options)) /\
  (prompt options = [] \/ workingDir options = [] ->
   spawns (runLocal' proc options).1 = []).
Proof.
  rewrite runLocal_spawns_list. split.
  - intros Hp Hw. rewrite !bool_decide_eq_false_2 by assumption. cbn [orb].
    eexists. split; [reflexivity|].
    unfold spawnOptions.
    cbn [spawn_command spawn_args spawn_cwd spawn_stdinInput spawn_env
         spawn_signal spawn_stdioMode spawn_timeout env_vars env_LOCAL_HOME].
    split; [reflexivity|]. split; [vm_compute; reflexivity|].
    split; [reflexivity|]. split; [reflexivity|].
    split.
    { intros name. rewrite lookup_union.
      destruct (default ∅ (env options) !! name);
        destruct (process_env proc !! name); reflexivity. }
    split; [|repeat split].
    unfold envTruthy. destruct (process_env proc !! "LOCAL_HOME"%string) as [v|];
      [|reflexivity].
    now destruct (bool_decide (v = [])).
  - intros [H|H].
    + now rewrite (bool_decide_eq_true_2 _ H).
    + rewrite (bool_decide_eq_true_2 (workingDir options = []) H).
      now rewrite orb_true_r.
Qed.

(** X8: every chunk of the child's standard error is handed to
    [onErrorData], normalised, once and in order; nothing else is. *)
Theorem runLocal_forwards_stderr proc options :
  prompt options <> [] -> workingDir options <> [] ->
  onErrorData options = true ->
  onErrorDataCalls (runLocal' proc options).1 =
    map (normalize (plain proc))
      (stderrChunks (spawnProcess (spawnOptions' proc options)).1).
Proof.
  intros Hp Hw Ho.
  destruct (runLocal_shape proc options Hp Hw)
    as (streamed & tail & r & E & Hc & _ & _ & He & _).
  rewrite E. cbn [fst].
  destruct (onChunks_projections (plain proc) options
              (spawnProcess (spawnOptions' proc options)).1)
    as (evs & E' & _ & _ & He' & _).
  rewrite Hc in E'. injection E' as <-.
  change (onErrorDataCalls (Spawned (spawnOptions' proc options) :: streamed ++ tail))
    with (onErrorDataCalls (streamed ++ tail)).
  destruct (projections_app streamed tail) as (_ & _ & -> & _).
  now rewrite He, He', Ho, app_nil_r.
Qed.

Lemma omap_shorter {A B} (f : A -> option B) (l : list A) :
  (length (omap f l) <= length l)%nat.
Proof.
  induction l as [|x l IH]; [reflexivity|].
  cbn [omap list_omap length]. destruct (f x); cbn [length]; lia.
Qed.

(** X9: a chunk of standard output is decoded as a whole: it gives one
    call of [onData] when it formats, none when it does not, in the
    order of the chunks; the telemetry capture sees every chunk. *)
Theorem runLocal_decodes_per_chunk proc options :
  prompt options <> [] -> workingDir options <> [] ->
  onData options = true ->
  let chunks := stdoutChunks (spawnProcess (spawnOptions' proc options)).1 in
  let evs := (runLocal' proc options).1 in
  onDataCalls evs =
    omap (fun text => (fun line => line ++ [Js.LF]) <$>
                        format (streamData (plain proc) text)) chunks /\
  (length (onDataCalls evs) <= length chunks)%nat /\
  telemetryCalls evs = map (streamData (plain proc)) chunks.
Proof.
  intros Hp Hw Ho chunks evs. subst chunks evs.
  destruct (runLocal_shape proc options Hp Hw)
    as (streamed & tail & r & E & Hc & _ & Ht & _ & Hd).
  rewrite E. cbn [fst].
  destruct (onChunks_projections (plain proc) options
              (spawnProcess (spawnOptions' proc options)).1)
    as (evs & E' & _ & Ht' & _ & Hd').
  rewrite Hc in E'. injection E' as <-.
  change (onDataCalls (Spawned (spawnOptions' proc options) :: streamed ++ tail))
    with (onDataCalls (streamed ++ tail)).
  change (telemetryCalls (Spawned (spawnOptions' proc options) :: streamed ++ tail))
    with (telemetryCalls (streamed ++ tail)).
  destruct (projections_app streamed tail) as (_ & -> & _ & ->).
  rewrite Hd, Hd', Ht, Ht', Ho, !app_nil_r.
  split; [reflexivity|]. split; [|reflexivity].
  apply omap_shorter.
Qed.

(** X10: a line that parses to anything but an object -- [null], a
    boolean, a number, a string, an array -- gives no progress line. *)
Theorem format_ignores_non_objects line parsed :
  JSON_parse line = Some parsed ->
  (forall fields, parsed <> JObj number fields) ->
  format line = None.
Proof.
  intros Hp Hobj. unfold formatLocalStreamJsonLine, formatLocalStreamJsonLine_try.
  rewrite Hp. destruct parsed; try reflexivity.
  now destruct (Hobj fields).
Qed.

(** X11: a completed event without [output] gives no progress line,
    also when it carries the token usage: reading [json.output[0]]
    throws and the exception is swallowed. *)
Theorem format_completed_needs_output line fields :
  JSON_parse line = Some (JObj number fields) ->
  lookupField number (Js.lit "status") fields = Some (JStr number (Js.lit "completed")) ->
  lookupField number (Js.lit "output") fields = None \/
  lookupField number (Js.lit "output") fields = Some (JNull number) ->
  format line = None.
Proof.
  intros Hp Hs Ho. unfold formatLocalStreamJsonLine, formatLocalStreamJsonLine_try.
  rewrite Hp. cbn [mbind option_bind get]. rewrite Hs.
  assert (Hc : isStr number "completed" (Some (JStr number (Js.lit "completed"))) = true).
  { unfold isStr. now apply bool_decide_eq_true_2. }
  rewrite Hc. unfold output0Type, output0. cbn [mbind option_bind get].
  destruct Ho as [-> | ->]; reflexivity.
Qed.

End RunnerMore.

Lemma runLocal_settlement_witness :
  (runLocal Z Samples.numIsZero 0%Z Samples.JSON_parse Samples.toStr
     Samples.jsAdd Samples.expandHomeDir Samples.JSON_stringify
     Scenarios.okChild (Samples.proc []) Samples.options).2 =
    Normal {| stdout := Samples.messageLine; stderr := [] |} /\
  (runLocal Z Samples.numIsZero 0%Z Samples.JSON_parse Samples.toStr
     Samples.jsAdd Samples.expandHomeDir Samples.JSON_stringify
     Scenarios.deniedChild (Samples.proc []) Samples.options).2 =
    Throw Scenarios.EACCES.
Proof.
  split.
  - apply (proj1 (runLocal_settlement Z Samples.numIsZero 0%Z Samples.JSON_parse
             Samples.toStr Samples.jsAdd Samples.expandHomeDir
             Samples.JSON_stringify Scenarios.okChild (Samples.proc [])
             Samples.options)).
    split; [vm_compute; discriminate|]. split; [vm_compute; discriminate|].
    eexists _, _. split; [reflexivity|]. split; reflexivity.
  - apply (proj2 (runLocal_settlement Z Samples.numIsZero 0%Z Samples.JSON_parse
             Samples.toStr Samples.jsAdd Samples.expandHomeDir
             Samples.JSON_stringify Scenarios.deniedChild (Samples.proc [])
             Samples.options) []);
      [vm_compute; discriminate | vm_compute; discriminate | reflexivity
      | vm_compute; reflexivity].
Defined.

Lemma runLocal_spawns_once_witness :
  exists o,
    spawns (runLocal Z Samples.numIsZero 0%Z Samples.JSON_parse Samples.toStr
              Samples.jsAdd Samples.expandHomeDir Samples.JSON_stringify
              Samples.failingChild (Samples.proc []) Samples.options).1 = [o] /\
    spawn_command o = Js.lit "curl" /\
    spawn_cwd o = Js.lit "/home/dev/project" /\
    spawn_stdinInput o = Js.lit "write the tests" /\
    env_LOCAL_HOME (spawn_env o) =
      [Js.lit "home"; Js.lit "dev"; Js.lit ".codemachine"; Js.lit "local"] /\
    spawn_timeout o = 1800000%Z.
Proof.
  destruct (proj1 (runLocal_spawns_once Z Samples.numIsZero 0%Z Samples.JSON_parse
                     Samples.toStr Samples.jsAdd Samples.expandHomeDir
                     Samples.JSON_stringify Samples.failingChild (Samples.proc [])
                     Samples.options))
    as (o & Hs & Hcommand & _ & Hcwd & Hin & _ & Hhome & _ & _ & Htimeout);
    [vm_compute; discriminate | vm_compute; discriminate |].
  exists o. split; [exact Hs|]. split; [exact Hcommand|].
  split; [exact Hcwd|]. split; [exact Hin|]. split; [exact Hhome|exact Htimeout].
Defined.

Lemma runLocal_forwards_stderr_witness :
  onErrorDataCalls
    (runLocal Z Samples.numIsZero 0%Z Samples.JSON_parse Samples.toStr
       Samples.jsAdd Samples.expandHomeDir Samples.JSON_stringify
       Samples.failingChild (Samples.proc []) Samples.options).1 =
    [normalize false Samples.twelveLines].
Proof.
  exact (runLocal_forwards_stderr Z Samples.numIsZero 0%Z Samples.JSON_parse
           Samples.toStr Samples.jsAdd Samples.expandHomeDir
           Samples.JSON_stringify Samples.failingChild (Samples.proc [])
           Samples.options
           ltac:(vm_compute; discriminate) ltac:(vm_compute; discriminate)
           eq_refl).
Defined.

Lemma runLocal_decodes_per_chunk_witness :
  let evs :=
    (runLocal Z Samples.numIsZero 0%Z Samples.JSON_parse Samples.toStr
       Samples.jsAdd Samples.expandHomeDir Samples.JSON_stringify
       Samples.failingChild (Samples.proc []) Samples.options).1 in
  (length (onDataCalls evs) <= 2)%nat /\
  telemetryCalls evs = [Samples.messageLine; Js.lit "noise"].
Proof.
  intros evs.
  destruct (runLocal_decodes_per_chunk Z Samples.numIsZero 0%Z Samples.JSON_parse
              Samples.toStr Samples.jsAdd Samples.expandHomeDir
              Samples.JSON_stringify Samples.failingChild (Samples.proc [])
              Samples.options
              ltac:(vm_compute; discriminate) ltac:(vm_compute; discriminate)
              eq_refl) as (_ & Hlen & Htel).
  split; [exact Hlen|].
  etransitivity; [exact Htel|]. vm_compute. reflexivity.
Defined.

Lemma format_ignores_non_objects_witness :
  formatLocalStreamJsonLine Z Samples.numIsZero 0%Z Scenarios.JSON_parse
    Samples.toStr Samples.jsAdd (Js.lit "null") = None.
Proof.
  apply (format_ignores_non_objects Z Samples.numIsZero 0%Z Scenarios.JSON_parse
           Samples.toStr Samples.jsAdd (Js.lit "null") (JNull Z));
    [reflexivity | discriminate].
Defined.

Lemma format_completed_needs_output_witness :
  formatLocalStreamJsonLine Z Samples.numIsZero 0%Z Scenarios.JSON_parse
    Samples.toStr Samples.jsAdd Scenarios.usageLine = None.
Proof.
  eapply (format_completed_needs_output Z Samples.numIsZero 0%Z Scenarios.JSON_parse
            Samples.toStr Samples.jsAdd Scenarios.usageLine);
    [reflexivity | reflexivity | left; reflexivity].
Defined.

(** ** [resolveModel] *)

Lemma mapping_values m v :
  Config.ownProperty m Config.MODEL_MAPPING = Some v -> v = Config.QWEN_3_CODER.
Proof.
  unfold Config.MODEL_MAPPING. cbn [Config.ownProperty].
  repeat case_bool_decide; congruence.
Qed.

Lemma local_model_resolves v :
  v ∈ Config.localModelValues -> Config.resolveModel (Some v) = Config.Model v.
Proof.
  unfold Config.localModelValues. intros H.
  repeat (apply elem_of_cons in H as [->|H]); [vm_compute; reflexivity ..|].
  now apply elem_of_nil in H.
Qed.

Lemma inherited_resolves k :
  k ∈ Config.objectPrototype -> Config.resolveModel (Some k) = Config.Inherited k.
Proof.
  unfold Config.objectPrototype. cbn [map]. intros H.
  repeat (apply elem_of_cons in H as [->|H]); [vm_compute; reflexivity ..|].
  now apply elem_of_nil in H.
Qed.

(** X12: a string [resolveModel] returns is one of the four local
    models: the argument itself, or the Qwen coder model every name
    of the mapping stands for.  The function returns something that
    is not a string exactly for the names every object inherits, such
    as [toString], which [in] finds in the mapping. *)
Theorem resolveModel_range model :
  (forall v, Config.resolveModel model = Config.Model v ->
     v ∈ Config.localModelValues /\
     (model = Some v \/ v = Config.QWEN_3_CODER)) /\
  (forall k, Config.resolveModel model = Config.Inherited k <->
     model = Some k /\ k ∈ Config.objectPrototype).
Proof.
  split.
  - intros v. unfold Config.resolveModel. destruct model as [m|]; [|discriminate].
    case_bool_decide; [discriminate|].
    destruct (Config.ownProperty m Config.MODEL_MAPPING) as [v'|] eqn:E.
    + intros [= <-]. apply mapping_values in E as ->.
      split; [|now right]. unfold Config.localModelValues. repeat constructor.
    + case_bool_decide; [discriminate|].
      case_bool_decide; [|discriminate].
      intros [= <-]. split; [assumption|now left].
  - intros k. split.
    + unfold Config.resolveModel. destruct model as [m|]; [|discriminate].
      case_bool_decide; [discriminate|].
      destruct (Config.ownProperty m Config.MODEL_MAPPING); [discriminate|].
      case_bool_decide; [|case_bool_decide; discriminate].
      intros [= <-]. now split.
    + intros [-> H]. now apply inherited_resolves.
Qed.

(** X13: the names of the local models resolve to themselves, so
    resolving the result of a resolution changes nothing. *)
Theorem resolveModel_idempotent model v :
  Config.resolveModel model = Config.Model v ->
  Config.resolveModel (Some v) = Config.Model v.
Proof.
  intros H. apply local_model_resolves.
  unfold Config.resolveModel in H. destruct model as [m|]; [|discriminate].
  case_bool_decide; [discriminate|].
  destruct (Config.ownProperty m Config.MODEL_MAPPING) as [v'|] eqn:E.
  - injection H as <-. apply mapping_values in E as ->.
    unfold Config.localModelValues. repeat constructor.
  - case_bool_decide; [discriminate|].
    case_bool_decide; [|discriminate].
    now injection H as <-.
Qed.

Lemma resolveModel_range_witness :
  (Config.QWEN_3_CODER ∈ Config.localModelValues /\
   (Some (Js.lit "gpt-4") = Some Config.QWEN_3_CODER \/
    Config.QWEN_3_CODER = Config.QWEN_3_CODER)) /\
  Config.resolveModel (Some (Js.lit "valueOf")) = Config.Inherited (Js.lit "valueOf").
Proof.
  split.
  - apply (proj1 (resolveModel_range (Some (Js.lit "gpt-4")))).
    vm_compute. reflexivity.
  - apply (proj2 (resolveModel_range (Some (Js.lit "valueOf")))).
    split; [reflexivity|]. unfold Config.objectPrototype. cbn [map].
    repeat constructor.
Defined.

Lemma resolveModel_idempotent_witness :
  Config.resolveModel (Some Config.QWEN_3_CODER) = Config.Model Config.QWEN_3_CODER.
Proof.
  apply (resolveModel_idempotent (Some (Js.lit "sonnet"))).
  vm_compute. reflexivity.
Defined.

(** ** More on the [auth] modules *)

Section Keeps.

Context {R : World -> World -> Prop} `{!Reflexive R} `{!Transitive R}.

Lemma keeps_ret {A} (a : A) : keeps R (ret a).
Proof. intros w. reflexivity. Qed.

Lemma keeps_throw {A} e : keeps R (@throw A e).
Proof. intros w. reflexivity. Qed.

Lemma keeps_bind {A B} (m : M A) (k : A -> M B) :
  keeps R m -> (forall a, keeps R (k a)) -> keeps R (bind m k).
Proof.
  intros Hm Hk w. unfold bind. specialize (Hm w).
  destruct (m w) as [[a|e] w1]; cbn [snd] in *; [|assumption].
  etransitivity; [exact Hm|apply Hk].
Qed.

Lemma keeps_tryCatch {A} (m : M A) (h : jserror -> M A) :
  keeps R m -> (forall e, keeps R (h e)) -> keeps R (tryCatch m h).
Proof.
  intros Hm Hh w. unfold tryCatch. specialize (Hm w).
  destruct (m w) as [[a|e] w1]; cbn [snd] in *; [assumption|].
  etransitivity; [exact Hm|apply Hh].
Qed.

Lemma keeps_if {A} (b : bool) (m1 m2 : M A) :
  keeps R m1 -> keeps R m2 -> keeps R (if b then m1 else m2).
Proof. now destruct b. Qed.

End Keeps.

#[local] Instance sameCommands_refl : Reflexive sameCommands.
Proof. intros w. reflexivity. Qed.
#[local] Instance sameCommands_trans : Transitive sameCommands.
Proof. intros w1 w2 w3 H1 H2. unfold sameCommands in *. congruence. Qed.
#[local] Instance sameWrites_refl : Reflexive sameWrites.
Proof. intros w. reflexivity. Qed.
#[local] Instance sameWrites_trans : Transitive sameWrites.
Proof. intros w1 w2 w3 H1 H2. unfold sameWrites in *. congruence. Qed.

Lemma commandsRun_snoc tr o :
  (forall c, o <> OpExeca c) -> commandsRun (tr ++ [o]) = commandsRun tr.
Proof.
  intros H. unfold commandsRun. rewrite omap_app. cbn [omap list_omap].
  destruct o; try apply app_nil_r. now destruct (H c).
Qed.

Lemma filesWritten_snoc tr o :
  (forall p data, o <> OpWriteFile p data) ->
  filesWritten (tr ++ [o]) = filesWritten tr.
Proof.
  intros H. unfold filesWritten. rewrite omap_app. cbn [omap list_omap].
  destruct o; try apply app_nil_r. now destruct (H p data).
Qed.

Lemma liftFs_sameCommands o f :
  (forall c, o <> OpExeca c) -> keeps sameCommands (liftFs o f).
Proof.
  intros H w. unfold liftFs, sameCommands.
  destruct (f (w_fs w)); cbn [snd w_trace]; now apply commandsRun_snoc.
Qed.

Lemma liftFs_sameWrites o f :
  (forall p data, o <> OpWriteFile p data) -> keeps sameWrites (liftFs o f).
Proof.
  intros H w. unfold liftFs, sameWrites.
  destruct (f (w_fs w)); cbn [snd w_trace]; now apply filesWritten_snoc.
Qed.

Lemma log_sameCommands o :
  (forall c, o <> OpExeca c) -> keeps sameCommands (log o).
Proof. intros H w. now apply commandsRun_snoc. Qed.

Lemma log_sameWrites o :
  (forall p data, o <> OpWriteFile p data) -> keeps sameWrites (log o).
Proof. intros H w. now apply filesWritten_snoc. Qed.

(** The rules of [keeps], applied as far as they go. *)
Ltac keeps_step :=
  first
    [ apply keeps_bind; [|intros ?]
    | apply keeps_tryCatch; [|intros ?]
    | apply keeps_ret
    | apply keeps_throw
    | apply keeps_if
    | apply liftFs_sameCommands; discriminate
    | apply liftFs_sameWrites; discriminate
    | apply log_sameCommands; discriminate
    | apply log_sameWrites; discriminate ].

Ltac keeps_all :=
  unfold stat, mkdir, writeFile, rm, rmRecursive, console_error, console_log;
  repeat keeps_step.

Section AuthMore.

Variable expandHomeDir : Js.str -> path.
Variable execa : ExecaCall -> Fs.t -> completion jserror ExecaResult * Fs.t.
Variable claude : EngineMetadata.
Variable pathToString : path -> Js.str.

#[local] Abbreviation localHome proc := (LocalAuth.targetHome expandHomeDir proc None).
#[local] Abbreviation authPath proc := (LocalAuth.getAuthFilePath (localHome proc)).
#[local] Abbreviation configDir proc options :=
  (ClaudeAuth.resolveClaudeConfigDir expandHomeDir proc options).
#[local] Abbreviation credPath proc options :=
  (ClaudeAuth.getCredentialsPath (configDir proc options)).
#[local] Abbreviation localEnsure := (LocalAuth.ensureAuth expandHomeDir execa).
#[local] Abbreviation claudeEnsure :=
  (ClaudeAuth.ensureAuth expandHomeDir execa claude pathToString).

Lemma writeFile_exists p data fs fs' :
  Fs.writeFile p data fs = Normal fs' -> Fs.exists_ fs' p = true.
Proof.
  unfold Fs.writeFile. repeat case_match; try discriminate.
  intros [= <-]. unfold Fs.exists_.
  rewrite (bool_decide_eq_true_2 (is_Some _)); [apply orb_true_r|].
  rewrite lookup_insert_eq. eauto.
Qed.

Lemma post_bind {A B} (m : M A) (k : A -> M B) w (P : completion jserror A -> World -> Prop) Q :
  post m w P ->
  (forall a w1, P (Normal a) w1 -> post (k a) w1 Q) ->
  (forall e w1, P (Throw e) w1 -> Q (Throw e) w1) ->
  post (bind m k) w Q.
Proof.
  unfold post, bind. intros Hm Hk He.
  destruct (m w) as [[a|e] w1]; cbn [fst snd] in *; auto.
Qed.

Lemma post_bind_any {A B} (m : M A) (k : A -> M B) w Q :
  (forall a w1, post (k a) w1 Q) ->
  (forall e w1, Q (Throw e) w1) ->
  post (bind m k) w Q.
Proof.
  intros Hk He. apply (post_bind m k w (fun _ _ => True)); auto. exact I.
Qed.

Lemma post_tryCatch {A} (m : M A) (h : jserror -> M A) w
    (P Q : completion jserror A -> World -> Prop) :
  post m w P ->
  (forall a w1, P (Normal a) w1 -> Q (Normal a) w1) ->
  (forall e w1, P (Throw e) w1 -> post (h e) w1 Q) ->
  post (tryCatch m h) w Q.
Proof.
  unfold post, tryCatch. intros Hm Hk He.
  destruct (m w) as [[a|e] w1]; cbn [fst snd] in *; auto.
Qed.

Lemma post_ret {A} (a : A) w (Q : completion jserror A -> World -> Prop) :
  Q (Normal a) w -> post (ret a) w Q.
Proof. trivial. Qed.

Lemma post_throw {A} e w (Q : completion jserror A -> World -> Prop) :
  Q (Throw e) w -> post (throw e) w Q.
Proof. trivial. Qed.

Lemma post_eq {A} (m : M A) w r w' (Q : completion jserror A -> World -> Prop) :
  post m w Q -> m w = (r, w') -> Q r w'.
Proof. unfold post. intros H E. now rewrite E in H. Qed.

(** The check [try { await stat(p); return true } catch { return
    false }]. *)
Lemma stat_check p w :
  post (tryCatch (stat p ;; ret true) (fun _ => ret false)) w
    (fun r w1 => r = Normal (Fs.exists_ (w_fs w) p) /\ w_fs w1 = w_fs w).
Proof.
  unfold post, tryCatch, bind, stat, liftFs, ret.
  destruct (Fs.exists_ (w_fs w) p); split; reflexivity.
Qed.

Lemma stat_true p w :
  post (stat p ;; ret true) w
    (fun r w1 => forall a, r = Normal a ->
       a = true /\ Fs.exists_ (w_fs w1) p = true).
Proof.
  unfold post, bind, stat, liftFs, ret.
  destruct (Fs.exists_ (w_fs w) p) eqn:E; cbn [fst snd w_fs]; [|discriminate].
  intros a [= <-]. auto.
Qed.

Lemma writeFile_post p data w :
  post (writeFile p data) w
    (fun r w1 => r = Normal tt -> Fs.exists_ (w_fs w1) p = true).
Proof.
  unfold post, writeFile, liftFs.
  destruct (Fs.writeFile p data (w_fs w)) eqn:E; cbn [fst snd w_fs]; [|discriminate].
  intros _. now apply writeFile_exists in E.
Qed.

Lemma resolveLocalHome_post proc w :
  post (LocalAuth.resolveLocalHome expandHomeDir proc None) w
    (fun r _ => forall a, r = Normal a -> a = localHome proc).
Proof.
  unfold post, LocalAuth.resolveLocalHome, bind, mkdir, liftFs, ret.
  destruct (Fs.mkdir _ _); cbn [fst]; congruence.
Qed.

Lemma local_ensureAuth_post proc w :
  post (localEnsure proc) w
    (fun r w' => forall b, r = Normal b ->
       b = true /\ Fs.exists_ (w_fs w') (authPath proc) = true).
Proof.
  unfold LocalAuth.ensureAuth.
  eapply post_bind; [apply resolveLocalHome_post| |discriminate].
  intros home w1 H. specialize (H home eq_refl) as ->.
  eapply post_bind; [apply stat_check| |intros ? ? [? _]; discriminate].
  intros authenticated w2 [HH Hfs].
  assert (authenticated = Fs.exists_ (w_fs w1) (authPath proc)) as ->
    by congruence.
  clear HH. destruct (Fs.exists_ (w_fs w1) (authPath proc)) eqn:Hex.
  { apply post_ret. intros b [= <-]. now rewrite Hfs. }
  destruct (skipAuth proc).
  { eapply post_bind; [apply writeFile_post| |discriminate].
    intros [] w3 H. apply post_ret. intros b [= <-]. auto. }
  apply post_bind_any; [|discriminate].
  intros cliInstalled w3. destruct (negb cliInstalled).
  { apply post_bind_any; [|discriminate]. intros _ w4. apply post_throw. discriminate. }
  apply post_bind_any; [|discriminate]. intros _ w4.
  eapply (post_bind _ _ _ (fun r w5 => r = Normal tt ->
                             Fs.exists_ (w_fs w5) (authPath proc) = true));
    [| |discriminate].
  - unfold post, tryCatch, stat, liftFs.
    destruct (Fs.exists_ (w_fs w4) (authPath proc)) eqn:E; cbn [fst snd w_fs].
    + now intros _.
    + apply writeFile_post.
  - intros [] w5 H. apply post_ret. intros b [= <-]. auto.
Qed.

Lemma claude_ensureAuth_post proc options w :
  post (claudeEnsure proc options) w
    (fun r w' => forall b, r = Normal b ->
       b = true /\
       (ClaudeAuth.hasToken proc = true \/
        Fs.exists_ (w_fs w') (credPath proc options) = true)).
Proof.
  unfold ClaudeAuth.ensureAuth.
  destruct (ClaudeAuth.hasToken proc).
  { apply post_ret. intros b [= <-]. auto. }
  cbv zeta.
  eapply post_bind; [apply stat_check| |intros ? ? [? _]; discriminate].
  intros authenticated w2 [HH Hfs].
  assert (authenticated = Fs.exists_ (w_fs w) (credPath proc options)) as ->
    by congruence.
  clear HH. destruct (Fs.exists_ (w_fs w) (credPath proc options)) eqn:Hex.
  { apply post_ret. intros b [= <-]. rewrite Hfs. auto. }
  destruct (skipAuth proc).
  { apply post_bind_any; [|discriminate]. intros _ w3.
    eapply post_bind; [apply writeFile_post| |discriminate].
    intros [] w4 H. apply post_ret. intros b [= <-]. auto. }
  apply post_bind_any; [|discriminate].
  intros cliInstalled w3. destruct (negb cliInstalled).
  { apply post_bind_any; [|discriminate]. intros _ w4. apply post_throw. discriminate. }
  do 3 (apply post_bind_any; [|discriminate]; intros _ ?).
  eapply post_tryCatch; [apply stat_true| |].
  - intros a w7 H b [= <-]. destruct (H a eq_refl). auto.
  - intros e w7 _. apply post_bind_any; [|discriminate].
    intros _ w8. apply post_throw. discriminate.
Qed.

(** X14: when [ensureAuth] resolves, it resolves with [true], and the
    credential path is then there (for Claude, or the token is set):
    the call has no way to report [false]. *)
Theorem ensureAuth_resolves_authenticated proc options w b w' :
  (localEnsure proc w = (Normal b, w') ->
   b = true /\ Fs.exists_ (w_fs w') (authPath proc) = true) /\
  (claudeEnsure proc options w = (Normal b, w') ->
   b = true /\
   (ClaudeAuth.hasToken proc = true \/
    Fs.exists_ (w_fs w') (credPath proc options) = true)).
Proof.
  split; intros H.
  - now apply (post_eq _ _ _ _ _ (local_ensureAuth_post proc w) H).
  - now apply (post_eq _ _ _ _ _ (claude_ensureAuth_post proc options w) H).
Qed.

Lemma runExeca_local_sameWrites c :
  keeps sameWrites (LocalAuth.runExeca execa c).
Proof.
  intros w. unfold LocalAuth.runExeca, sameWrites.
  destruct (execa c (w_fs w)). cbn [snd w_trace].
  now apply filesWritten_snoc.
Qed.

Lemma runExeca_claude_sameWrites c :
  keeps sameWrites (ClaudeAuth.runExeca execa c).
Proof.
  intros w. unfold ClaudeAuth.runExeca, sameWrites.
  destruct (execa c (w_fs w)). cbn [snd w_trace].
  now apply filesWritten_snoc.
Qed.

(** X15: with [CODEMACHINE_SKIP_AUTH] equal to [1], [ensureAuth] of
    neither provider runs a command, whatever the file system and
    whether or not it succeeds. *)
Theorem ensureAuth_skip_runs_no_command proc options w :
  skipAuth proc = true ->
  commandsRun (w_trace (localEnsure proc w).2) = commandsRun (w_trace w) /\
  commandsRun (w_trace (claudeEnsure proc options w).2) = commandsRun (w_trace w).
Proof.
  intros Hskip. split.
  - change (sameCommands w (localEnsure proc w).2). revert w.
    change (keeps sameCommands (localEnsure proc)).
    unfold LocalAuth.ensureAuth, LocalAuth.resolveLocalHome. rewrite Hskip.
    cbv iota. keeps_all.
  - change (sameCommands w (claudeEnsure proc options w).2). revert w.
    change (keeps sameCommands (claudeEnsure proc options)).
    unfold ClaudeAuth.ensureAuth. rewrite Hskip. cbv iota zeta. keeps_all.
Qed.

(** X16: without the skip flag, [ensureAuth] of the Claude provider
    writes no file itself, whatever the commands it runs do; when the
    login leaves no credential file it fails rather than create
    one. *)
Theorem claude_ensureAuth_writes_nothing proc options w :
  skipAuth proc = false ->
  filesWritten (w_trace (claudeEnsure proc options w).2) = filesWritten (w_trace w).
Proof.
  intros Hskip.
  change (sameWrites w (claudeEnsure proc options w).2). revert w.
  change (keeps sameWrites (claudeEnsure proc options)).
  unfold ClaudeAuth.ensureAuth, ClaudeAuth.isCliInstalled,
    ClaudeAuth.notInstalledNotice, ClaudeAuth.notFoundNotice, ClaudeAuth.tokenNotice.
  rewrite Hskip. cbv iota zeta.
  keeps_all; apply runExeca_claude_sameWrites.
Qed.

(** X17: [isAuthenticated] and [nextAuthMenuAction] of both providers
    run no command and write no file. *)
Theorem status_checks_are_quiet proc options w :
  let quiet (w' : World) :=
    commandsRun (w_trace w') = commandsRun (w_trace w) /\
    filesWritten (w_trace w') = filesWritten (w_trace w) in
  quiet (LocalAuth.isAuthenticated expandHomeDir proc w).2 /\
  quiet (LocalAuth.nextAuthMenuAction expandHomeDir proc w).2 /\
  quiet (ClaudeAuth.isAuthenticated expandHomeDir proc options w).2 /\
  quiet (ClaudeAuth.nextAuthMenuAction expandHomeDir proc options w).2.
Proof.
  intros quiet. subst quiet. cbv beta.
  assert (L1 : keeps sameCommands (LocalAuth.isAuthenticated expandHomeDir proc)).
  { unfold LocalAuth.isAuthenticated, LocalAuth.resolveLocalHome. keeps_all. }
  assert (L2 : keeps sameWrites (LocalAuth.isAuthenticated expandHomeDir proc)).
  { unfold LocalAuth.isAuthenticated, LocalAuth.resolveLocalHome. keeps_all. }
  assert (C1 : keeps sameCommands (ClaudeAuth.isAuthenticated expandHomeDir proc options)).
  { unfold ClaudeAuth.isAuthenticated. keeps_all. }
  assert (C2 : keeps sameWrites (ClaudeAuth.isAuthenticated expandHomeDir proc options)).
  { unfold ClaudeAuth.isAuthenticated. keeps_all. }
  split; [split; [apply L1|apply L2]|].
  split.
  { split.
    - apply (keeps_bind (R := sameCommands)); [exact L1|intros ?; apply keeps_ret].
    - apply (keeps_bind (R := sameWrites)); [exact L2|intros ?; apply keeps_ret]. }
  split; [split; [apply C1|apply C2]|].
  split.
  - apply (keeps_bind (R := sameCommands)); [exact C1|intros ?; apply keeps_ret].
  - apply (keeps_bind (R := sameWrites)); [exact C2|intros ?; apply keeps_ret].
Qed.

Lemma absent_not_dir fs dir name :
  Fs.exists_ fs (dir ++ [name]) = false -> Fs.isDir fs (dir ++ [name]) = false.
Proof.
  rewrite exists_child. intros H. apply bool_decide_eq_false_1 in H.
  unfold Fs.isDir. rewrite !bool_decide_eq_false_2; [reflexivity| |].
  - intros E. apply H. rewrite E. eauto.
  - now destruct dir.
Qed.

Lemma filesWritten_write tr p data :
  filesWritten (tr ++ [OpWriteFile p data]) = filesWritten tr ++ [p].
Proof. unfold filesWritten. now rewrite omap_app. Qed.

(** X18: after a login that succeeds, [ensureAuth] of the local
    provider returns [true]; it keeps the credential file the login
    left and writes the placeholder when the login left none. *)
Theorem local_login_placeholder proc w fs1 res fs2 r2 fs3 :
  skipAuth proc = false ->
  Fs.mkdir (localHome proc) (w_fs w) = Normal fs1 ->
  Fs.exists_ (w_fs w) (authPath proc) = false ->
  execa (mkExeca (md_cliBinary metadata) [Js.lit "version"] None false) fs1
    = (Normal res, fs2) ->
  exe_exitCode res = Some 0%Z ->
  execa (mkExeca (md_cliBinary metadata) [Js.lit "status"]
           (Some ("LOCAL_HOME"%string, localHome proc)) true) fs2
    = (Normal r2, fs3) ->
  Fs.isDir fs3 (localHome proc) = true ->
  exists w',
    localEnsure proc w = (Normal true, w') /\
    w_fs w' = (if Fs.exists_ fs3 (authPath proc) then fs3
               else <[authPath proc := Fs.File PLACEHOLDER]> fs3) /\
    filesWritten (w_trace w') =
      filesWritten (w_trace w) ++
      (if Fs.exists_ fs3 (authPath proc) then [] else [authPath proc]).
Proof.
  intros Hskip H Hex Hprobe Hzero Hlogin Hdir.
  unfold LocalAuth.ensureAuth, LocalAuth.resolveLocalHome, LocalAuth.isCliInstalled,
    LocalAuth.runExeca, bind, tryCatch, mkdir, stat, writeFile, liftFs, ret.
  rewrite H. cbn [w_fs w_trace].
  unfold LocalAuth.getAuthFilePath, path_join in *. cbn [map] in *.
  rewrite exists_child in Hex. rewrite (exists_child _ _ fs1), (mkdir_child _ _ _ _ H), Hex.
  rewrite Hskip. cbn [w_fs w_trace]. rewrite Hprobe.
  rewrite (bool_decide_eq_true_2 _ Hzero). cbn [negb w_fs w_trace].
  rewrite Hlogin. cbn [w_fs w_trace].
  destruct (Fs.exists_ fs3 (localHome proc ++ [Js.lit "auth.json"])) eqn:E3.
  - eexists. split; [reflexivity|]. cbn [w_fs w_trace]. split; [reflexivity|].
    rewrite !filesWritten_snoc by discriminate. now rewrite app_nil_r.
  - cbn [w_fs w_trace]. unfold Fs.writeFile, path_dirname.
    rewrite removelast_last, Hdir.
    rewrite (absent_not_dir _ _ _ E3).
    eexists. split; [reflexivity|]. cbn [w_fs w_trace]. split; [reflexivity|].
    rewrite filesWritten_write.
    rewrite !filesWritten_snoc by discriminate. reflexivity.
Qed.

(** X19: after a login that succeeds and leaves no credential file,
    [ensureAuth] of the Claude provider fails with the request to set
    [CLAUDE_CODE_OAUTH_TOKEN], and leaves the file system as the login
    left it. *)
Theorem claude_login_incomplete proc options w r1 fs2 r2 fs3 :
  skipAuth proc = false ->
  ClaudeAuth.hasToken proc = false ->
  Fs.exists_ (w_fs w) (credPath proc options) = false ->
  execa (mkExeca (md_cliBinary claude) [Js.lit "--version"] None false) (w_fs w)
    = (Normal r1, fs2) ->
  execa (mkExeca (Js.lit "claude") [Js.lit "setup-token"]
           (Some ("CLAUDE_CONFIG_DIR"%string, configDir proc options)) true) fs2
    = (Normal r2, fs3) ->
  Fs.exists_ fs3 (credPath proc options) = false ->
  exists w',
    claudeEnsure proc options w =
      (Throw (newError (Js.lit
         "Authentication incomplete. Please set CLAUDE_CODE_OAUTH_TOKEN environment variable.")),
       w') /\
    w_fs w' = fs3 /\
    ConsoleError (Js.lit "  export CLAUDE_CODE_OAUTH_TOKEN=<your-token>" ++ [Js.LF])
      ∈ w_trace w'.
Proof.
  intros Hskip Htok Hex Hprobe Hlogin Hex3.
  unfold ClaudeAuth.ensureAuth, ClaudeAuth.isCliInstalled, ClaudeAuth.runExeca,
    bind, tryCatch, stat, liftFs, ret, console_log, log.
  rewrite Htok. cbn [w_fs w_trace]. rewrite Hex, Hskip. cbn [w_fs w_trace].
  rewrite Hprobe. cbn [negb w_fs w_trace]. rewrite Hlogin. cbn [w_fs w_trace].
  rewrite Hex3.
  eexists. split; [reflexivity|]. cbn [w_fs w_trace]. split; [reflexivity|].
  in_trace.
Qed.

Lemma removed_other p q fs : p <> q -> removed p fs !! q = fs !! q.
Proof.
  intros Hne. unfold removed. repeat case_match; try reflexivity.
  now apply lookup_delete_ne.
Qed.

Lemma removed_dir p q fs :
  fs !! q = Some Fs.Dir -> removed p fs !! q = Some Fs.Dir.
Proof.
  intros H. destruct (decide (p = q)) as [->|Hne].
  - unfold removed. now rewrite H.
  - now rewrite removed_other.
Qed.

(** What is left at [p] once [p] was removed. *)
Lemma removed_at p fs :
  p <> [] ->
  is_Some (removed p fs !! p) <-> fs !! p = Some Fs.Dir.
Proof.
  intros Hne. unfold removed. destruct (fs !! p) as [[content|]|] eqn:E.
  - rewrite bool_decide_eq_false_2 by assumption. rewrite lookup_delete_eq.
    split; [intros [? [=]]|discriminate].
  - rewrite E. split; eauto.
  - rewrite E. split; [intros [? [=]]|discriminate].
Qed.

Lemma foldl_removed_other paths : forall fs q,
  q ∉ paths -> foldl (fun fs p => removed p fs) fs paths !! q = fs !! q.
Proof.
  induction paths as [|p paths IH]; intros fs q Hq; [reflexivity|].
  cbn [foldl]. apply not_elem_of_cons in Hq as [Hne Hq].
  rewrite IH by assumption. apply removed_other. congruence.
Qed.

Lemma foldl_removed_dir paths : forall fs q,
  fs !! q = Some Fs.Dir ->
  foldl (fun fs p => removed p fs) fs paths !! q = Some Fs.Dir.
Proof.
  induction paths as [|p paths IH]; intros fs q Hq; [assumption|].
  cbn [foldl]. apply IH. now apply removed_dir.
Qed.

Lemma foldl_removed_lookup paths : forall fs q,
  foldl (fun fs p => removed p fs) fs paths !! q = fs !! q \/
  foldl (fun fs p => removed p fs) fs paths !! q = None.
Proof.
  induction paths as [|p paths IH]; intros fs q; [now left|].
  cbn [foldl]. destruct (IH (removed p fs) q) as [->| ->]; [|now right].
  apply removed_lookup.
Qed.

(** X20: [clearAuth] of the Claude provider never fails.  It removes
    the three credential files and nothing else; a directory in the
    place of one stays, so that [isAuthenticated] afterwards is
    [true] exactly when the token is set or the credential path is a
    directory.  A second call changes nothing. *)
Theorem claude_clearAuth_spec proc options w :
  let paths := ClaudeAuth.getClaudeAuthPaths (configDir proc options) in
  let still :=
    ClaudeAuth.hasToken proc ||
    bool_decide (w_fs w !! credPath proc options = Some Fs.Dir) in
  exists w1,
    ClaudeAuth.clearAuth expandHomeDir proc options w = (Normal tt, w1) /\
    (forall p content, p ∈ paths -> w_fs w1 !! p <> Some (Fs.File content)) /\
    (forall p, p ∉ paths -> w_fs w1 !! p = w_fs w !! p) /\
    (forall p, w_fs w !! p = Some Fs.Dir -> w_fs w1 !! p = Some Fs.Dir) /\
    (ClaudeAuth.isAuthenticated expandHomeDir proc options w1).1 = Normal still /\
    (ClaudeAuth.nextAuthMenuAction expandHomeDir proc options w1).1 =
      Normal (if still then ClaudeAuth.logout else ClaudeAuth.login) /\
    exists w2,
      ClaudeAuth.clearAuth expandHomeDir proc options w1 = (Normal tt, w2) /\
      w_fs w2 = w_fs w1.
Proof.
  intros paths still.
  destruct (claude_clearAuth_idempotent expandHomeDir proc options w)
    as (w1 & w2 & E1 & E2 & Hsame).
  exists w1. split; [exact E1|].
  assert (Hfs : w_fs w1 = foldl (fun fs p => removed p fs) (w_fs w) paths).
  { unfold ClaudeAuth.clearAuth in E1.
    destruct (removeAll_spec paths w) as (w1' & E1' & Hfs).
    fold paths in E1. congruence. }
  assert (Hne : Forall (fun p : path => p <> []) paths).
  { subst paths. unfold ClaudeAuth.getClaudeAuthPaths, ClaudeAuth.getCredentialsPath,
      path_join. cbn [map].
    repeat constructor; now destruct (configDir proc options). }
  assert (Hfiles : forall p content, p ∈ paths -> w_fs w1 !! p <> Some (Fs.File content)).
  { intros p content Hp. rewrite Hfs. now apply foldl_removed_all. }
  assert (Hstill : Fs.exists_ (w_fs w1) (credPath proc options) =
                   bool_decide (w_fs w !! credPath proc options = Some Fs.Dir)).
  { assert (Hin : credPath proc options ∈ paths) by (subst paths; left).
    unfold ClaudeAuth.getCredentialsPath, path_join in *. cbn [map] in *.
    rewrite exists_child. apply bool_decide_ext. split.
    - intros [n Hn].
      destruct n as [content|]; [now destruct (Hfiles _ content Hin)|].
      destruct (foldl_removed_lookup paths (w_fs w)
                  (configDir proc options ++ [Js.lit ".credentials.json"]))
        as [E|E]; rewrite <- Hfs in E; congruence.
    - intros Hd. rewrite Hfs, (foldl_removed_dir _ _ _ Hd). eauto. }
  assert (Hauth : (ClaudeAuth.isAuthenticated expandHomeDir proc options w1).1
                  = Normal still).
  { destruct (claude_isAuthenticated_ok expandHomeDir proc options w1) as (w' & -> & _).
    cbn [fst]. subst still. now rewrite Hstill. }
  split; [exact Hfiles|].
  split; [intros p Hp; rewrite Hfs; now apply foldl_removed_other|].
  split; [intros p Hp; rewrite Hfs; now apply foldl_removed_dir|].
  split; [exact Hauth|].
  split; [|now exists w2].
  unfold ClaudeAuth.nextAuthMenuAction, bind.
  destruct (ClaudeAuth.isAuthenticated expandHomeDir proc options w1) as [r w'].
  cbn [fst] in Hauth. now rewrite Hauth.
Qed.

(** X21: where its home can be created, [clearAuth] of the local
    provider returns and leaves no credential file; [isAuthenticated]
    afterwards is [true] only when the credential path is a
    directory, which [rm] does not remove.  A second call returns too
    and changes nothing. *)
Theorem local_clearAuth_round_trip proc w :
  creatable (w_fs w) (localHome proc) ->
  let still := bool_decide (w_fs w !! authPath proc = Some Fs.Dir) in
  exists w1,
    LocalAuth.clearAuth expandHomeDir proc w = (Normal tt, w1) /\
    (forall content, w_fs w1 !! authPath proc <> Some (Fs.File content)) /\
    (LocalAuth.isAuthenticated expandHomeDir proc w1).1 = Normal still /\
    (LocalAuth.nextAuthMenuAction expandHomeDir proc w1).1 =
      Normal (if still then LocalAuth.logout else LocalAuth.login) /\
    exists w2,
      LocalAuth.clearAuth expandHomeDir proc w1 = (Normal tt, w2) /\
      w_fs w2 = w_fs w1.
Proof.
  intros Hc still. destruct (creatable_mkdir _ _ Hc) as [fs1 H].
  assert (Hp : authPath proc <> []).
  { unfold LocalAuth.getAuthFilePath, path_join. cbn [map].
    now destruct (localHome proc). }
  assert (E1 : LocalAuth.clearAuth expandHomeDir proc w =
               (Normal tt,
                {| w_fs := removed (authPath proc) fs1;
                   w_trace := (w_trace w ++ [OpMkdir (localHome proc)]) ++
                              [OpRm (authPath proc)] |})).
  { unfold LocalAuth.clearAuth, LocalAuth.resolveLocalHome.
    unfold bind at 1 2, mkdir, liftFs, ret. rewrite H.
    now rewrite rm_swallowed. }
  eexists. split; [exact E1|]. cbn [w_fs].
  split; [intros content; now apply removed_no_file|].
  destruct (clear_twice (localHome proc) (Js.lit "auth.json") (w_fs w) fs1 H)
    as [Hmk _].
  change (localHome proc ++ [Js.lit "auth.json"]) with (authPath proc) in Hmk.
  assert (Hauth : (LocalAuth.isAuthenticated expandHomeDir proc
                     {| w_fs := removed (authPath proc) fs1;
                        w_trace := (w_trace w ++ [OpMkdir (localHome proc)]) ++
                                   [OpRm (authPath proc)] |}).1 = Normal still).
  { rewrite (local_isAuthenticated_ok expandHomeDir proc
               {| w_fs := removed (authPath proc) fs1;
                  w_trace := (w_trace w ++ [OpMkdir (localHome proc)]) ++
                             [OpRm (authPath proc)] |} _ Hmk).
    cbn [fst w_fs].
    f_equal. subst still.
    unfold LocalAuth.getAuthFilePath, path_join in *. cbn [map] in *.
    rewrite exists_child. apply bool_decide_ext.
    rewrite removed_at by assumption. now rewrite (mkdir_child _ _ _ _ H). }
  split; [exact Hauth|].
  split.
  - unfold LocalAuth.nextAuthMenuAction, bind.
    destruct (LocalAuth.isAuthenticated expandHomeDir proc _) as [r w'].
    cbn [fst] in Hauth. now rewrite Hauth.
  - apply (local_clearAuth_idempotent expandHomeDir proc w). exact E1.
Qed.

End AuthMore.

Lemma ensureAuth_resolves_authenticated_witness :
  let proc := Samples.proc [("CODEMACHINE_SKIP_AUTH"%string, Js.lit "1")] in
  (exists w',
     Fs.exists_ (w_fs w')
       (LocalAuth.getAuthFilePath
          (LocalAuth.targetHome Samples.expandHomeDir proc None)) = true) /\
  (exists w',
     ClaudeAuth.hasToken proc = true \/
     Fs.exists_ (w_fs w')
       (ClaudeAuth.getCredentialsPath
          (ClaudeAuth.resolveClaudeConfigDir Samples.expandHomeDir proc None)) = true).
Proof.
  intros proc. split.
  - destruct (local_ensureAuth_skip Samples.expandHomeDir Samples.execa proc
                (Samples.world Samples.bare)) as (fs' & E & _);
      [reflexivity | vm_compute; reflexivity | apply bare_creatable |].
    eexists.
    exact (proj2 (proj1 (ensureAuth_resolves_authenticated Samples.expandHomeDir
                           Samples.execa (md_base metadata) (fun _ => []) proc None
                           _ _ _) E)).
  - destruct (claude_ensureAuth_skip Samples.expandHomeDir Samples.execa
                (md_base metadata) (fun _ => []) proc None
                (Samples.world Samples.bare)) as (fs' & E & _);
      [reflexivity | reflexivity | vm_compute; reflexivity | apply bare_creatable |].
    eexists.
    exact (proj2 (proj2 (ensureAuth_resolves_authenticated Samples.expandHomeDir
                           Samples.execa (md_base metadata) (fun _ => []) proc None
                           _ _ _) E)).
Defined.

Lemma ensureAuth_skip_runs_no_command_witness :
  let proc := Samples.proc [("CODEMACHINE_SKIP_AUTH"%string, Js.lit "1")] in
  let w := Samples.world Samples.blocked in
  commandsRun (w_trace (LocalAuth.ensureAuth Samples.expandHomeDir
                          Scenarios.execaOk proc w).2) = [] /\
  commandsRun (w_trace (ClaudeAuth.ensureAuth Samples.expandHomeDir
                          Scenarios.execaOk (md_base metadata) (fun _ => [])
                          proc None w).2) = [].
Proof.
  intros proc w.
  apply (ensureAuth_skip_runs_no_command Samples.expandHomeDir Scenarios.execaOk
           (md_base metadata) (fun _ => []) proc None w).
  reflexivity.
Defined.

Lemma claude_ensureAuth_writes_nothing_witness :
  filesWritten
    (w_trace (ClaudeAuth.ensureAuth Samples.expandHomeDir Scenarios.execaOk
                (md_base metadata) (fun _ => []) (Samples.proc []) None
                (Samples.world Samples.bare)).2) = [].
Proof.
  apply (claude_ensureAuth_writes_nothing Samples.expandHomeDir Scenarios.execaOk
           (md_base metadata) (fun _ => []) (Samples.proc []) None
           (Samples.world Samples.bare)).
  reflexivity.
Defined.

Lemma local_login_placeholder_witness :
  let proc := Samples.proc [] in
  let authPath := LocalAuth.getAuthFilePath
                    (LocalAuth.targetHome Samples.expandHomeDir proc None) in
  exists fs3 w',
    LocalAuth.ensureAuth Samples.expandHomeDir Scenarios.execaOk proc
      (Samples.world Samples.bare) = (Normal true, w') /\
    w_fs w' = (if Fs.exists_ fs3 authPath then fs3
               else <[authPath := Fs.File PLACEHOLDER]> fs3) /\
    filesWritten (w_trace w') =
      [] ++ (if Fs.exists_ fs3 authPath then [] else [authPath]).
Proof.
  intros proc authPath.
  destruct (creatable_mkdir Samples.bare
              (LocalAuth.targetHome Samples.expandHomeDir proc None)
              (bare_creatable _)) as [fs1 H].
  exists fs1.
  eapply (local_login_placeholder Samples.expandHomeDir Scenarios.execaOk proc
           (Samples.world Samples.bare) fs1 _ fs1 _ fs1);
    [ reflexivity | exact H | vm_compute; reflexivity | reflexivity | reflexivity
    | reflexivity | exact (mkdir_isDir _ _ _ H) ].
Defined.

Lemma claude_login_incomplete_witness :
  exists w',
    ClaudeAuth.ensureAuth Samples.expandHomeDir Scenarios.execaOk
      (md_base metadata) (fun _ => []) (Samples.proc []) None
      (Samples.world Samples.bare) =
      (Throw (newError (Js.lit
         "Authentication incomplete. Please set CLAUDE_CODE_OAUTH_TOKEN environment variable.")),
       w') /\
    w_fs w' = Samples.bare /\
    ConsoleError (Js.lit "  export CLAUDE_CODE_OAUTH_TOKEN=<your-token>" ++ [Js.LF])
      ∈ w_trace w'.
Proof.
  eapply (claude_login_incomplete Samples.expandHomeDir Scenarios.execaOk
           (md_base metadata) (fun _ => []) (Samples.proc []) None
           (Samples.world Samples.bare) _ Samples.bare _ Samples.bare);
    [ reflexivity | reflexivity | vm_compute; reflexivity | reflexivity
    | reflexivity | vm_compute; reflexivity ].
Defined.

Lemma local_clearAuth_round_trip_witness :
  let proc := Samples.proc [] in
  exists w1,
    LocalAuth.clearAuth Samples.expandHomeDir proc (Samples.world Samples.bare)
      = (Normal tt, w1) /\
    (LocalAuth.nextAuthMenuAction Samples.expandHomeDir proc w1).1
      = Normal LocalAuth.login.
Proof.
  intros proc.
  destruct (local_clearAuth_round_trip Samples.expandHomeDir proc
              (Samples.world Samples.bare) (bare_creatable _))
    as (w1 & E & _ & _ & Hmenu & _).
  exists w1. split; [exact E|exact Hmenu].
Defined.

(** ** The package root *)

Lemma prefix_removelast (p c : path) :
  p `prefix_of` c -> p = c \/ p `prefix_of` removelast c.
Proof.
  intros [k E]. destruct k as [|y k _] using rev_ind.
  - left. now rewrite app_nil_r in E.
  - right. subst c. rewrite app_assoc, removelast_last. now exists k.
Qed.

Lemma removelast_prefix (c : path) : removelast c `prefix_of` c.
Proof.
  destruct c as [|x c _] using rev_ind; [reflexivity|].
  rewrite removelast_last. now exists [x].
Qed.

Lemma removelast_fixed (c : path) : removelast c = c -> c = [].
Proof.
  destruct c as [|x c _] using rev_ind; [reflexivity|].
  rewrite removelast_last. intros E. apply (f_equal length) in E.
  rewrite length_app in E. simpl in E. lia.
Qed.

(** The search from [current]: the nearest directory with a
    [package.json], or the module directory when there is none up to
    the root. *)
Lemma climb_spec fs moduleDir : forall fuel current,
  (length current < fuel)%nat ->
  let root := TemplatesCommand.climb fuel fs moduleDir current in
  (root = moduleDir /\
   forall p, p `prefix_of` current ->
     Fs.exists_ fs (p ++ [Js.lit "package.json"]) = false) \/
  (root `prefix_of` current /\
   Fs.exists_ fs (root ++ [Js.lit "package.json"]) = true /\
   forall p, p `prefix_of` current ->
     Fs.exists_ fs (p ++ [Js.lit "package.json"]) = true ->
     (length p <= length root)%nat).
Proof.
  induction fuel as [|fuel IH]; intros current Hlen; [lia|].
  cbn [TemplatesCommand.climb]. unfold path_join, path_dirname. cbn [map].
  destruct (Fs.exists_ fs (current ++ [Js.lit "package.json"])) eqn:E.
  { right. split; [reflexivity|]. split; [assumption|].
    intros p Hp _. now apply prefix_length. }
  case_bool_decide as Hroot.
  { left. split; [reflexivity|]. apply removelast_fixed in Hroot. subst current.
    intros p Hp. apply prefix_nil_inv in Hp. now subst p. }
  assert (Hshorter : (length (removelast current) < fuel)%nat).
  { destruct current as [|x c _] using rev_ind; [now destruct Hroot|].
    rewrite removelast_last. rewrite length_app in Hlen. simpl in Hlen. lia. }
  destruct (IH (removelast current) Hshorter) as [[Hr Hnone]|(Hpre & Hpkg & Hnear)].
  - left. split; [assumption|]. intros p Hp.
    destruct (prefix_removelast _ _ Hp) as [->|Hp']; auto.
  - right. split; [|split; [assumption|]].
    + etransitivity; [exact Hpre|apply removelast_prefix].
    + intros p Hp Hex. destruct (prefix_removelast _ _ Hp) as [->|Hp']; [congruence|].
      now apply Hnear.
Qed.

(** X22: the package root is the nearest directory at or above the
    module directory that holds a [package.json]; when there is none
    up to the root of the file system it is the module directory
    itself. *)
Theorem packageRoot_nearest fs moduleDir :
  let root := TemplatesCommand.packageRoot fs moduleDir in
  let package p := Fs.exists_ fs (p ++ [Js.lit "package.json"]) in
  root `prefix_of` moduleDir /\
  (forall p, p `prefix_of` moduleDir -> package p = true ->
     package root = true /\ (length p <= length root)%nat) /\
  ((forall p, p `prefix_of` moduleDir -> package p = false) -> root = moduleDir).
Proof.
  intros root package. subst root package. cbv beta.
  unfold TemplatesCommand.packageRoot.
  destruct (climb_spec fs moduleDir (S (length moduleDir)) moduleDir)
    as [[Hr Hnone]|(Hpre & Hpkg & Hnear)]; [lia| |].
  - rewrite Hr. split; [reflexivity|]. split; [|reflexivity].
    intros p Hp Hex. rewrite Hnone in Hex by assumption. discriminate.
  - split; [assumption|]. split; [auto|].
    intros Hnone. rewrite Hnone in Hpkg by assumption. discriminate.
Qed.

(** ** The listing of the templates *)

Lemma readdirSync_spec dir w :
  (forall content, w_fs w !! dir <> Some (Fs.File content)) ->
  exists names,
    readdirSync dir w = (Normal names, w) /\
    forall file, file ∈ names <-> is_Some (w_fs w !! (dir ++ [file])).
Proof.
  intros Hdir. unfold readdirSync.
  eexists. split.
  { destruct (w_fs w !! dir) as [[content|]|] eqn:E; try reflexivity.
    now destruct (Hdir content). }
  intros file. rewrite list_elem_of_omap. split.
  - intros ([k n] & Hin & Hf). apply elem_of_map_to_list in Hin. cbn [fst] in Hf.
    case_bool_decide as Hk; [|discriminate].
    apply last_Some in Hf as [l' ->]. rewrite removelast_last in Hk. subst l'.
    eauto.
  - intros [n Hn]. exists (dir ++ [file], n). split.
    + now apply elem_of_map_to_list.
    + cbn [fst]. rewrite removelast_last, bool_decide_eq_true_2 by reflexivity.
      apply last_snoc.
Qed.

Section TemplatesCommandFacts.

Variable unknown : Type.
Variable loadWorkflowModule : path -> Fs.t -> completion jserror unknown.
Variable isWorkflowTemplate : unknown -> option Templates.WorkflowTemplate.
Variable localeLe : Js.str -> Js.str -> bool.
Variable inspect : jserror -> Js.str.
Variable errorText : jserror -> Js.str.
Variable toPath : Js.str -> path.
Variable relative : path -> path -> Js.str.
Variable hasTemplateChanged : path -> Js.str -> Fs.t -> completion jserror bool.
Variable setActiveTemplate : path -> Js.str -> Fs.t -> completion jserror Fs.t.
Variable bootstrapWorkspace : path -> path -> Fs.t -> completion jserror Fs.t.

#[local] Abbreviation collect :=
  (TemplatesCommand.collect unknown loadWorkflowModule isWorkflowTemplate inspect).
#[local] Abbreviation sortByTitle := (TemplatesCommand.sortByTitle localeLe).
#[local] Abbreviation insertByTitle := (TemplatesCommand.insertByTitle localeLe).
#[local] Abbreviation getAvailableTemplates :=
  (TemplatesCommand.getAvailableTemplates unknown loadWorkflowModule
     isWorkflowTemplate localeLe inspect).
#[local] Abbreviation selectTemplateByNumber :=
  (TemplatesCommand.selectTemplateByNumber unknown loadWorkflowModule
     isWorkflowTemplate localeLe inspect errorText toPath relative
     hasTemplateChanged setActiveTemplate bootstrapWorkspace).
#[local] Abbreviation handle :=
  (Templates.handleTemplateSelectionSuccess toPath relative hasTemplateChanged
     setActiveTemplate bootstrapWorkspace).

#[local] Abbreviation offers := (offers loadWorkflowModule isWorkflowTemplate).

Lemma collect_spec dir : forall files acc w,
  exists out w',
    collect dir files acc w = (Normal (acc ++ out), w') /\
    w_fs w' = w_fs w /\
    forall c, c ∈ out <-> exists file, file ∈ files /\ offers dir (w_fs w) file c.
Proof.
  induction files as [|file files IH]; intros acc w.
  { exists [], w. split; [cbn; now rewrite app_nil_r|]. split; [reflexivity|].
    intros c. split; [intros H; now apply elem_of_nil in H|].
    intros (file & H & _). now apply elem_of_nil in H. }
  cbn [TemplatesCommand.collect].
  unfold bind at 1, tryCatch, TemplatesCommand.load.
  unfold bind at 1, ret at 1.
  destruct (loadWorkflowModule (dir ++ [file]) (w_fs w)) as [u|e] eqn:El.
  - destruct (isWorkflowTemplate u) as [t|] eqn:Et.
    + destruct (IH (acc ++ [TemplatesCommand.choiceOf dir file t]) w)
        as (out & w' & E & Hfs & Hout).
      exists (TemplatesCommand.choiceOf dir file t :: out), w'.
      split; [rewrite E; f_equal; f_equal; now rewrite <- app_assoc|].
      split; [assumption|]. intros c. rewrite elem_of_cons, Hout. split.
      * intros [->|(f & Hf & Ho)].
        -- exists file. split; [left|]. now exists u, t.
        -- exists f. split; [now right|assumption].
      * intros (f & Hf & Ho). apply elem_of_cons in Hf as [->|Hf]; [|eauto].
        left. destruct Ho as (u' & t' & El' & Et' & ->). congruence.
    + destruct (IH acc w) as (out & w' & E & Hfs & Hout).
      exists out, w'. split; [assumption|]. split; [assumption|].
      intros c. rewrite Hout. split.
      * intros (f & Hf & Ho). exists f. split; [now right|assumption].
      * intros (f & Hf & Ho). apply elem_of_cons in Hf as [->|Hf]; [|eauto].
        destruct Ho as (u' & t' & El' & Et' & ->). congruence.
  - unfold bind at 1, console_error, log, ret. cbn [w_fs w_trace].
    set (w1 := {| w_fs := w_fs w; w_trace := _ |}).
    destruct (IH acc w1) as (out & w' & E & Hfs & Hout).
    exists out, w'. split; [assumption|]. split; [assumption|].
    intros c. rewrite Hout. cbn [w_fs]. split.
    + intros (f & Hf & Ho). exists f. split; [now right|assumption].
    + intros (f & Hf & Ho). apply elem_of_cons in Hf as [->|Hf]; [|eauto].
      destruct Ho as (u' & t' & El' & Et' & ->). congruence.
Qed.

Lemma insertByTitle_perm c l : insertByTitle c l ≡ₚ c :: l.
Proof.
  induction l as [|d l IH]; [reflexivity|]. cbn [TemplatesCommand.insertByTitle].
  destruct (localeLe _ _); [reflexivity|].
  rewrite IH. apply Permutation_swap.
Qed.

Lemma sortByTitle_perm l : sortByTitle l ≡ₚ l.
Proof.
  induction l as [|c l IH]; [reflexivity|].
  unfold TemplatesCommand.sortByTitle in *. cbn [foldr].
  now rewrite insertByTitle_perm, IH.
Qed.

Lemma getAvailableTemplates_run templatesDir w :
  let w0 := {| w_fs := w_fs w;
               w_trace := w_trace w ++ [OpExistsSync templatesDir] |} in
  (Fs.exists_ (w_fs w) templatesDir = false /\
   getAvailableTemplates templatesDir w = (Normal [], w0)) \/
  ((exists content, w_fs w !! templatesDir = Some (Fs.File content)) /\
   getAvailableTemplates templatesDir w = (Throw (Fs.code "ENOTDIR"), w0)) \/
  (Fs.exists_ (w_fs w) templatesDir = true /\
   (forall content, w_fs w !! templatesDir <> Some (Fs.File content)) /\
   exists out w',
     getAvailableTemplates templatesDir w = (Normal (sortByTitle out), w') /\
     w_fs w' = w_fs w /\
     forall c, c ∈ out <->
       exists file,
         is_Some (w_fs w !! (templatesDir ++ [file])) /\
         endsWith (Js.lit ".workflow.js") file = true /\
         offers templatesDir (w_fs w) file c).
Proof.
  intros w0. unfold TemplatesCommand.getAvailableTemplates, bind, existsSync.
  fold w0. assert (Hw0 : w_fs w0 = w_fs w) by reflexivity.
  destruct (Fs.exists_ (w_fs w) templatesDir) eqn:Hex; cbn [negb];
    [|left; split; reflexivity].
  right.
  destruct (w_fs w !! templatesDir) as [[content|]|] eqn:Edir.
  { left. split; [eauto|]. unfold readdirSync. now rewrite Hw0, Edir. }
  all: right; split; [reflexivity|]; split; [intros content; discriminate|].
  all: destruct (readdirSync_spec templatesDir w0) as (names & -> & Hnames);
    [rewrite Hw0; intros content; congruence|].
  all: destruct (collect_spec templatesDir
                   (filter (fun file => endsWith (Js.lit ".workflow.js") file = true)
                      names) [] w0) as (out & w' & -> & Hfs & Hout).
  all: exists out, w'; split; [reflexivity|]; split; [assumption|].
  all: rewrite Hw0 in *.
  all: intros c; rewrite Hout; split.
  all: try (intros (file & Hf & Ho); apply list_elem_of_filter in Hf as [Hend Hf];
            apply Hnames in Hf; now exists file).
  all: intros (file & Hf & Hend & Ho); exists file; split; [|assumption];
    apply list_elem_of_filter; split; [assumption|]; now apply Hnames.
Qed.

(** X23: [getAvailableTemplates] leaves the file system as it is and
    lists exactly the entries of the templates directory whose name
    ends in [.workflow.js] and that load as a workflow template, each
    with its path as the value. *)
Theorem getAvailableTemplates_lists templatesDir w choices :
  (getAvailableTemplates templatesDir w).1 = Normal choices ->
  w_fs (getAvailableTemplates templatesDir w).2 = w_fs w /\
  forall c,
    c ∈ choices <->
    Fs.exists_ (w_fs w) templatesDir = true /\
    exists file,
      is_Some (w_fs w !! (templatesDir ++ [file])) /\
      endsWith (Js.lit ".workflow.js") file = true /\
      offers templatesDir (w_fs w) file c.
Proof.
  destruct (getAvailableTemplates_run templatesDir w)
    as [[Hex ->]|[[_ ->]|(Hex & _ & out & w' & -> & Hfs & Hout)]]; cbn [fst snd].
  - intros [= <-]. split; [reflexivity|]. intros c. split.
    + intros H. now apply elem_of_nil in H.
    + intros [Hex' _]. congruence.
  - discriminate.
  - intros [= <-]. split; [assumption|]. intros c.
    rewrite sortByTitle_perm, Hout. split; [now split|now intros [_ ?]].
Qed.

(** X24: the listing fails only where the templates directory is a
    regular file; a template that does not load is skipped, it does
    not make the listing fail.  Where the directory is missing the
    list is empty. *)
Theorem getAvailableTemplates_settles templatesDir w :
  ((exists error, (getAvailableTemplates templatesDir w).1 = Throw error) <->
   exists content, w_fs w !! templatesDir = Some (Fs.File content)) /\
  (Fs.exists_ (w_fs w) templatesDir = false ->
   (getAvailableTemplates templatesDir w).1 = Normal []).
Proof.
  destruct (getAvailableTemplates_run templatesDir w)
    as [[Hex ->]|[[Hfile ->]|(Hex & Hnf & out & w' & -> & Hfs & Hout)]]; cbn [fst].
  - split; [|reflexivity]. split; [intros [? [=]]|].
    intros [content E]. unfold Fs.exists_ in Hex.
    apply orb_false_elim in Hex as [_ Hex]. apply bool_decide_eq_false_1 in Hex.
    destruct Hex. rewrite E. eauto.
  - split; [split; eauto|].
    intros Hex. destruct Hfile as [content E]. unfold Fs.exists_ in Hex.
    apply orb_false_elim in Hex as [_ Hex]. apply bool_decide_eq_false_1 in Hex.
    destruct Hex. rewrite E. eauto.
  - split; [|congruence]. split; [intros [? [=]]|].
    intros [content E]. now destruct (Hnf content).
Qed.

Lemma insertByTitle_sorted c l :
  (forall a b, localeLe a b = true \/ localeLe b a = true) ->
  Sorted (titleLe localeLe) l -> Sorted (titleLe localeLe) (insertByTitle c l).
Proof.
  intros Htotal Hs. induction Hs as [|d l Hs IH Hd]; cbn [TemplatesCommand.insertByTitle].
  { repeat constructor. }
  destruct (localeLe (TemplatesCommand.title c) (TemplatesCommand.title d)) eqn:E.
  { constructor; [now constructor|]. now constructor. }
  constructor; [assumption|].
  destruct l as [|d' l]; cbn [TemplatesCommand.insertByTitle].
  - constructor. unfold titleLe. destruct (Htotal (TemplatesCommand.title c)
                                             (TemplatesCommand.title d)); congruence.
  - destruct (localeLe (TemplatesCommand.title c) (TemplatesCommand.title d')).
    + constructor. unfold titleLe. destruct (Htotal (TemplatesCommand.title c)
                                               (TemplatesCommand.title d)); congruence.
    + constructor. now inversion Hd.
Qed.

Lemma sortByTitle_sorted l :
  (forall a b, localeLe a b = true \/ localeLe b a = true) ->
  Sorted (titleLe localeLe) (sortByTitle l).
Proof.
  intros Htotal. induction l as [|c l IH]; [constructor|].
  unfold TemplatesCommand.sortByTitle in *. cbn [foldr].
  now apply insertByTitle_sorted.
Qed.

(** X25: the choices come in the order of their titles, for a
    comparison that puts any two titles in order, as [localeCompare]
    does. *)
Theorem getAvailableTemplates_sorted templatesDir w choices :
  (forall a b, localeLe a b = true \/ localeLe b a = true) ->
  (getAvailableTemplates templatesDir w).1 = Normal choices ->
  Sorted (titleLe localeLe) choices.
Proof.
  intros Htotal.
  destruct (getAvailableTemplates_run templatesDir w)
    as [[Hex ->]|[[_ ->]|(Hex & _ & out & w' & -> & Hfs & Hout)]]; cbn [fst].
  - intros [= <-]. constructor.
  - discriminate.
  - intros [= <-]. now apply sortByTitle_sorted.
Qed.

(** The settlement of [try { m } catch (e) { console.error(...) }]. *)
Lemma caught_settles (m : M unit) (message : jserror -> Js.str) w :
  (tryCatch m (fun error => console_error (message error)) w).1 = Normal tt.
Proof.
  unfold tryCatch. destruct (m w) as [[[]|e] w']; reflexivity.
Qed.

(** X26: [selectTemplateByNumber] never rejects: whatever fails, the
    listing, the loading of the selected template or the change of
    the workspace, ends as a line on the console.  A listing that
    fails changes nothing. *)
Theorem selectTemplateByNumber_never_rejects proc templatesDir n w :
  (selectTemplateByNumber proc templatesDir n w).1 = Normal tt /\
  (forall error,
     (getAvailableTemplates templatesDir w).1 = Throw error ->
     selectTemplateByNumber proc templatesDir n w =
       (Normal tt,
        {| w_fs := w_fs w;
           w_trace := w_trace w ++
             [OpExistsSync templatesDir;
              ConsoleError (Js.lit "Error selecting template: " ++ errorText error)] |})).
Proof.
  split; [apply caught_settles|].
  intros error. unfold TemplatesCommand.selectTemplateByNumber, tryCatch.
  unfold bind at 1.
  destruct (getAvailableTemplates_run templatesDir w)
    as [[Hex ->]|[[_ ->]|(Hex & _ & out & w' & -> & Hfs & Hout)]]; cbn [fst];
    try discriminate.
  intros [= <-]. unfold console_error, log. cbn [w_fs w_trace].
  now rewrite <- app_assoc.
Qed.

(** X27: with no template, or a number that is not an integer from 1
    to the number of templates, nothing is selected: the file system
    stays as it is and one line is printed.  A fraction or [NaN]
    between the bounds passes the range test and ends in the error of
    reading [value] of [undefined]. *)
Theorem selectTemplateByNumber_invalid proc templatesDir n w choices :
  (getAvailableTemplates templatesDir w).1 = Normal choices ->
  (forall z, n = TemplatesCommand.Integer z ->
             (z < 1 \/ Z.of_nat (length choices) < z)%Z) ->
  selectTemplateByNumber proc templatesDir n w =
    (Normal tt,
     {| w_fs := w_fs w;
        w_trace :=
          w_trace (getAvailableTemplates templatesDir w).2 ++
          [if bool_decide (choices = []) then
             ConsoleLog (Js.lit "No workflow templates found in templates/workflows/")
           else if TemplatesCommand.belowOne n ||
                   TemplatesCommand.above n (length choices) then
             ConsoleLog (Js.lit "Invalid selection. Please choose a number between 1 and " ++
                         Js.ofZ (Z.of_nat (length choices)) ++ Js.lit ".")
           else
             ConsoleError (Js.lit "Error selecting template: " ++
                           errorText TemplatesCommand.typeError)] |}).
Proof.
  intros Hlist Hn.
  assert (Hfs : w_fs (getAvailableTemplates templatesDir w).2 = w_fs w).
  { destruct (getAvailableTemplates_run templatesDir w)
      as [[Hex ->]|[[_ ->]|(Hex & _ & out & w' & -> & Hfs & Hout)]];
      try reflexivity; assumption. }
  unfold TemplatesCommand.selectTemplateByNumber, tryCatch. unfold bind at 1.
  destruct (getAvailableTemplates templatesDir w) as [r w1].
  cbn [fst snd] in *. subst r.
  destruct choices as [|c choices].
  { rewrite !bool_decide_eq_true_2 by reflexivity.
    unfold console_log, log. cbn [w_fs w_trace]. now rewrite Hfs. }
  rewrite !bool_decide_eq_false_2 by discriminate.
  destruct (TemplatesCommand.belowOne n || TemplatesCommand.above n (length (c :: choices)))
    eqn:Hrange.
  { unfold console_log, log. cbn [w_fs w_trace]. now rewrite Hfs. }
  assert (Hpick : TemplatesCommand.pick (c :: choices) n = None).
  { destruct n as [z| | | |]; try reflexivity.
    exfalso. apply orb_false_elim in Hrange as [H1 H2].
    cbn [TemplatesCommand.belowOne TemplatesCommand.above] in H1, H2.
    destruct (Hn z eq_refl); lia. }
  rewrite Hpick. unfold throw, console_error, log. cbn [w_fs w_trace].
  now rewrite Hfs.
Qed.

(** X28: an integer from 1 to the number of templates selects the
    choice at that place of the list: when its file loads as a
    workflow template, the selection is what
    [handleTemplateSelectionSuccess] does with that template and
    path, and a failure of it is printed. *)
Theorem selectTemplateByNumber_valid proc templatesDir z w choices c u t :
  (getAvailableTemplates templatesDir w).1 = Normal choices ->
  (1 <= z)%Z ->
  choices !! Z.to_nat (z - 1) = Some c ->
  let w1 := (getAvailableTemplates templatesDir w).2 in
  loadWorkflowModule (TemplatesCommand.value c) (w_fs w1) = Normal u ->
  isWorkflowTemplate u = Some t ->
  selectTemplateByNumber proc templatesDir (TemplatesCommand.Integer z) w =
    match handle proc t (TemplatesCommand.value c) w1 with
    | (Normal _, w2) => (Normal tt, w2)
    | (Throw error, w2) =>
        (Normal tt,
         {| w_fs := w_fs w2;
            w_trace := w_trace w2 ++
              [ConsoleError (Js.lit "Error selecting template: " ++ errorText error)] |})
    end.
Proof.
  intros Hlist Hz Hc w1 Hload Htemplate. subst w1.
  unfold TemplatesCommand.selectTemplateByNumber, tryCatch. unfold bind at 1.
  destruct (getAvailableTemplates templatesDir w) as [r w1].
  cbn [fst snd] in *. subst r.
  assert (Hlen : (Z.to_nat (z - 1) < length choices)%nat)
    by (eapply lookup_lt_Some; eassumption).
  rewrite bool_decide_eq_false_2 by (intros E; rewrite E in Hlen; lia).
  assert (Hrange : TemplatesCommand.belowOne (TemplatesCommand.Integer z) ||
                   TemplatesCommand.above (TemplatesCommand.Integer z) (length choices)
                   = false).
  { cbn [TemplatesCommand.belowOne TemplatesCommand.above].
    apply orb_false_intro; [apply Z.ltb_ge; lia|apply Z.ltb_ge; lia]. }
  rewrite Hrange. cbn [TemplatesCommand.pick].
  rewrite (proj2 (Z.leb_le 1 z) Hz), Hc.
  unfold bind at 1, TemplatesCommand.load. rewrite Hload, Htemplate.
  destruct (handle proc t (TemplatesCommand.value c) w1) as [[[]|error] w2];
    reflexivity.
Qed.

End TemplatesCommandFacts.

Lemma codeUnitLe_total a : forall b,
  Scenarios.codeUnitLe a b = true \/ Scenarios.codeUnitLe b a = true.
Proof.
  induction a as [|x a IH]; intros [|y b]; cbn [Scenarios.codeUnitLe]; auto.
  destruct (N.ltb_spec x y); [now left|].
  destruct (N.ltb_spec y x); [now right|].
  assert (x = y) as -> by lia. rewrite N.eqb_refl. cbn [orb andb]. apply IH.
Qed.

#[local] Abbreviation listing :=
  (TemplatesCommand.getAvailableTemplates Js.str Scenarios.loadWorkflowModule
     Scenarios.isWorkflowTemplate Scenarios.codeUnitLe (fun _ => [])
     Scenarios.templatesDir (Samples.world Scenarios.templatesFs)).

#[local] Abbreviation selectSample :=
  (TemplatesCommand.selectTemplateByNumber Js.str Scenarios.loadWorkflowModule
     Scenarios.isWorkflowTemplate Scenarios.codeUnitLe (fun _ => [])
     (fun error => default [] (err_message error)) (fun s => [s]) (fun _ _ => [])
     Samples.hasTemplateChanged Samples.setActiveTemplate
     Samples.bootstrapWorkspace (Samples.proc []) Scenarios.templatesDir).

Lemma listing_sample :
  listing.1 = Normal [Scenarios.choice "build.workflow.js" "Build";
                      Scenarios.choice "review.workflow.js" "Review"].
Proof. vm_compute. reflexivity. Qed.

Lemma getAvailableTemplates_lists_witness :
  w_fs listing.2 = Scenarios.templatesFs /\
  forall c,
    c ∈ [Scenarios.choice "build.workflow.js" "Build";
         Scenarios.choice "review.workflow.js" "Review"] <->
    Fs.exists_ Scenarios.templatesFs Scenarios.templatesDir = true /\
    exists file,
      is_Some (Scenarios.templatesFs !! (Scenarios.templatesDir ++ [file])) /\
      endsWith (Js.lit ".workflow.js") file = true /\
      offers Scenarios.loadWorkflowModule Scenarios.isWorkflowTemplate
        Scenarios.templatesDir Scenarios.templatesFs file c.
Proof.
  exact (getAvailableTemplates_lists Js.str Scenarios.loadWorkflowModule
           Scenarios.isWorkflowTemplate Scenarios.codeUnitLe (fun _ => [])
           Scenarios.templatesDir (Samples.world Scenarios.templatesFs) _
           listing_sample).
Defined.

Lemma getAvailableTemplates_sorted_witness :
  Sorted (titleLe Scenarios.codeUnitLe)
    [Scenarios.choice "build.workflow.js" "Build";
     Scenarios.choice "review.workflow.js" "Review"].
Proof.
  exact (getAvailableTemplates_sorted Js.str Scenarios.loadWorkflowModule
           Scenarios.isWorkflowTemplate Scenarios.codeUnitLe (fun _ => [])
           Scenarios.templatesDir (Samples.world Scenarios.templatesFs) _
           codeUnitLe_total listing_sample).
Defined.

Lemma selectTemplateByNumber_invalid_witness :
  selectSample TemplatesCommand.NaN (Samples.world Scenarios.templatesFs) =
    (Normal tt,
     {| w_fs := Scenarios.templatesFs;
        w_trace :=
          w_trace listing.2 ++
          [ConsoleError
             (Js.lit "Error selecting template: " ++
              Js.lit "Cannot read properties of undefined (reading 'value')")] |}).
Proof.
  apply (selectTemplateByNumber_invalid Js.str Scenarios.loadWorkflowModule
           Scenarios.isWorkflowTemplate Scenarios.codeUnitLe (fun _ => [])
           (fun error => default [] (err_message error)) (fun s => [s])
           (fun _ _ => []) Samples.hasTemplateChanged Samples.setActiveTemplate
           Samples.bootstrapWorkspace (Samples.proc []) Scenarios.templatesDir
           TemplatesCommand.NaN (Samples.world Scenarios.templatesFs)
           [Scenarios.choice "build.workflow.js" "Build";
            Scenarios.choice "review.workflow.js" "Review"]);
    [exact listing_sample | discriminate].
Defined.

Lemma selectTemplateByNumber_valid_witness :
  selectSample (TemplatesCommand.Integer 2) (Samples.world Scenarios.templatesFs) =
    match Templates.handleTemplateSelectionSuccess (fun s => [s]) (fun _ _ => [])
            Samples.hasTemplateChanged Samples.setActiveTemplate
            Samples.bootstrapWorkspace (Samples.proc [])
            {| Templates.template_name := Js.lit "Review"; Templates.steps := [] |}
            (Scenarios.templatesDir ++ [Js.lit "review.workflow.js"]) listing.2
    with
    | (Normal _, w2) => (Normal tt, w2)
    | (Throw error, w2) =>
        (Normal tt,
         {| w_fs := w_fs w2;
            w_trace := w_trace w2 ++
              [ConsoleError (Js.lit "Error selecting template: " ++
                             default [] (err_message error))] |})
    end.
Proof.
  apply (selectTemplateByNumber_valid Js.str Scenarios.loadWorkflowModule
           Scenarios.isWorkflowTemplate Scenarios.codeUnitLe (fun _ => [])
           (fun error => default [] (err_message error)) (fun s => [s])
           (fun _ _ => []) Samples.hasTemplateChanged Samples.setActiveTemplate
           Samples.bootstrapWorkspace (Samples.proc []) Scenarios.templatesDir
           2%Z (Samples.world Scenarios.templatesFs)
           [Scenarios.choice "build.workflow.js" "Build";
            Scenarios.choice "review.workflow.js" "Review"]
           (Scenarios.choice "review.workflow.js" "Review") (Js.lit "Review"));
    [ exact listing_sample | lia | reflexivity | vm_compute; reflexivity
    | reflexivity ].
Defined.

(** ** The start-up hook *)

Section CliSetupFacts.

Variable toPath : Js.str -> path.
Variable pathToString : path -> Js.str.
Variable bootstrapWorkspace : path -> path -> Fs.t -> completion jserror Fs.t.

#[local] Abbreviation preAction :=
  (CliSetup.preAction toPath pathToString bootstrapWorkspace).
#[local] Abbreviation targetDir := (CliSetup.targetDir pathToString).
#[local] Abbreviation processAfter := (CliSetup.processAfter pathToString).

Lemma syncAll_trace engines : forall w,
  w_trace (CliSetup.syncAll engines w).2 = w_trace w.
Proof.
  induction engines as [|[f|] engines IH]; intros w; cbn [CliSetup.syncAll];
    [reflexivity| |apply IH].
  unfold bind, CliSetup.syncConfig.
  destruct (f (w_fs w)); cbn [snd]; [|reflexivity].
  now rewrite IH.
Qed.

(** X29: the hook bootstraps the workspace exactly when
    [.codemachine] is missing once the engines have synchronised
    their configuration, once and with [codemachine.workflow.js] of
    the templates directory; a workspace that is there is left as the
    synchronisation left it, and a synchronisation that fails ends
    the hook before it looks. *)
Theorem preAction_bootstraps_missing_workspace templatesDir engines proc dir w :
  let cwd := toPath (targetDir proc dir) in
  let cmRoot := cwd ++ [Js.lit ".codemachine"] in
  let defaultTemplate := templatesDir ++ [Js.lit "codemachine.workflow.js"] in
  let synced := CliSetup.syncAll engines w in
  let w' := (preAction templatesDir engines proc dir w).2 in
  (forall error,
     synced.1 = Throw error ->
     preAction templatesDir engines proc dir w = (Throw error, synced.2) /\
     w_trace w' = w_trace w) /\
  (synced.1 = Normal tt ->
   Fs.exists_ (w_fs synced.2) cmRoot = true ->
   preAction templatesDir engines proc dir w =
     (Normal tt,
      {| w_fs := w_fs synced.2; w_trace := w_trace w ++ [OpExistsSync cmRoot] |})) /\
  (synced.1 = Normal tt ->
   Fs.exists_ (w_fs synced.2) cmRoot = false ->
   w_trace w' =
     w_trace w ++ [OpExistsSync cmRoot; OpBootstrapWorkspace cwd defaultTemplate] /\
   match bootstrapWorkspace cwd defaultTemplate (w_fs synced.2) with
   | Normal fs' =>
       (preAction templatesDir engines proc dir w).1 = Normal tt /\ w_fs w' = fs'
   | Throw error =>
       (preAction templatesDir engines proc dir w).1 = Throw error /\
       w_fs w' = w_fs synced.2
   end).
Proof.
  intros cwd cmRoot defaultTemplate synced w'.
  subst w' synced cmRoot defaultTemplate cwd.
  pose proof (syncAll_trace engines w) as Htrace.
  unfold CliSetup.preAction, path_join. cbv zeta. cbn [map].
  unfold bind, existsSync, liftFs, ret.
  destruct (CliSetup.syncAll engines w) as [[[]|e] w1]; cbn [fst snd w_fs w_trace] in *.
  - split; [discriminate|]. rewrite Htrace.
    split.
    + intros _ ->. reflexivity.
    + intros _ ->. cbn [negb w_fs w_trace].
      destruct (bootstrapWorkspace _ _ (w_fs w1));
        cbn [snd fst w_trace w_fs]; (split; [now rewrite <- app_assoc|]);
        split; reflexivity.
  - split; [|split; discriminate].
    intros error [= <-]. split; [reflexivity|assumption].
Qed.

(** X30: the hook stores the directory it prepared in
    [CODEMACHINE_CWD], so the selection of a template afterwards works
    in that directory: [.codemachine] of the hook is where
    [handleTemplateSelectionSuccess] looks for the agents. *)
Theorem preAction_sets_workspace proc dir :
  pathToString (process_cwd proc) <> [] ->
  let proc' := processAfter proc dir in
  process_env proc' !! "CODEMACHINE_CWD"%string = Some (targetDir proc dir) /\
  Templates.workspaceDir toPath proc' = toPath (targetDir proc dir) /\
  Templates.agentsDirOf toPath proc' =
    toPath (targetDir proc dir) ++ [Js.lit ".codemachine"; Js.lit "agents"] /\
  (forall name, name <> "CODEMACHINE_CWD"%string ->
     process_env proc' !! name = process_env proc !! name).
Proof.
  intros Hcwd proc'.
  assert (Hne : targetDir proc dir <> []).
  { unfold CliSetup.targetDir. destruct dir as [d|]; [|assumption].
    case_bool_decide; assumption. }
  assert (Henv : process_env proc' !! "CODEMACHINE_CWD"%string
                 = Some (targetDir proc dir)).
  { subst proc'. unfold CliSetup.processAfter, CliSetup.setCwd. cbn [process_env].
    apply lookup_insert_eq. }
  assert (Hdir : Templates.workspaceDir toPath proc' = toPath (targetDir proc dir)).
  { unfold Templates.workspaceDir, envTruthy. rewrite Henv.
    now rewrite bool_decide_eq_false_2. }
  split; [assumption|]. split; [assumption|]. split.
  - unfold Templates.agentsDirOf, path_join. rewrite Hdir. cbn [map].
    now rewrite <- app_assoc.
  - intros name Hname. subst proc'.
    unfold CliSetup.processAfter, CliSetup.setCwd. cbn [process_env].
    now apply lookup_insert_ne.
Qed.

End CliSetupFacts.

Lemma preAction_sets_workspace_witness :
  let proc' := CliSetup.processAfter (fun p => Js.join (Js.lit "/") ([] :: p))
                 (Samples.proc []) (Some (Js.lit "/srv/app")) in
  process_env proc' !! "CODEMACHINE_CWD"%string = Some (Js.lit "/srv/app") /\
  Templates.workspaceDir (fun s => [s]) proc' = [Js.lit "/srv/app"].
Proof.
  intros proc'.
  destruct (preAction_sets_workspace (fun s => [s])
              (fun p => Js.join (Js.lit "/") ([] :: p))
              (Samples.proc []) (Some (Js.lit "/srv/app")))
    as (Henv & Hdir & _); [vm_compute; discriminate|].
  split; [exact Henv|exact Hdir].
Defined.
